(** * volatility_bot: the market-data core, embedded and verified

    A shallow embedding of the three stages of [data_processing.py]
    (the gatekeeper [validate_ticker], the harvester [fetch_market_data]
    and the brain [analyze_market_data]) and of the funding scanner of
    [add_func.py] ([get_funding_data], [get_top_funding_rates],
    [check_extreme_funding]).

    Modelling conventions.
    - Network calls are inputs: the exchange is a function from requests
      to replies (or to a raised exception), so every operation is a pure
      function of what the exchange delivers.
    - A Python [str] is its UTF-8 encoding.  [int(s)] and [float(s)] are
      the parsers [py_int] and [py_float]: white space, signs, digits
      grouped by underscores, the decimal digits and the white space of
      Unicode (version 14.0), and for [float] the exponent notation, the
      words [inf], [infinity] and [nan], and the rounding of the literal
      to the nearest binary64 number.
    - In the funding scanner a [float] is a binary64 number ([pyfloat]):
      a finite number by its exact value, the negative zero, the
      infinities and [nan].  The comparisons, the product [rate * 100]
      and the formats [.2f] and [.4f] are those of IEEE 754 and of
      Python, so the reports are the texts that the program prints.
    - In the analysis of the candles a [float] that is a number is
      modelled by its value, an exact rational ([Q]), and the arithmetic
      is exact, without rounding, overflow or underflow: the properties
      studied there are about control flow, filtering, ordering and
      indexing, none is about rounding.  A price
      that [float] reads as [inf] or [nan] takes the analysis out of the
      model (the result [NonFinite]).  [math.log], [math.exp] and the
      square root are the fields of the class [MathLib].
    - An exception is [None] in the option monad (or a constructor of its
      own where the caller can observe it); [return None] of the Python
      code is a separate value.
    - JSON objects read with a fixed set of keys are records; the result
      dictionary [stats] of the brain is a [gmap string pyval]. *)

From Stdlib Require Import Ascii String QArith Qround Qabs Lqa.
From Stdlib Require Import Sorted Permutation.
From stdpp Require Import gmap strings list pretty sorting.

Open Scope Z_scope.

(** ** Python strings *)

Definition newline : string := String "010"%char EmptyString.

Definition is_continuation (b : Z) : bool := (128 <=? b) && (b <? 192).

(** The code points that a sequence of UTF-8 bytes encodes.  A byte
    sequence that is not the encoding of any [str] gives [-1] at the
    offending byte. *)
Fixpoint utf8_decode (bytes : list Z) : list Z :=
  match bytes with
  | [] => []
  | b :: r =>
      if b <? 128 then b :: utf8_decode r
      else if (192 <=? b) && (b <? 224) then
        match r with
        | c1 :: r1 =>
            if is_continuation c1
            then ((b - 192) * 64 + (c1 - 128)) :: utf8_decode r1
            else -1 :: utf8_decode r
        | [] => [-1]
        end
      else if (224 <=? b) && (b <? 240) then
        match r with
        | c1 :: c2 :: r2 =>
            if is_continuation c1 && is_continuation c2
            then ((b - 224) * 4096 + (c1 - 128) * 64 + (c2 - 128))
                   :: utf8_decode r2
            else -1 :: utf8_decode r
        | _ => -1 :: utf8_decode r
        end
      else if (240 <=? b) && (b <? 248) then
        match r with
        | c1 :: c2 :: c3 :: r3 =>
            if is_continuation c1 && is_continuation c2 && is_continuation c3
            then ((b - 240) * 262144 + (c1 - 128) * 4096 + (c2 - 128) * 64
                  + (c3 - 128)) :: utf8_decode r3
            else -1 :: utf8_decode r
        | _ => -1 :: utf8_decode r
        end
      else -1 :: utf8_decode r
  end.

Definition code_points (s : string) : list Z :=
  utf8_decode (map (λ a, Z.of_nat (nat_of_ascii a)) (list_ascii_of_string s)).

(** The characters above 127 that [str.isspace] accepts. *)
Definition unicode_spaces : list Z :=
  [133; 160; 5760; 8192; 8193; 8194; 8195; 8196;
   8197; 8198; 8199; 8200; 8201; 8202; 8232; 8233;
   8239; 8287; 12288].

(** The code points of the digits zero of Unicode 14.0; the digits one
    to nine of a script follow its zero. *)
Definition unicode_zeros : list Z :=
  [1632; 1776; 1984; 2406; 2534; 2662; 2790; 2918;
   3046; 3174; 3302; 3430; 3558; 3664; 3792; 3872;
   4160; 4240; 6112; 6160; 6470; 6608; 6784; 6800;
   6992; 7088; 7232; 7248; 42528; 43216; 43264; 43472;
   43504; 43600; 44016; 65296; 66720; 68912; 69734; 69872;
   69942; 70096; 70384; 70736; 70864; 71248; 71360; 71472;
   71904; 72016; 72784; 73040; 73120; 92768; 92864; 93008;
   120782; 120792; 120802; 120812; 120822; 123200; 123632; 125264;
   130032].

(** The decimal value of a digit above 127. *)
Definition unicode_decimal (cp : Z) : option Z :=
  (λ zero, cp - zero)
    <$> List.find (λ zero, (zero <=? cp) && (cp <? zero + 10)) unicode_zeros.

Definition digit_char (z : Z) : ascii :=
  ascii_of_nat (48 + Z.to_nat (z mod 10)).

(** What [int] and [float] read of a character: an ASCII character is
    read as it is, a white space of Unicode as a space, a decimal digit
    of Unicode as the ASCII digit of its value, and any other character
    as a question mark, which no number contains. *)
Definition ascii_form_char (cp : Z) : ascii :=
  if (0 <=? cp) && (cp <? 128) then ascii_of_nat (Z.to_nat cp)
  else if existsb (Z.eqb cp) unicode_spaces then " "%char
  else match unicode_decimal cp with
       | Some d => digit_char d
       | None => "?"%char
       end.

Definition ascii_form (s : string) : list ascii :=
  map ascii_form_char (code_points s).

(** ** Python builtins *)

Definition is_space (c : ascii) : bool :=
  match nat_of_ascii c with
  | 32%nat | 9%nat | 10%nat | 11%nat | 12%nat | 13%nat => true
  | _ => false
  end.

Definition is_digit (c : ascii) : bool :=
  let n := nat_of_ascii c in (48 <=? n)%nat && (n <=? 57)%nat.

Definition digit_val (c : ascii) : Z := Z.of_nat (nat_of_ascii c) - 48.

Fixpoint lstrip (s : list ascii) : list ascii :=
  match s with
  | c :: r => if is_space c then lstrip r else s
  | [] => []
  end.

(** The white space that [int] and [float] skip at both ends of their
    argument. *)
Definition strip (s : list ascii) : list ascii :=
  rev (lstrip (rev (lstrip s))).

(** The underscores that group the digits of a literal are taken out:
    an underscore is accepted only between two digits. [prev] is the
    character before the input. *)
Fixpoint drop_underscores (prev : ascii) (s : list ascii)
  : option (list ascii) :=
  match s with
  | [] => if Ascii.eqb prev "_" then None else Some []
  | c :: r =>
      if Ascii.eqb c "_" then
        if is_digit prev then drop_underscores c r else None
      else if Ascii.eqb prev "_" && negb (is_digit c) then None
      else cons c <$> drop_underscores c r
  end.

(** Reads the longest prefix of decimal digits: its value (continuing
    [acc]), how many digits were read, and the rest of the input. *)
Fixpoint read_digits (acc : Z) (count : nat) (s : list ascii)
  : Z * nat * list ascii :=
  match s with
  | c :: r =>
      if is_digit c then read_digits (10 * acc + digit_val c) (S count) r
      else (acc, count, s)
  | [] => (acc, count, [])
  end.

(** Reads an optional sign: [true] for a minus. *)
Definition read_sign (s : list ascii) : bool * list ascii :=
  match s with
  | "-"%char :: r => (true, r)
  | "+"%char :: r => (false, r)
  | _ => (false, s)
  end.

Definition apply_sign (neg : bool) (z : Z) : Z := if neg then - z else z.

(** The default of [sys.get_int_max_str_digits()]. *)
Definition int_max_str_digits : nat := 4300.

(** [int(s)] on a string: [None] is [ValueError]. *)
Definition py_int (s : string) : option Z :=
  l ← drop_underscores "000"%char (ascii_form s);
  let '(neg, r) := read_sign (strip l) in
  match read_digits 0 0%nat r with
  | (v, S n, []) =>
      if (S n <=? int_max_str_digits)%nat then Some (apply_sign neg v)
      else None
  | _ => None
  end.

(** ** Floats *)

(** A Python [float], an IEEE 754 binary64 number: a finite number
    other than the negative zero is given by its exact value. *)
Inductive pyfloat :=
  | Finite (q : Q)
  | NegZero
  | Infinity (negative : bool)
  | NaN.

(** The rational [m * 10^e]. *)
Definition scale10 (m e : Z) : Q :=
  if 0 <=? e then inject_Z (m * 10 ^ e) else Qmake m (Z.to_pos (10 ^ (- e))).

(** The rational [2^e]. *)
Definition pow2 (e : Z) : Q :=
  if 0 <=? e then inject_Z (2 ^ e) else Qmake 1 (Z.to_pos (2 ^ (- e))).

(** Comparisons of rationals, as booleans. *)
Definition Qltb (x y : Q) : bool := negb (Qle_bool y x).
Definition Qleb (x y : Q) : bool := Qle_bool x y.

(** Rounding to the nearest integer, ties to the even one. *)
Definition round_half_even (q : Q) : Z :=
  let f := Qfloor q in
  match Qcompare (q - inject_Z f) (1 # 2) with
  | Lt => f
  | Gt => f + 1
  | Eq => if Z.even f then f else f + 1
  end.

(** For a positive [a], the exponent [e] with [2^e <= a < 2^(e+1)]. *)
Definition binade (a : Q) : Z :=
  let e := Z.log2 (Qnum a) - Z.log2 (Zpos (Qden a)) in
  if Qle_bool (pow2 e) a then e else e - 1.

(** Rounding of a real number to the nearest binary64 number, ties to
    the even significand: 53 bits from the exponent -1022 up, multiples
    of [2^-1074] below, infinity from [2^1024] on. *)
Definition round64 (q : Q) : pyfloat :=
  let a := Qabs q in
  if Qeq_bool a 0 then Finite 0
  else
    let quantum := pow2 (Z.max (binade a) (-1022) - 52) in
    let m := round_half_even (a / quantum) in
    let v := Qred (inject_Z m * quantum) in
    if Qle_bool (pow2 1024) v then Infinity (Qltb q 0)
    else if m =? 0 then (if Qltb q 0 then NegZero else Finite 0)
    else Finite (if Qltb q 0 then Qopp v else v).

(** The optional exponent part of a decimal literal; [None] when the
    input is not a well-formed exponent followed by the end of input. *)
Definition read_exponent (s : list ascii) : option Z :=
  match s with
  | [] => Some 0
  | c :: r =>
      if (Ascii.eqb c "e" || Ascii.eqb c "E")%bool then
        let '(neg, r') := read_sign r in
        match read_digits 0 0%nat r' with
        | (v, S _, []) => Some (apply_sign neg v)
        | _ => None
        end
      else None
  end.

Definition to_lower (c : ascii) : ascii :=
  let n := nat_of_ascii c in
  if (65 <=? n)%nat && (n <=? 90)%nat then ascii_of_nat (n + 32) else c.

(** The input is the word [w], in upper or lower case. *)
Definition is_word (w : string) (s : list ascii) : bool :=
  bool_decide (map to_lower s = list_ascii_of_string w).

(** [float(s)] on a string: [None] is [ValueError].  The literals are
    [[sign] digits [. digits] [e [sign] digits]] with at least one digit
    in the mantissa and with single underscores between digits, and the
    words [inf], [infinity] and [nan] with an optional sign; the value
    of a decimal literal is rounded to the nearest float. *)
Definition py_float (s : string) : option pyfloat :=
  l ← drop_underscores "000"%char (ascii_form s);
  let '(neg, r) := read_sign (strip l) in
  if is_word "inf" r || is_word "infinity" r then Some (Infinity neg)
  else if is_word "nan" r then Some NaN
  else
    let '(ip, n1, r1) := read_digits 0 0%nat r in
    let '(m, n2, r2) :=
      match r1 with
      | "."%char :: r' => read_digits ip 0%nat r'
      | _ => (ip, 0%nat, r1)
      end in
    match (n1 + n2)%nat with
    | O => None
    | S _ =>
        match read_exponent r2 with
        | Some e =>
            Some (if m =? 0 then (if neg then NegZero else Finite 0)
                  else round64 (scale10 (apply_sign neg m) (e - Z.of_nat n2)))
        | None => None
        end
    end.

(** The value of a float that is a number: both zeros are [0]. *)
Definition finite_value (x : pyfloat) : option Q :=
  match x with
  | Finite q => Some q
  | NegZero => Some 0%Q
  | _ => None
  end.

(** The sign bit. *)
Definition sign_bit (x : pyfloat) : bool :=
  match x with
  | Finite q => Qltb q 0
  | NegZero => true
  | Infinity negative => negative
  | NaN => false
  end.

(** [x < y] and [x <= y] on floats: no comparison with [nan] holds, and
    the two zeros are equal. *)
Definition float_ltb (x y : pyfloat) : bool :=
  match x, y with
  | NaN, _ | _, NaN => false
  | Infinity true, Infinity true => false
  | Infinity true, _ => true
  | _, Infinity true => false
  | Infinity false, _ => false
  | _, Infinity false => true
  | _, _ => Qltb (default 0%Q (finite_value x)) (default 0%Q (finite_value y))
  end.

Definition float_leb (x y : pyfloat) : bool :=
  match x, y with
  | NaN, _ | _, NaN => false
  | Infinity true, _ => true
  | _, Infinity true => false
  | _, Infinity false => true
  | Infinity false, _ => false
  | _, _ => Qleb (default 0%Q (finite_value x)) (default 0%Q (finite_value y))
  end.

(** [x * y] on floats. *)
Definition float_mul (x y : pyfloat) : pyfloat :=
  let negative := xorb (sign_bit x) (sign_bit y) in
  match x, y with
  | NaN, _ | _, NaN => NaN
  | Infinity _, z | z, Infinity _ =>
      match finite_value z with
      | Some v => if Qeq_bool v 0 then NaN else Infinity negative
      | None => Infinity negative
      end
  | _, _ =>
      let v := (default 0 (finite_value x) * default 0 (finite_value y))%Q in
      if Qeq_bool v 0 then (if negative then NegZero else Finite 0)
      else round64 v
  end.

(** Zeros on the left up to a width. *)
Definition zero_pad (width : nat) (s : string) : string :=
  string_of_list_ascii (replicate (width - String.length s) "0"%char) +:+ s.

(** The digits of [.{d}f] for an exactly known value: the nearest
    decimal with [d] places, ties to the even one. *)
Definition format_fixed (d : nat) (q : Q) : string :=
  let p := 10 ^ Z.of_nat d in
  let r := round_half_even (Qabs q * inject_Z p) in
  (if Qltb q 0 then "-" else "")
    +:+ pretty (r / p)
    +:+ (match d with
         | O => ""
         | _ => "." +:+ zero_pad d (pretty (r mod p))
         end).

(** The format specification [.{d}f] on a float. *)
Definition format_float (d : nat) (x : pyfloat) : string :=
  match x with
  | Finite q => format_fixed d q
  | NegZero => "-" +:+ format_fixed d 0
  | Infinity negative => if negative then "-inf" else "inf"
  | NaN => "nan"
  end.

(** [int(x)] on a float: truncation towards zero. *)
Definition py_trunc (x : Q) : Z := Z.quot (Qnum x) (Zpos (Qden x)).

(** [l[i]] for a Python integer index: negative indices count from the
    end, [None] is [IndexError]. *)
Definition py_index {A} (l : list A) (i : Z) : option A :=
  if i <? 0 then
    (if 0 <=? Z.of_nat (length l) + i
     then l !! Z.to_nat (Z.of_nat (length l) + i) else None)
  else l !! Z.to_nat i.

(** [l[:k]]: the first [k] elements, all but the last [-k] when [k] is
    negative. *)
Definition py_slice_to {A} (k : Z) (l : list A) : list A :=
  if k <? 0 then take (Z.to_nat (Z.of_nat (length l) + k)) l
  else take (Z.to_nat k) l.

(** [l[-k:]] for a positive literal [k]: the last [k] elements, the whole
    list when it is shorter. *)
Definition py_slice_last {A} (k : nat) (l : list A) : list A :=
  drop (length l - k) l.

(** Insertion into a list sorted by key, in front of the first element
    whose key is not smaller: elements with equal keys keep the order in
    which they are inserted from the right. *)
Fixpoint insert_by_key {A} (key : A → Q) (x : A) (l : list A) : list A :=
  match l with
  | [] => [x]
  | y :: r =>
      if Qltb (key y) (key x) then y :: insert_by_key key x r
      else x :: y :: r
  end.

(** [sorted(l, key=key)], the keys being floats taken as rationals:
    ascending and stable. *)
Fixpoint py_sorted {A} (key : A → Q) (l : list A) : list A :=
  match l with
  | [] => []
  | x :: r => insert_by_key key x (py_sorted key r)
  end.

(** Insertion into a list sorted by a float key, in front of the first
    element whose key is not smaller. *)
Fixpoint insert_by_float {A} (key : A → pyfloat) (x : A) (l : list A)
  : list A :=
  match l with
  | [] => [x]
  | y :: r =>
      if float_ltb (key y) (key x) then y :: insert_by_float key x r
      else x :: y :: r
  end.

(** [l.sort(key=key)], the keys being floats: ascending and stable.  The
    sort of Python compares keys with [<] only; the program sorts rates
    that passed a comparison before, so none of them is [nan]. *)
Fixpoint list_sort {A} (key : A → pyfloat) (l : list A) : list A :=
  match l with
  | [] => []
  | x :: r => insert_by_float key x (list_sort key r)
  end.

(** [max(l, key=key)]: the first element with the largest key; [None] is
    the [ValueError] on an empty sequence. *)
Definition py_max_by {A} (key : A → Q) (l : list A) : option A :=
  match l with
  | [] => None
  | x :: r =>
      Some (fold_left (λ best y, if Qltb (key best) (key y) then y else best)
                      r x)
  end.

(** [min(l, key=key)]: the first element with the smallest key. *)
Definition py_min_by {A} (key : A → Q) (l : list A) : option A :=
  match l with
  | [] => None
  | x :: r =>
      Some (fold_left (λ best y, if Qltb (key y) (key best) then y else best)
                      r x)
  end.

(** [max(a, b, c)] on three floats. *)
Definition py_max3 (a b c : Q) : Q :=
  let m := if Qltb a b then b else a in
  if Qltb m c then c else m.

(** The sum of a list of floats; the running total is kept in lowest
    terms. *)
Definition Qsum (l : list Q) : Q :=
  fold_left (λ acc x, Qred (acc + x)) l 0%Q.

(** [statistics.mean]: [None] is [StatisticsError] on empty data. *)
Definition statistics_mean (l : list Q) : option Q :=
  match l with
  | [] => None
  | _ => Some (Qsum l / inject_Z (Z.of_nat (length l)))%Q
  end.

(** The transcendental functions of the [math] module and the square
    root used by [statistics.stdev] and by [7 ** 0.5]. *)
Class MathLib := {
  math_log : Q → Q;
  math_exp : Q → Q;
  math_sqrt : Q → Q
}.

(** [statistics.stdev]: the sample standard deviation; [None] is
    [StatisticsError] on fewer than two data points. *)
Definition statistics_stdev `{MathLib} (l : list Q) : option Q :=
  match l with
  | [] | [_] => None
  | _ =>
      let n := inject_Z (Z.of_nat (length l)) in
      let c := (Qsum l / n)%Q in
      let ss := Qsum (map (λ x, (x - c) * (x - c))%Q l) in
      Some (math_sqrt (ss / (n - 1))%Q)
  end.

(** ** Block 1: the gatekeeper ([validate_ticker]) *)

(** The categories in the order of preference. *)
Definition search_order : list string := ["linear"; "inverse"; "spot"].

(** An entry of an instrument listing, read with [item.get("symbol")]. *)
Record instrument := { inst_symbol : option string }.

(** A decoded page of the instrument listing:
    [data.get("result", {}).get("list", [])] and
    [data.get("result", {}).get("nextPageCursor", "")]. *)
Record page := {
  instruments : list instrument;
  nextPageCursor : string
}.

(** One HTTP request to the listing endpoint: category and cursor (the
    empty cursor is the request without a cursor parameter). *)
Definition request : Type := string * string.

(** The exchange as seen through [requests.get]: [None] when the request
    or its decoding raises. *)
Definition exchange : Type := string → string → option page.

Inductive scan_result :=
  | Found          (* [return True, category] *)
  | Exhausted      (* [break]: no next page *)
  | Failed         (* an exception, caught: [continue] *)
  | OutOfFuel.     (* the pagination did not end within the fuel *)

Definition has_symbol (ticker_symbol : string) (items : list instrument)
  : bool :=
  existsb (λ item, bool_decide (inst_symbol item = Some ticker_symbol)) items.

(** The pagination loop [while True] of one category, with the requests
    it sends, in order. *)
Fixpoint scan_pages (fuel : nat) (ex : exchange)
    (category ticker_symbol cursor : string) : scan_result * list request :=
  match fuel with
  | O => (OutOfFuel, [])
  | S fuel' =>
      match ex category cursor with
      | None => (Failed, [(category, cursor)])
      | Some data =>
          if has_symbol ticker_symbol (instruments data)
          then (Found, [(category, cursor)])
          else if bool_decide (nextPageCursor data = "")
          then (Exhausted, [(category, cursor)])
          else
            let '(r, t) := scan_pages fuel' ex category ticker_symbol
                             (nextPageCursor data) in
            (r, (category, cursor) :: t)
      end
  end.

(** The loop [for category in search_order]. The result is [None] when a
    pagination loop did not end within the fuel, else the returned pair
    [(exists, category)]. *)
Fixpoint search_categories (fuel : nat) (ex : exchange)
    (ticker_symbol : string) (categories : list string)
  : option (bool * option string) * list request :=
  match categories with
  | [] => (Some (false, None), [])
  | category :: rest =>
      match scan_pages fuel ex category ticker_symbol "" with
      | (Found, t) => (Some (true, Some category), t)
      | (OutOfFuel, t) => (None, t)
      | (_, t) =>
          let '(r, t') := search_categories fuel ex ticker_symbol rest in
          (r, t ++ t')
      end
  end.

Definition validate_ticker (fuel : nat) (ex : exchange)
    (ticker_symbol : string)
  : option (bool * option string) * list request :=
  search_categories fuel ex ticker_symbol search_order.

(** The symbol is listed in a category when following the cursors from
    the first page reaches, after [n] further pages and without a failed
    request, a page that holds it. *)
Inductive listed_from (ex : exchange) (category ticker_symbol : string)
  : string → nat → Prop :=
  | listed_here cursor data :
      ex category cursor = Some data →
      has_symbol ticker_symbol (instruments data) = true →
      listed_from ex category ticker_symbol cursor 0
  | listed_later cursor data n :
      ex category cursor = Some data →
      has_symbol ticker_symbol (instruments data) = false →
      nextPageCursor data ≠ "" →
      listed_from ex category ticker_symbol (nextPageCursor data) n →
      listed_from ex category ticker_symbol cursor (S n).

(** The pagination of a category ends: following the cursors from a
    page reaches, after [n] further pages, a request that fails or a
    page without a next cursor. *)
Inductive ends_from (ex : exchange) (category : string)
  : string → nat → Prop :=
  | ends_failed cursor :
      ex category cursor = None →
      ends_from ex category cursor 0
  | ends_last cursor data :
      ex category cursor = Some data →
      nextPageCursor data = "" →
      ends_from ex category cursor 0
  | ends_later cursor data n :
      ex category cursor = Some data →
      nextPageCursor data ≠ "" →
      ends_from ex category (nextPageCursor data) n →
      ends_from ex category cursor (S n).

(** A category that does not list the symbol and whose pagination ends
    within the fuel. *)
Definition searched_in_vain (fuel : nat) (ex : exchange)
    (ticker_symbol category : string) : Prop :=
  (∀ m, ¬ listed_from ex category ticker_symbol "" m)
  ∧ ∃ n, (n < fuel)%nat ∧ ends_from ex category "" n.

(** Position of a category in the search order. *)
Fixpoint category_rank (categories : list string) (c : string) : nat :=
  match categories with
  | [] => 0
  | c' :: rest => if bool_decide (c' = c) then 0 else S (category_rank rest c)
  end.

(** ** Block 2: the harvester ([fetch_market_data]) *)

(** A candle row [[startTime, open, high, low, close, volume, turnover]],
    every field a string as delivered. *)
Definition candle : Type := list string.

(** Days since 1970-01-01 to the civil date (year, month, day) of the
    proleptic Gregorian calendar. *)
Definition civil_from_days (days : Z) : Z * Z * Z :=
  let z := days + 719468 in
  let era := z / 146097 in
  let doe := z - era * 146097 in
  let yoe := (doe - doe / 1460 + doe / 36524 - doe / 146096) / 365 in
  let doy := doe - (365 * yoe + yoe / 4 - yoe / 100) in
  let mp := (5 * doy + 2) / 153 in
  let d := doy - (153 * mp + 2) / 5 + 1 in
  let m := if mp <? 10 then mp + 3 else mp - 9 in
  let y := yoe + era * 400 + (if m <=? 2 then 1 else 0) in
  (y, m, d).

(** [strftime("%Y-%m-%d")]. *)
Definition strftime_ymd (date : Z * Z * Z) : string :=
  let '(y, m, d) := date in
  string_of_list_ascii
    [digit_char (y / 1000); digit_char (y / 100); digit_char (y / 10);
     digit_char y; "-"%char;
     digit_char (m / 10); digit_char m; "-"%char;
     digit_char (d / 10); digit_char d].

(** The shape [YYYY-MM-DD]. *)
Definition is_ymd (s : string) : bool :=
  match list_ascii_of_string s with
  | [y1; y2; y3; y4; s1; m1; m2; s2; d1; d2] =>
      forallb is_digit [y1; y2; y3; y4; m1; m2; d1; d2]
      && Ascii.eqb s1 "-" && Ascii.eqb s2 "-"
  | _ => false
  end.

Section Harvester.

(** The offset of local time from UTC, in seconds, at an instant given
    in seconds since the epoch. *)
Variable utcoffset : Z → Z.

(** [datetime.fromtimestamp(ms / 1000)], the date part: [None] when
    the instant is outside the years 1 to 9999 ([ValueError],
    [OverflowError]). *)
Definition fromtimestamp_date (ms : Z) : option (Z * Z * Z) :=
  let secs := ms / 1000 in
  let '(y, m, d) := civil_from_days ((secs + utcoffset secs) / 86400) in
  if (1 <=? y) && (y <=? 9999) then Some (y, m, d) else None.

(** The date string written over [candle[0]]. *)
Definition date_str_of (ts : string) : option string :=
  ms ← py_int ts;
  date ← fromtimestamp_date ms;
  Some (strftime_ymd date).

(** One iteration of the cleaning loop: [None] when it raises
    ([IndexError] on an empty row, [ValueError] from [int] or from the
    conversion). *)
Definition clean_candle (c : candle) : option candle :=
  match c with
  | [] => None
  | ts :: fields => date_str ← date_str_of ts; Some (date_str :: fields)
  end.

Fixpoint clean_loop (raw_candles cleaned_candles : list candle)
  : option (list candle) :=
  match raw_candles with
  | [] => Some cleaned_candles
  | c :: rest =>
      c' ← clean_candle c;
      clean_loop rest (cleaned_candles ++ [c'])
  end.

(** [response] is what [session.get_kline] gives:
    [None] when it raises, else the list
    [response.get("result", {}).get("list", [])].  The result [None]
    is the [return None] of both failure paths. *)
Definition fetch_market_data (response : option (list candle))
  : option (list candle) :=
  match response with
  | None => None
  | Some raw_candles =>
      match raw_candles with
      | [] => None
      | _ => clean_loop (rev raw_candles) []
      end
  end.

End Harvester.

(** ** Block 3: the brain ([analyze_market_data]) *)

(** The values stored in [stats]: floats (and the integer [0], equal to
    the float [0.0]) and date strings. *)
Inductive pyval :=
  | VNum (q : Q)
  | VStr (s : string).

(** The four containers filled by the grand loop. *)
Record containers := {
  pump_data : list (Q * string);
  dump_data : list (Q * string);
  log_returns : list Q;
  tr_list : list Q
}.

Definition initial_containers : containers :=
  {| pump_data := []; dump_data := []; log_returns := []; tr_list := [] |}.

(** [float(candle[k])] when it is a number, by its value: [None] when
    the field is missing ([IndexError]), when [float] rejects it
    ([ValueError]) and when it is read as [inf] or [nan]. *)
Definition float_field (c : candle) (k : nat) : option Q :=
  s ← c !! k; x ← py_float s; finite_value x.

(** [float] accepts the field [k] of a candle, as a number or as [inf]
    or [nan]. *)
Definition float_accepts (c : candle) (k : nat) : bool :=
  match c !! k with
  | Some s => bool_decide (is_Some (py_float s))
  | None => false
  end.

(** No read of the grand loop raises on the candle: the date is there
    and [float] accepts the four prices. *)
Definition readable (c : candle) : bool :=
  bool_decide (is_Some (c !! 0%nat))
  && forallb (float_accepts c) [1; 2; 3; 4]%nat.

(** What the result of the analysis can be: an exception, the
    [return None] of the safety check, or the dictionary [stats].  The
    arithmetic of the analysis is modelled on numbers only: [NonFinite]
    stands for a run in which every field is read and one of them is
    [inf] or [nan], about which nothing is said. *)
Inductive analysis :=
  | Raises
  | NotEnoughData
  | NonFinite
  | Stats (stats : gmap string pyval).

(** [get_p]: the closure over the sorted pump values [pv] and their
    number [n]. *)
Definition get_p (pv : list Q) (n : nat) (percent : Q) : option Q :=
  if (0 <? n)%nat
  then py_index pv (py_trunc (inject_Z (Z.of_nat n) * percent))
  else Some 0%Q.

(** The ranks at which [get_p] is called. *)
Definition ranks : list Q := [75 # 100; 80 # 100; 85 # 100; 90 # 100;
                              95 # 100; 99 # 100]%Q.

Section Brain.

Context `{MathLib}.

(** The body of the grand loop at index [i]. *)
Definition loop_body (candles : list candle) (i : nat) (c : candle)
    (st : containers) : option containers :=
  date_str ← c !! 0%nat;
  curr_open ← float_field c 1;
  curr_high ← float_field c 2;
  curr_low ← float_field c 3;
  curr_close ← float_field c 4;
  let st1 :=
    if Qltb 0 curr_open then
      let pump := ((curr_high - curr_open) / curr_open)%Q in
      let dump := ((curr_low - curr_open) / curr_open)%Q in
      {| pump_data := pump_data st ++ [(pump, date_str)];
         dump_data := dump_data st ++ [(dump, date_str)];
         log_returns := log_returns st;
         tr_list := tr_list st |}
    else st in
  if (0 <? i)%nat then
    prev ← candles !! (i - 1)%nat;
    prev_close ← float_field prev 4;
    let lr :=
      if Qltb 0 prev_close && Qltb 0 curr_close
      then log_returns st1 ++ [math_log (curr_close / prev_close)%Q]
      else log_returns st1 in
    let raw_hl := (curr_high - curr_low)%Q in
    let raw_h_pc := Qabs (curr_high - prev_close) in
    let raw_l_pc := Qabs (curr_low - prev_close) in
    let true_range := py_max3 raw_hl raw_h_pc raw_l_pc in
    Some {| pump_data := pump_data st1;
            dump_data := dump_data st1;
            log_returns := lr;
            tr_list := tr_list st1 ++ [true_range] |}
  else Some st1.

(** [for i, candle in enumerate(candles)], from index [i] on. *)
Fixpoint grand_loop_from (candles : list candle) (i : nat)
    (rest : list candle) (st : containers) : option containers :=
  match rest with
  | [] => Some st
  | c :: rest' =>
      st' ← loop_body candles i c st;
      grand_loop_from candles (S i) rest' st'
  end.

Definition grand_loop (candles : list candle) : option containers :=
  grand_loop_from candles 0 candles initial_containers.

(** Section A: volatility of the log returns. *)
Definition volatility_section (lrs : list Q) (stats : gmap string pyval)
  : option (gmap string pyval) :=
  stats ←
    (if (1 <? length lrs)%nat then
       stdev_log ← statistics_stdev lrs;
       Some (<["vol_week" := VNum (stdev_log * math_sqrt 7)%Q]>
               (<["vol_day" := VNum stdev_log]> stats))
     else
       Some (<["vol_week" := VNum 0]> (<["vol_day" := VNum 0]> stats)));
  max_log ← (match lrs with [] => Some 0%Q | _ => py_max_by id lrs end);
  min_log ← (match lrs with [] => Some 0%Q | _ => py_min_by id lrs end);
  Some (<["max_daily_crash" := VNum (math_exp min_log - 1)%Q]>
          (<["max_daily_surge" := VNum (math_exp max_log - 1)%Q]> stats)).

(** Section B: one of the two intraday extremes, [pick] being [max] for
    the pumps and [min] for the dumps. *)
Definition extreme_section
    (pick : list (Q * string) → option (Q * string))
    (k_val k_date k_avg k_std : string) (data : list (Q * string))
    (stats : gmap string pyval) : option (gmap string pyval) :=
  match data with
  | [] =>
      Some (<[k_std := VNum 0]>
              (<[k_avg := VNum 0]>
                 (<[k_date := VStr "N/A"]> (<[k_val := VNum 0]> stats))))
  | _ =>
      best ← pick data;
      let values := map fst data in
      avg ← statistics_mean values;
      std ← (if (1 <? length values)%nat then statistics_stdev values
             else Some 0%Q);
      Some (<[k_std := VNum std]>
              (<[k_avg := VNum avg]>
                 (<[k_date := VStr (snd best)]>
                    (<[k_val := VNum (fst best)]> stats))))
  end.

(** Section C: the average true range over the last 14 and 28 values. *)
Definition atr_section (candles : list candle) (trs : list Q)
    (stats : gmap string pyval) : option (gmap string pyval) :=
  last_candle ← py_index candles (-1);
  current_close ← float_field last_candle 4;
  stats ←
    (if (14 <=? length trs)%nat then
       atr_14 ← statistics_mean (py_slice_last 14 trs);
       Some (<["atr_14" := VNum atr_14]> stats)
     else Some (<["atr_14" := VNum 0]> stats));
  if (28 <=? length trs)%nat then
    atr_28 ← statistics_mean (py_slice_last 28 trs);
    Some (<["atr_relative" :=
              VNum (if Qltb 0 current_close
                    then (atr_28 / current_close)%Q else 0%Q)]>
            (<["atr_28" := VNum atr_28]> stats))
  else
    Some (<["atr_relative" := VNum 0]> (<["atr_28" := VNum 0]> stats)).

Definition percentile_keys : list string :=
  ["p75_pump"; "p80_pump"; "p85_pump"; "p90_pump"; "p95_pump"; "p99_pump"].

(** Section D: the percentiles of the pumps. *)
Definition percentile_section (pumps : list (Q * string))
    (stats : gmap string pyval) : option (gmap string pyval) :=
  match pumps with
  | [] =>
      Some (fold_left (λ st k, <[k := VNum 0]> st) percentile_keys stats)
  | _ =>
      let pv := py_sorted id (map fst pumps) in
      let n := length pv in
      p75 ← get_p pv n (75 # 100);
      p80 ← get_p pv n (80 # 100);
      p85 ← get_p pv n (85 # 100);
      p90 ← get_p pv n (90 # 100);
      p95 ← get_p pv n (95 # 100);
      p99 ← get_p pv n (99 # 100);
      Some (<["p99_pump" := VNum p99]>
              (<["p95_pump" := VNum p95]>
                 (<["p90_pump" := VNum p90]>
                    (<["p85_pump" := VNum p85]>
                       (<["p80_pump" := VNum p80]>
                          (<["p75_pump" := VNum p75]> stats))))))
  end.

(** Step 4: compiling the dictionary [stats]. *)
Definition compile_stats (candles : list candle) (st : containers)
  : option (gmap string pyval) :=
  stats ← volatility_section (log_returns st) ∅;
  stats ← extreme_section (py_max_by fst)
            "max_pump_val" "max_pump_date" "avg_pump" "std_pump"
            (pump_data st) stats;
  stats ← extreme_section (py_min_by fst)
            "max_dump_val" "max_dump_date" "avg_dump" "std_dump"
            (dump_data st) stats;
  stats ← atr_section candles (tr_list st) stats;
  percentile_section (pump_data st) stats.

Definition analyze_market_data (candles : list candle) : analysis :=
  if bool_decide (candles = []) || (length candles <? 30)%nat
  then NotEnoughData
  else
    match grand_loop candles with
    | None =>
        (* The loop stopped at a field that is not a number.  When a
           field is missing or rejected by [float] the code raises, at
           that field or before it: a price read as [inf] or [nan]
           before it does not keep the loop from reaching it. *)
        if forallb readable candles then NonFinite else Raises
    | Some st =>
        match compile_stats candles st with
        | None => Raises
        | Some stats => Stats stats
        end
    end.

End Brain.


(** A candle whose five leading fields are present, the four prices
    being read by [float] as numbers. *)
Definition parseable (c : candle) : Prop :=
  is_Some (c !! 0%nat) ∧ is_Some (float_field c 1)
  ∧ is_Some (float_field c 2) ∧ is_Some (float_field c 3)
  ∧ is_Some (float_field c 4).

(** A candle on which a read of the grand loop raises: the date is
    missing ([IndexError]), or one of the four prices is missing or is
    rejected by [float] ([ValueError]). *)
Definition rejected (c : candle) : Prop :=
  c !! 0%nat = None
  ∨ ∃ k, (1 <= k <= 4)%nat ∧ (c !! k ≫= py_float) = None.


(** A rational stand-in for the [math] functions, to evaluate the
    analysis on concrete series: a few terms of the series (Newton's
    iteration for the root), every intermediate value cut to twelve
    decimals. *)
Definition cut12 (q : Q) : Q :=
  Qred (Qmake (Qfloor (q * inject_Z (10 ^ 12))) (Z.to_pos (10 ^ 12))).

Fixpoint newton_sqrt (n : nat) (a x : Q) : Q :=
  match n with
  | O => x
  | S n' => newton_sqrt n' a (cut12 ((x + a / x) / 2))
  end.

Fixpoint exp_series (n : nat) (x term acc : Q) (k : Z) : Q :=
  match n with
  | O => acc
  | S n' =>
      let term' := cut12 (term * x / inject_Z k) in
      exp_series n' x term' (cut12 (acc + term')) (k + 1)
  end.

Fixpoint atanh_series (n : nat) (y2 power acc : Q) (k : Z) : Q :=
  match n with
  | O => acc
  | S n' =>
      atanh_series n' y2 (cut12 (power * y2))
        (cut12 (acc + power / inject_Z k)) (k + 2)
  end.

Definition rational_math : MathLib := {|
  math_log x :=
    if Qltb 0 x then
      let y := cut12 ((x - 1) / (x + 1)) in
      (2 * atanh_series 8 (cut12 (y * y)) y 0 1)%Q
    else 0%Q;
  math_exp x := exp_series 10 (cut12 x) 1 1 1;
  math_sqrt x :=
    if Qltb 0 x then newton_sqrt 8 (cut12 x) (cut12 ((x + 1) / 2)) else 0%Q
|}.

(** ** The funding scanner ([add_func.py]) *)

(** A ticker of the snapshot: [t["symbol"]] is read as a mandatory key,
    [t.get("fundingRate", "")] as an optional one. *)
Record ticker := {
  symbol : string;
  fundingRate : option string
}.

(** What [requests.get(BYBIT_TICKERS_URL, ...)] and the decoding give:
    an exception, or a body with its [retCode] (absent: [KeyError]) and
    its [result.list] (absent: the default [[]]). *)
Inductive tickers_reply :=
  | RequestRaises
  | Body (retCode : option Z) (result_list : option (list ticker)).

Definition get_funding_data (reply : tickers_reply) : list ticker :=
  match reply with
  | RequestRaises => []
  | Body None _ => []
  | Body (Some code) l => if bool_decide (code ≠ 0) then [] else default [] l
  end.

Definition fetch_error_message : string :=
  "⚠️ Error: Could not fetch funding data.".

Definition no_negative_message : string :=
  "ℹ️ No coins with negative funding rates found.".

Definition top_header : string :=
  "📉 *Top 10 negative funding*" +:+ newline +:+ newline.

Definition alert_header : string :=
  "🚨 *EXTREME FUNDING ALERT* 🚨" +:+ newline +:+ newline.

Definition trade_link (sym : string) : string :=
  "[" +:+ sym +:+ "](https://www.bybit.com/trade/usdt/" +:+ sym +:+ ")".

(** One line of the ranked report:
    [f"{i}. [{symbol}](...{symbol}): {rate*100:.2f}%\n"]. *)
Definition top_line (i : Z) (entry : string * pyfloat) : string :=
  pretty i +:+ ". " +:+ trade_link (fst entry) +:+ ": "
    +:+ format_float 2 (float_mul (snd entry) (Finite 100))
    +:+ "%" +:+ newline.

(** One line of the alert: [f"[{symbol}](...{symbol}): {rate*100:.4f}%\n"]. *)
Definition alert_line (entry : string * pyfloat) : string :=
  trade_link (fst entry) +:+ ": "
    +:+ format_float 4 (float_mul (snd entry) (Finite 100))
    +:+ "%" +:+ newline.

(** The body of the filtering loop, [keep] being the test on the parsed
    rate: a missing or empty field and a field that [float] rejects
    leave the list as it is. *)
Definition filter_step (keep : pyfloat → bool)
    (acc : list (string * pyfloat)) (t : ticker)
  : list (string * pyfloat) :=
  let fr_str := default "" (fundingRate t) in
  if bool_decide (fr_str = "") then acc
  else
    match py_float fr_str with
    | Some fr => if keep fr then acc ++ [(symbol t, fr)] else acc
    | None => acc
    end.

(** [enumerate(l, start)]. *)
Fixpoint enumerate {A} (start : Z) (l : list A) : list (Z * A) :=
  match l with
  | [] => []
  | x :: r => (start, x) :: enumerate (start + 1) r
  end.

Definition get_top_funding_rates (reply : tickers_reply) (limit : Z)
  : string :=
  let tickers := get_funding_data reply in
  match tickers with
  | [] => fetch_error_message
  | _ =>
      let valid_tickers :=
        fold_left (filter_step (λ fr, float_ltb fr (Finite 0))) tickers [] in
      let valid_tickers := list_sort snd valid_tickers in
      let top_tickers := py_slice_to limit valid_tickers in
      match top_tickers with
      | [] => no_negative_message
      | _ =>
          fold_left (λ report ie, report +:+ top_line (fst ie) (snd ie))
                    (enumerate 1 top_tickers) top_header
      end
  end.

Definition check_extreme_funding (reply : tickers_reply)
    (threshold : pyfloat) : option string :=
  let tickers := get_funding_data reply in
  match tickers with
  | [] => None
  | _ =>
      let extreme_tickers :=
        fold_left (filter_step (λ fr, float_leb fr threshold)) tickers [] in
      match extreme_tickers with
      | [] => None
      | _ =>
          let extreme_tickers := list_sort snd extreme_tickers in
          Some (fold_left (λ report e, report +:+ alert_line e)
                          extreme_tickers alert_header)
      end
  end.

(** The successful reply that delivers a given snapshot. *)
Definition snapshot (tickers : list ticker) : tickers_reply :=
  Body (Some 0) (Some tickers).

(** The parsed rate of a quote, when its field is present and [float]
    accepts it. *)
Definition rate_of (t : ticker) : option pyfloat :=
  fundingRate t ≫= py_float.

(** The float [-0.015], the default threshold of the alert. *)
Definition default_threshold : pyfloat := round64 (-15 # 1000).

(** The quotes of a snapshot that pass a test on their rate, with their
    rate, in the order of the snapshot. *)
Definition quotes_where (keep : pyfloat → bool) (tickers : list ticker)
  : list (string * pyfloat) :=
  omap (λ t, fr ← rate_of t; if keep fr then Some (symbol t, fr) else None)
       tickers.

Definition example_snapshot : list ticker :=
  [ {| symbol := "BTCUSDT"; fundingRate := Some "-0.02" |};
    {| symbol := "ETHUSDT"; fundingRate := Some "0.01" |};
    {| symbol := "XXXUSDT"; fundingRate := Some "-0.05" |} ].

(** ** Vocabulary of the statements *)

(** Ascending order of the keys. *)
Definition key_le {A} (key : A → Q) (x y : A) : Prop := (key x <= key y)%Q.

(** [x] is the greatest of [a], [b] and [c]. *)
Definition greatest_of (x a b c : Q) : Prop :=
  (x = a ∨ x = b ∨ x = c) ∧ (a <= x)%Q ∧ (b <= x)%Q ∧ (c <= x)%Q.

(** Ascending order of float keys. *)
Definition rate_le {A} (key : A → pyfloat) (x y : A) : Prop :=
  float_leb (key x) (key y) = true.

(** [x == y] on floats. *)
Definition float_eqb (x y : pyfloat) : bool :=
  float_leb x y && float_leb y x.

(** [s'] is [s] with exactly the keys [ks] written. *)
Definition writes (ks : list string) (s s' : gmap string pyval) : Prop :=
  dom s' = list_to_set ks ∪ dom s ∧ ∀ k, k ∉ ks → s' !! k = s !! k.

(** A series of thirty daily candles, alternating two shapes. *)
Definition example_series : list candle :=
  concat (replicate 15
    [ ["2024-01-01"; "100"; "105"; "95"; "102"; "1000"; "100000"];
      ["2024-01-02"; "102"; "110"; "101"; "108"; "1200"; "120000"] ]).


Definition btc_item : instrument := {| inst_symbol := Some "BTCUSDT" |}.
Definition eth_item : instrument := {| inst_symbol := Some "ETHUSDT" |}.

(** An exchange that lists BTCUSDT on the second page of "linear" and on
    the single page of "spot", and whose "inverse" listing fails. *)
Definition example_exchange : exchange := λ category cursor,
  if bool_decide (category = "linear") then
    if bool_decide (cursor = "") then
      Some {| instruments := [eth_item]; nextPageCursor := "page2" |}
    else if bool_decide (cursor = "page2") then
      Some {| instruments := [btc_item]; nextPageCursor := "" |}
    else None
  else if bool_decide (category = "spot") then
    if bool_decide (cursor = "") then
      Some {| instruments := [btc_item; eth_item]; nextPageCursor := "" |}
    else None
  else None.

(** An exchange whose "linear" listing is out of reach, while "spot"
    lists the symbol. *)
Definition outage_exchange : exchange := λ category cursor,
  if bool_decide (category = "spot") then
    Some {| instruments := [btc_item]; nextPageCursor := "" |}
  else None.

(** A raw row whose first field is a decimal epoch-millisecond time
    stamp that [fromtimestamp] accepts. *)
Definition timestamped (utcoffset : Z → Z) (c : candle) : Prop :=
  ∃ ts fields ms date,
    c = ts :: fields ∧ py_int ts = Some ms
    ∧ fromtimestamp_date utcoffset ms = Some date.

(** Local time is UTC. *)
Definition utc : Z → Z := λ _, 0.

Definition example_rows : list candle :=
  [ ["1704153600000"; "42500.5"; "43000"; "42000"; "42800"; "1200"; "51000000"];
    ["1704067200000"; "42000"; "42600"; "41900"; "42500.5"; "1000"; "42000000"] ].

Definition bad_rows : list candle :=
  [ ["1704153600000"; "42500.5"; "43000"; "42000"; "42800"; "1200"; "51000000"];
    ["2024-01-01T00:00"; "42000"; "42600"; "41900"; "42500.5"; "1000"; "42000000"] ].

(** The lines of a report, one after the other. *)
Definition render {A} (line : A → string) (l : list A) : string :=
  foldr (λ x r, line x +:+ r) "" l.

(** What the selection of a loop keeps of one quote. *)
Definition kept_of (keep : pyfloat → bool) (t : ticker)
  : option (string * pyfloat) :=
  fr ← rate_of t; if keep fr then Some (symbol t, fr) else None.

Definition top_report_of_example : string :=
  top_header
  +:+ "1. [XXXUSDT](https://www.bybit.com/trade/usdt/XXXUSDT): -5.00%"
  +:+ newline
  +:+ "2. [BTCUSDT](https://www.bybit.com/trade/usdt/BTCUSDT): -2.00%"
  +:+ newline.

Definition alert_of_example : string :=
  alert_header
  +:+ "[XXXUSDT](https://www.bybit.com/trade/usdt/XXXUSDT): -5.0000%"
  +:+ newline
  +:+ "[BTCUSDT](https://www.bybit.com/trade/usdt/BTCUSDT): -2.0000%"
  +:+ newline.

(** A snapshot with rates in unusual notations: a rate that is not a
    decimal fraction of a percent, minus infinity, digits grouped by an
    underscore, [nan], the negative zero, two quotes without a rate that
    [float] reads, and two rates whose product with 100 is rounded to a
    tie of the format. *)
Definition odd_snapshot : list ticker :=
  [ {| symbol := "AAAUSDT"; fundingRate := Some "-0.00025" |};
    {| symbol := "BBBUSDT"; fundingRate := Some "-inf" |};
    {| symbol := "CCCUSDT"; fundingRate := Some "-1_0" |};
    {| symbol := "DDDUSDT"; fundingRate := Some "nan" |};
    {| symbol := "EEEUSDT"; fundingRate := Some "-0.0" |};
    {| symbol := "FFFUSDT"; fundingRate := Some "-0.00005" |};
    {| symbol := "GGGUSDT"; fundingRate := Some "n/a" |};
    {| symbol := "HHHUSDT"; fundingRate := None |};
    {| symbol := "IIIUSDT"; fundingRate := Some "-0.00125" |};
    {| symbol := "JJJUSDT"; fundingRate := Some "-0.0000045" |} ].

Definition top_report_of_odd : string :=
  top_header
  +:+ "1. [BBBUSDT](https://www.bybit.com/trade/usdt/BBBUSDT): -inf%"
  +:+ newline
  +:+ "2. [CCCUSDT](https://www.bybit.com/trade/usdt/CCCUSDT): -1000.00%"
  +:+ newline
  +:+ "3. [IIIUSDT](https://www.bybit.com/trade/usdt/IIIUSDT): -0.12%"
  +:+ newline
  +:+ "4. [AAAUSDT](https://www.bybit.com/trade/usdt/AAAUSDT): -0.03%"
  +:+ newline
  +:+ "5. [FFFUSDT](https://www.bybit.com/trade/usdt/FFFUSDT): -0.01%"
  +:+ newline
  +:+ "6. [JJJUSDT](https://www.bybit.com/trade/usdt/JJJUSDT): -0.00%"
  +:+ newline.

Definition alert_of_odd : string :=
  alert_header
  +:+ "[BBBUSDT](https://www.bybit.com/trade/usdt/BBBUSDT): -inf%"
  +:+ newline
  +:+ "[CCCUSDT](https://www.bybit.com/trade/usdt/CCCUSDT): -1000.0000%"
  +:+ newline.

Definition alert_of_odd_at_zero : string :=
  alert_header
  +:+ "[BBBUSDT](https://www.bybit.com/trade/usdt/BBBUSDT): -inf%"
  +:+ newline
  +:+ "[CCCUSDT](https://www.bybit.com/trade/usdt/CCCUSDT): -1000.0000%"
  +:+ newline
  +:+ "[IIIUSDT](https://www.bybit.com/trade/usdt/IIIUSDT): -0.1250%"
  +:+ newline
  +:+ "[AAAUSDT](https://www.bybit.com/trade/usdt/AAAUSDT): -0.0250%"
  +:+ newline
  +:+ "[FFFUSDT](https://www.bybit.com/trade/usdt/FFFUSDT): -0.0050%"
  +:+ newline
  +:+ "[JJJUSDT](https://www.bybit.com/trade/usdt/JJJUSDT): -0.0004%"
  +:+ newline
  +:+ "[EEEUSDT](https://www.bybit.com/trade/usdt/EEEUSDT): -0.0000%"
  +:+ newline.

(** Three rows as delivered, the middle one with a first field that is
    not a number. *)
Definition rows_with_gap : list candle :=
  [ ["1704240000000"; "42800"; "43100"; "42700"; "43000"; "900"; "38000000"];
    ["n/a"; "42500.5"; "43000"; "42000"; "42800"; "1200"; "51000000"];
    ["1704067200000"; "42000"; "42600"; "41900"; "42500.5"; "1000"; "42000000"] ].

(** A snapshot with a quote whose rate is not a number and one that has
    no rate. *)
Definition snapshot_with_gaps : list ticker :=
  [ {| symbol := "BTCUSDT"; fundingRate := Some "-0.02" |};
    {| symbol := "BADUSDT"; fundingRate := Some "n/a" |};
    {| symbol := "NEWUSDT"; fundingRate := None |};
    {| symbol := "XXXUSDT"; fundingRate := Some "-0.05" |} ].





(** Thirty candles, the last one with a close that is not a number. *)
Definition broken_series : list candle :=
  replicate 29 ["2024-01-01"; "100"; "105"; "95"; "102"; "1000"; "100000"]
  ++ [ ["2024-01-30"; "100"; "105"; "95"; "n/a"; "1000"; "100000"] ].

(** The intraday move of a candle from its open to the field [k] (2 for
    the high, 3 for the low), with its date; nothing when the open is
    not positive. *)
Definition intraday (k : nat) (c : candle) : option (Q * string) :=
  date_str ← c !! 0%nat;
  curr_open ← float_field c 1;
  x ← float_field c k;
  if Qltb 0 curr_open
  then Some (((x - curr_open) / curr_open)%Q, date_str) else None.

(** A snapshot in which two quotes have the same rate. *)
Definition tied_snapshot : list ticker :=
  [ {| symbol := "AAAUSDT"; fundingRate := Some "-0.01" |};
    {| symbol := "BBBUSDT"; fundingRate := Some "-0.03" |};
    {| symbol := "CCCUSDT"; fundingRate := Some "-0.010" |};
    {| symbol := "DDDUSDT"; fundingRate := Some "0.02" |} ].

(** [s.endswith(suffix)]. *)
Definition endswith (s suffix : string) : bool :=
  bool_decide (list_ascii_of_string suffix `suffix_of` list_ascii_of_string s).

(** The symbol looked up for a text that is already stripped and in
    upper case: the quote currency is appended unless it is there. *)
Definition target_symbol (user_text : string) : string :=
  if negb (endswith user_text "USDT") then user_text +:+ "USDT"
  else user_text.

(** A job of the job queue, as created by [run_repeating]. *)
Record job := {
  job_name : string;
  job_chat_id : Z;
  job_interval : Z;
  job_first : Z
}.

(** [int(os.getenv("SCAN_INTERVAL", 1200))]: the variable of the
    environment when it is set, [None] being the [ValueError] of a value
    that is not an integer. *)
Definition scan_interval (env : option string) : option Z :=
  match env with
  | None => Some 1200
  | Some s => py_int s
  end.

(** [job_queue.get_jobs_by_name(name)]. *)
Definition get_jobs_by_name (name : string) (jobs : list job) : list job :=
  filter (λ j, job_name j = name) jobs.

(** [start_scanning_job]: the job queue of the context ([None] when the
    application has none) after the call.  [accepts] tells which
    intervals [run_repeating] takes; an exception inside the [try] (from
    [int] or from [run_repeating]) leaves the queue as it is. *)
Definition start_scanning_job (accepts : Z → bool) (env : option string)
    (job_queue : option (list job)) (chat_id : Z) : option (list job) :=
  match job_queue with
  | None => None
  | Some jobs =>
      match get_jobs_by_name (pretty chat_id) jobs with
      | [] =>
          match scan_interval env with
          | Some interval =>
              if accepts interval then
                Some (jobs ++ [ {| job_name := pretty chat_id;
                                   job_chat_id := chat_id;
                                   job_interval := interval;
                                   job_first := 10 |} ])
              else Some jobs
          | None => Some jobs
          end
      | _ => Some jobs
      end
  end.

(** The interval of the environment is an integer that [run_repeating]
    takes. *)
Definition interval_ok (accepts : Z → bool) (env : option string) : Prop :=
  ∃ interval, scan_interval env = Some interval ∧ accepts interval = true.

(** The pieces of the report of [handle_message], an f-string: literal
    text, a line break, and the replacement fields
    [{stats[k]*100:.2f}], [{stats[k]:.6f}], [{stats[k]}],
    [{target_symbol}] and [{len(candles)}]. *)
Inductive piece :=
  | Text (s : string)
  | Newline
  | Percent (k : string)
  | Fixed6 (k : string)
  | Field (k : string)
  | Symbol
  | Count.

Definition report_template : list piece :=
  [ Text "📊 **";
    Symbol;
    Text " based on ";
    Count;
    Text " candles**";
    Newline;
    Newline;
    Text "📝 **DAILY STATS (close to close)**";
    Newline;
    Text "Volatility (Day): ";
    Percent "vol_day";
    Text "%";
    Newline;
    Text "Volatility (Week): ";
    Percent "vol_week";
    Text "%";
    Newline;
    Text "Max daily surge: ";
    Percent "max_daily_surge";
    Text "%";
    Newline;
    Text "Max daily crash: ";
    Percent "max_daily_crash";
    Text "%";
    Newline;
    Newline;
    Text "⬆️ **INTRADAY PUMP EXTREMES**";
    Newline;
    Text "=> open / high";
    Newline;
    Text "Biggest Pump: ";
    Percent "max_pump_val";
    Text "% on ";
    Field "max_pump_date";
    Newline;
    Text "Average Pump: ";
    Percent "avg_pump";
    Text "%";
    Newline;
    Text "Pump Deviation (Std): ";
    Percent "std_pump";
    Text "%";
    Newline;
    Newline;
    Text "⬇️ **INTRADAY DUMP EXTREMES**";
    Newline;
    Text "=> open / low";
    Newline;
    Text "Worst Dump: ";
    Percent "max_dump_val";
    Text "% on ";
    Field "max_dump_date";
    Newline;
    Text "Average Dump: ";
    Percent "avg_dump";
    Text "%";
    Newline;
    Text "Dump Deviation (Std): ";
    Percent "std_dump";
    Text "%";
    Newline;
    Newline;
    Text "📏 **ATR (Average True Range)**";
    Newline;
    Text "ATR 14: ";
    Fixed6 "atr_14";
    Newline;
    Text "ATR 28: ";
    Fixed6 "atr_28";
    Newline;
    Text "ATR 28 to close: ";
    Percent "atr_relative";
    Text "%";
    Newline;
    Newline;
    Text "📈 **MARTINGALE BASED ON PERCENTILES**";
    Newline;
    Text "1st DCA (75%): ";
    Percent "p75_pump";
    Text "%";
    Newline;
    Text "2nd DCA (80%): ";
    Percent "p80_pump";
    Text "%";
    Newline;
    Text "3rd DCA (85%): ";
    Percent "p85_pump";
    Text "%";
    Newline;
    Text "4th DCA (90%): ";
    Percent "p90_pump";
    Text "%";
    Newline;
    Text "5th DCA (95%): ";
    Percent "p95_pump";
    Text "%";
    Newline;
    Text "6th DCA (99%): ";
    Percent "p99_pump";
    Text "%";
    Newline ].

Definition stats_error_message : string :=
  "⚠️ Error: Could not calculate stats. Not enough data?".

Section Report.

(** [str] of a float, for a replacement field without a format. *)
Variable py_str_float : Q → string.

(** The text of one piece: [None] is the [KeyError] of a missing key or
    the [ValueError] of the format [f] on a string. *)
Definition render_piece (target : string) (n_candles : nat)
    (stats : gmap string pyval) (p : piece) : option string :=
  match p with
  | Text s => Some s
  | Newline => Some newline
  | Percent k =>
      match stats !! k with
      | Some (VNum q) => Some (format_fixed 2 (q * 100))
      | _ => None
      end
  | Fixed6 k =>
      match stats !! k with
      | Some (VNum q) => Some (format_fixed 6 q)
      | _ => None
      end
  | Field k =>
      match stats !! k with
      | Some (VStr s) => Some s
      | Some (VNum q) => Some (py_str_float q)
      | None => None
      end
  | Symbol => Some target
  | Count => Some (pretty n_candles)
  end.

Definition render_report (target : string) (n_candles : nat)
    (stats : gmap string pyval) : option string :=
  texts ← mapM (render_piece target n_candles stats) report_template;
  Some (foldr String.append "" texts).

(** The report sent for a result of the analysis: [None] when the
    handler raises, and for a run of the analysis that is not modelled. *)
Definition report_of (target : string) (n_candles : nat)
    (result : analysis) : option string :=
  match result with
  | Raises | NonFinite => None
  | NotEnoughData => Some stats_error_message
  | Stats stats =>
      if bool_decide (stats = ∅) then Some stats_error_message
      else render_report target n_candles stats
  end.

End Report.

(** The key holds a number, the key holds a string. *)
Definition numeric_at (s : gmap string pyval) (k : string) : Prop :=
  ∃ q, s !! k = Some (VNum q).

Definition text_at (s : gmap string pyval) (k : string) : Prop :=
  ∃ x, s !! k = Some (VStr x).

(** What a piece needs from the dictionary. *)
Definition piece_ready (stats : gmap string pyval) (p : piece) : Prop :=
  match p with
  | Percent k | Fixed6 k => numeric_at stats k
  | Field k => is_Some (stats !! k)
  | _ => True
  end.



(** * Verification *)

(** ** Facts about the builtins *)

Lemma Qltb_lt x y : Qltb x y = true ↔ (x < y)%Q.
Proof.
  unfold Qltb. rewrite negb_true_iff. split.
  - intros Hb. apply Qnot_le_lt. intros Hle.
    apply Qle_bool_iff in Hle. congruence.
  - intros Hlt. destruct (Qle_bool y x) eqn:E; [|done].
    apply Qle_bool_iff in E. exfalso. by apply (Qlt_not_le x y).
Qed.

Lemma Qltb_ge x y : Qltb x y = false ↔ (y <= x)%Q.
Proof.
  unfold Qltb. rewrite negb_false_iff. apply Qle_bool_iff.
Qed.

Lemma statistics_mean_is_Some l : l ≠ [] → is_Some (statistics_mean l).
Proof. destruct l; [done|]. by eexists. Qed.

Lemma statistics_stdev_is_Some `{MathLib} l :
  (1 < length l)%nat → is_Some (statistics_stdev l).
Proof.
  destruct l as [|x [|y l]]; simpl; [lia|lia|]. by eexists.
Qed.

Lemma py_max_by_is_Some {A} (key : A → Q) l : l ≠ [] → is_Some (py_max_by key l).
Proof. destruct l; [done|]. by eexists. Qed.

Lemma py_min_by_is_Some {A} (key : A → Q) l : l ≠ [] → is_Some (py_min_by key l).
Proof. destruct l; [done|]. by eexists. Qed.

Lemma py_index_last_is_Some {A} (l : list A) : l ≠ [] → is_Some (py_index l (-1)).
Proof.
  intros Hl. unfold py_index. simpl.
  assert (0 < length l)%nat by (destruct l; [done|simpl; lia]).
  destruct (Z.leb_spec 0 (Z.of_nat (length l) + -1)); [|lia].
  apply lookup_lt_is_Some. lia.
Qed.

Lemma py_index_last {A} (l : list A) : py_index l (-1) = last l.
Proof.
  unfold py_index. simpl. destruct l as [|x l] using rev_ind; [done|].
  rewrite length_app. simpl.
  destruct (Z.leb_spec 0 (Z.of_nat (length l + 1) + -1)); [|lia].
  rewrite last_snoc.
  apply list_lookup_middle. lia.
Qed.

Lemma length_py_slice_last {A} k (l : list A) :
  (k <= length l)%nat → length (py_slice_last k l) = k.
Proof. intros. unfold py_slice_last. rewrite length_drop. lia. Qed.

(** ** The grand loop *)

Section BrainFacts.
Context `{MathLib}.

Lemma loop_body_tr_length candles i c st st' :
  loop_body candles i c st = Some st' →
  length (tr_list st') =
    (length (tr_list st) + (if (0 <? i)%nat then 1 else 0))%nat.
Proof.
  unfold loop_body. intros Hb.
  destruct (c !! 0%nat); simpl in Hb; [|done].
  destruct (float_field c 1) as [o|]; simpl in Hb; [|done].
  destruct (float_field c 2); simpl in Hb; [|done].
  destruct (float_field c 3); simpl in Hb; [|done].
  destruct (float_field c 4); simpl in Hb; [|done].
  destruct (0 <? i)%nat.
  - destruct (candles !! (i - 1)%nat); simpl in Hb; [|done].
    destruct (float_field _ 4); simpl in Hb; [|done].
    inversion Hb; subst; clear Hb. simpl.
    rewrite length_app. simpl. by destruct (Qltb 0 o).
  - inversion Hb; subst; clear Hb. destruct (Qltb 0 o); simpl; lia.
Qed.


Lemma loop_body_is_Some candles i c st :
  parseable c →
  (i = 0%nat ∨ ∃ prev, candles !! (i - 1)%nat = Some prev ∧ parseable prev) →
  is_Some (loop_body candles i c st).
Proof.
  intros ([d Hd] & [o Ho] & [h Hh] & [l Hl] & [cl Hcl]) Hprev.
  unfold loop_body. rewrite Hd, Ho, Hh, Hl, Hcl. simpl.
  destruct (Nat.ltb_spec 0 i) as [Hi|Hi].
  - destruct Hprev as [->|(prev & Hp & (_ & _ & _ & _ & [pc Hpc]))]; [lia|].
    rewrite Hp. simpl. rewrite Hpc. simpl. by eexists.
  - by eexists.
Qed.

Lemma grand_loop_from_tr_length candles rest : ∀ i st st',
  grand_loop_from candles i rest st = Some st' →
  length (tr_list st') =
    (length (tr_list st) + length rest
     - (if (0 <? i)%nat then 0 else if rest is [] then 0 else 1))%nat.
Proof.
  induction rest as [|c rest IH]; intros i st st' Hl; simpl in Hl.
  - inversion Hl; subst. simpl. destruct (0 <? i)%nat; lia.
  - destruct (loop_body candles i c st) as [st1|] eqn:Hb; simpl in Hl; [|done].
    apply loop_body_tr_length in Hb. apply IH in Hl.
    rewrite Hl, Hb. simpl. destruct (Nat.ltb_spec 0 i); lia.
Qed.


Lemma grand_loop_from_is_Some candles rest : ∀ done i st,
  candles = done ++ rest → i = length done →
  Forall parseable candles →
  is_Some (grand_loop_from candles i rest st).
Proof.
  induction rest as [|c rest IH]; intros done i st Hc Hi Hall; simpl.
  - by eexists.
  - destruct (loop_body_is_Some candles i c st) as [st1 Hb].
    + rewrite Forall_forall in Hall. apply Hall. subst. set_solver.
    + destruct done as [|p done] using rev_ind; [by left|right].
      exists p. subst. rewrite length_app. simpl. split.
      * rewrite <- !app_assoc. apply list_lookup_middle. lia.
      * rewrite Forall_forall in Hall. apply Hall. set_solver.
    + rewrite Hb. simpl. apply (IH (done ++ [c])).
      * by rewrite <- app_assoc.
      * rewrite length_app. simpl. lia.
      * done.
Qed.

Lemma grand_loop_tr_length candles st :
  grand_loop candles = Some st →
  length (tr_list st) = (length candles - 1)%nat.
Proof.
  intros Hl. apply grand_loop_from_tr_length in Hl. rewrite Hl. simpl.
  destruct candles; simpl; lia.
Qed.

Lemma grand_loop_is_Some candles :
  Forall parseable candles → is_Some (grand_loop candles).
Proof. intros. by apply (grand_loop_from_is_Some candles candles []). Qed.

End BrainFacts.

(** ** Compiling the dictionary *)

Lemma writes_trans ks1 ks2 s1 s2 s3 :
  writes ks1 s1 s2 → writes ks2 s2 s3 → writes (ks1 ++ ks2) s1 s3.
Proof.
  intros [Hd1 Hf1] [Hd2 Hf2]. split.
  - rewrite Hd2, Hd1, list_to_set_app_L. set_solver.
  - intros k Hk. rewrite Hf2, Hf1; set_solver.
Qed.

Ltac writes_inserts :=
  split;
  [ simpl; rewrite ?dom_insert_L; set_solver
  | let k := fresh "k" in let Hk := fresh "Hk" in
    intros k Hk; rewrite ?lookup_insert_ne; [done|set_solver..] ].

(** Case analysis on the first computation of a monadic sequence that
    is known to succeed. *)
Ltac bind_some H :=
  match type of H with
  | mbind _ ?m = Some _ =>
      let E := fresh "E" in
      destruct m eqn:E; [cbn [mbind option_bind] in H | discriminate H]
  end.

Section CompileFacts.
Context `{MathLib}.


Lemma volatility_section_is_Some lrs s : is_Some (volatility_section lrs s).
Proof.
  unfold volatility_section.
  destruct (Nat.ltb_spec 1 (length lrs)) as [Hl|Hl].
  - destruct (statistics_stdev_is_Some lrs Hl) as [sd ->].
    destruct lrs; by eexists.
  - destruct lrs; by eexists.
Qed.

Lemma extreme_section_writes pick kv kd ka ks data s s' :
  extreme_section pick kv kd ka ks data s = Some s' →
  writes [kv; kd; ka; ks] s s'.
Proof.
  unfold extreme_section. intros He.
  destruct data as [|x data].
  - inversion He; subst. writes_inserts.
  - do 3 bind_some He. inversion He; subst. writes_inserts.
Qed.

Lemma extreme_section_is_Some pick kv kd ka ks data s :
  (data ≠ [] → is_Some (pick data)) →
  is_Some (extreme_section pick kv kd ka ks data s).
Proof.
  unfold extreme_section. intros Hp.
  destruct data as [|x data]; [by eexists|].
  destruct Hp as [b ->]; [done|]. cbn [mbind option_bind].
  destruct (statistics_mean_is_Some (map fst (x :: data))) as [avg ->];
    [done|]. cbn [mbind option_bind].
  destruct (Nat.ltb_spec 1 (length (map fst (x :: data)))) as [Hl|Hl].
  - destruct (statistics_stdev_is_Some _ Hl) as [sd ->]. by eexists.
  - by eexists.
Qed.


Lemma atr_section_writes candles trs s s' :
  atr_section candles trs s = Some s' →
  writes ["atr_14"; "atr_28"; "atr_relative"] s s'.
Proof.
  unfold atr_section. intros Ha.
  do 3 bind_some Ha.
  assert (writes ["atr_14"] s g) as W1.
  { destruct (14 <=? length trs)%nat.
    - bind_some E1. inversion E1; subst. writes_inserts.
    - inversion E1; subst. writes_inserts. }
  apply (writes_trans ["atr_14"] ["atr_28"; "atr_relative"] s g s' W1).
  destruct (28 <=? length trs)%nat.
  - bind_some Ha. inversion Ha; subst. writes_inserts.
  - inversion Ha; subst. writes_inserts.
Qed.

(** Under the length check both windows have full support: the
    section takes the two [mean] branches. *)
Lemma atr_section_full candles trs s last_candle current_close :
  py_index candles (-1) = Some last_candle →
  float_field last_candle 4 = Some current_close →
  (28 <= length trs)%nat →
  ∃ atr_14 atr_28,
    statistics_mean (py_slice_last 14 trs) = Some atr_14
    ∧ statistics_mean (py_slice_last 28 trs) = Some atr_28
    ∧ atr_section candles trs s =
        Some (<["atr_relative" :=
                 VNum (if Qltb 0 current_close
                       then (atr_28 / current_close)%Q else 0%Q)]>
                (<["atr_28" := VNum atr_28]>
                   (<["atr_14" := VNum atr_14]> s))).
Proof.
  intros Hl Hc Hlen. unfold atr_section. rewrite Hl. cbn [mbind option_bind].
  rewrite Hc. cbn [mbind option_bind].
  destruct (statistics_mean_is_Some (py_slice_last 14 trs)) as [a14 H14].
  { intros E. apply (f_equal length) in E.
    rewrite length_py_slice_last in E by lia. done. }
  destruct (statistics_mean_is_Some (py_slice_last 28 trs)) as [a28 H28].
  { intros E. apply (f_equal length) in E.
    rewrite length_py_slice_last in E by lia. done. }
  exists a14, a28. split; [done|]. split; [done|].
  destruct (Nat.leb_spec 14 (length trs)); [|lia].
  destruct (Nat.leb_spec 28 (length trs)); [|lia].
  rewrite H14. cbn [mbind option_bind]. by rewrite H28.
Qed.

End CompileFacts.

(** ** Sorting *)

Section Sorting.
Context {A : Type} (key : A → Q).

Lemma insert_by_key_perm x l : insert_by_key key x l ≡ₚ x :: l.
Proof.
  induction l as [|y l IH]; simpl; [done|].
  destruct (Qltb (key y) (key x)); [|done].
  rewrite IH. apply Permutation_swap.
Qed.

Lemma py_sorted_perm l : py_sorted key l ≡ₚ l.
Proof.
  induction l as [|x l IH]; simpl; [done|].
  by rewrite insert_by_key_perm, IH.
Qed.

Lemma length_py_sorted l : length (py_sorted key l) = length l.
Proof. apply Permutation_length, py_sorted_perm. Qed.

Lemma insert_by_key_sorted x l :
  StronglySorted (key_le key) l → StronglySorted (key_le key) (insert_by_key key x l).
Proof.
  induction l as [|y l IH]; simpl; intros Hs.
  - repeat constructor.
  - apply StronglySorted_cons in Hs as [Hy Hs].
    destruct (Qltb (key y) (key x)) eqn:E.
    + apply StronglySorted_cons. split; [|by apply IH].
      rewrite insert_by_key_perm. constructor; [|done].
      apply Qltb_lt in E. by apply Qlt_le_weak.
    + apply Qltb_ge in E.
      apply StronglySorted_cons. split.
      * constructor; [done|].
        eapply Forall_impl; [exact Hy|]. intros z Hz.
        unfold key_le in *. by eapply Qle_trans.
      * by apply StronglySorted_cons.
Qed.

Lemma py_sorted_sorted l : StronglySorted (key_le key) (py_sorted key l).
Proof.
  induction l as [|x l IH]; simpl; [constructor|].
  by apply insert_by_key_sorted.
Qed.

Lemma sorted_lookup_le l i j x y :
  StronglySorted (key_le key) l →
  l !! i = Some x → l !! j = Some y → (i <= j)%nat → key_le key x y.
Proof.
  intros Hs. revert i j.
  induction Hs as [|z l Hs IH Hz]; intros i j Hi Hj Hij; [done|].
  destruct i as [|i], j as [|j]; simpl in *; try lia.
  - inversion Hi; inversion Hj; subst. unfold key_le. apply Qle_refl.
  - inversion Hi; subst. rewrite Forall_forall in Hz. apply Hz.
    by eapply list_elem_of_lookup_2.
  - eapply IH; eauto. lia.
Qed.

(** A stable sort: quotes with the same key keep their order, so a
    list that is already in order is left as it is. *)
Lemma py_sorted_id l : StronglySorted (key_le key) l → py_sorted key l = l.
Proof.
  induction 1 as [|x l Hs IH Hx]; simpl; [done|].
  rewrite IH. destruct l as [|y l]; simpl; [done|].
  inversion Hx; subst.
  destruct (Qltb (key y) (key x)) eqn:E; [|done].
  apply Qltb_lt in E. exfalso. by apply (Qlt_not_le _ _ E).
Qed.

End Sorting.

(** ** The percentile helper *)

Lemma py_trunc_floor x : (0 <= x)%Q → py_trunc x = Qfloor x.
Proof.
  destruct x as [n d]. unfold Qle, py_trunc, Qfloor. simpl. intros Hn.
  apply Z.quot_div_nonneg; lia.
Qed.

Lemma rank_index_bounds (n : nat) (p : Q) :
  (0 < n)%nat → (0 <= p)%Q → (p < 1)%Q →
  0 <= Qfloor (inject_Z (Z.of_nat n) * p) < Z.of_nat n.
Proof.
  intros Hn H0 H1. split.
  - change 0 with (Qfloor 0). apply Qfloor_resp_le.
    apply Qmult_le_0_compat; [|done].
    change 0%Q with (inject_Z 0). rewrite <- Zle_Qle. lia.
  - destruct p as [a b]. unfold Qlt, Qle in *. simpl in *.
    unfold Qfloor, Qmult, inject_Z. simpl.
    apply Z.div_lt_upper_bound; [lia|]. nia.
Qed.

Lemma get_p_lookup pv p :
  pv ≠ [] → (0 <= p)%Q → (p < 1)%Q →
  get_p pv (length pv) p
  = pv !! Z.to_nat (Qfloor (inject_Z (Z.of_nat (length pv)) * p)).
Proof.
  intros Hpv H0 H1.
  assert (0 < length pv)%nat as Hn by (destruct pv; [done|simpl; lia]).
  unfold get_p. destruct (Nat.ltb_spec 0 (length pv)); [|lia].
  rewrite py_trunc_floor.
  - unfold py_index.
    destruct (Z.ltb_spec (Qfloor (inject_Z (Z.of_nat (length pv)) * p)) 0);
      [|done].
    pose proof (rank_index_bounds (length pv) p Hn H0 H1). lia.
  - apply Qmult_le_0_compat; [|done].
    change 0%Q with (inject_Z 0). rewrite <- Zle_Qle. lia.
Qed.

Lemma get_p_is_Some pv p :
  pv ≠ [] → (0 <= p)%Q → (p < 1)%Q → is_Some (get_p pv (length pv) p).
Proof.
  intros Hpv H0 H1. rewrite get_p_lookup by done.
  assert (0 < length pv)%nat as Hn by (destruct pv; [done|simpl; lia]).
  pose proof (rank_index_bounds (length pv) p Hn H0 H1).
  apply lookup_lt_is_Some. lia.
Qed.

Lemma rank_index_mono (n : nat) (p1 p2 : Q) :
  (p1 <= p2)%Q →
  Qfloor (inject_Z (Z.of_nat n) * p1) <= Qfloor (inject_Z (Z.of_nat n) * p2).
Proof.
  intros Hp. apply Qfloor_resp_le.
  rewrite !(Qmult_comm (inject_Z _)).
  apply Qmult_le_compat_r; [done|].
  change 0%Q with (inject_Z 0). rewrite <- Zle_Qle. lia.
Qed.

Lemma ranks_unit p : p ∈ ranks → (0 <= p)%Q ∧ (p < 1)%Q.
Proof.
  unfold ranks. rewrite !elem_of_cons, elem_of_nil.
  intros [->|[->|[->|[->|[->|[->|[]]]]]]]; done.
Qed.

Section CompileFacts2.
Context `{MathLib}.

Lemma percentile_section_writes pumps s s' :
  percentile_section pumps s = Some s' → writes percentile_keys s s'.
Proof.
  unfold percentile_section. intros Hp. destruct pumps as [|x pumps].
  - inversion Hp; subst. simpl. writes_inserts.
  - do 6 bind_some Hp. inversion Hp; subst. writes_inserts.
Qed.


Lemma percentile_section_is_Some pumps s :
  is_Some (percentile_section pumps s).
Proof.
  unfold percentile_section. destruct pumps as [|x pumps]; [by eexists|].
  set (pv := py_sorted id (map fst (x :: pumps))).
  assert (pv ≠ []) as Hpv.
  { intros E. apply (f_equal length) in E. unfold pv in E.
    rewrite length_py_sorted in E. done. }
  assert (∀ p, p ∈ ranks → is_Some (get_p pv (length pv) p)) as Hg.
  { intros p Hp. apply ranks_unit in Hp as [??]. by apply get_p_is_Some. }
  destruct (Hg (75 # 100)%Q) as [? ->]; [set_solver|].
  destruct (Hg (80 # 100)%Q) as [? ->]; [set_solver|].
  destruct (Hg (85 # 100)%Q) as [? ->]; [set_solver|].
  destruct (Hg (90 # 100)%Q) as [? ->]; [set_solver|].
  destruct (Hg (95 # 100)%Q) as [? ->]; [set_solver|].
  destruct (Hg (99 # 100)%Q) as [? ->]; [set_solver|].
  by eexists.
Qed.


Lemma compile_stats_is_Some candles st last_candle :
  py_index candles (-1) = Some last_candle →
  is_Some (float_field last_candle 4) →
  (28 <= length (tr_list st))%nat →
  is_Some (compile_stats candles st).
Proof.
  intros Hl [cc Hcc] Htr. unfold compile_stats.
  destruct (volatility_section_is_Some (log_returns st) ∅) as [s1 ->].
  cbn [mbind option_bind].
  destruct (extreme_section_is_Some (py_max_by fst)
              "max_pump_val" "max_pump_date" "avg_pump" "std_pump"
              (pump_data st) s1) as [s2 ->];
    [apply py_max_by_is_Some|].
  cbn [mbind option_bind].
  destruct (extreme_section_is_Some (py_min_by fst)
              "max_dump_val" "max_dump_date" "avg_dump" "std_dump"
              (dump_data st) s2) as [s3 ->];
    [apply py_min_by_is_Some|].
  cbn [mbind option_bind].
  destruct (atr_section_full candles (tr_list st) s3 _ _ Hl Hcc Htr)
    as (a14 & a28 & _ & _ & ->).
  cbn [mbind option_bind].
  apply percentile_section_is_Some.
Qed.

Lemma loop_body_close candles i c st st' :
  loop_body candles i c st = Some st' → is_Some (float_field c 4).
Proof.
  unfold loop_body. intros Hb. do 5 bind_some Hb. by eexists.
Qed.

Lemma grand_loop_from_close candles rest : ∀ i st st' c,
  grand_loop_from candles i rest st = Some st' →
  c ∈ rest → is_Some (float_field c 4).
Proof.
  induction rest as [|x rest IH]; intros i st st' c Hl Hc;
    [by apply elem_of_nil in Hc|].
  simpl in Hl. bind_some Hl.
  apply elem_of_cons in Hc as [->|Hc].
  - by eapply loop_body_close.
  - by eapply IH.
Qed.

Lemma analyze_market_data_long candles :
  (30 <= length candles)%nat →
  analyze_market_data candles =
    match grand_loop candles with
    | None => if forallb readable candles then NonFinite else Raises
    | Some st =>
        match compile_stats candles st with
        | None => Raises
        | Some stats => Stats stats
        end
    end.
Proof.
  intros Hlen. unfold analyze_market_data.
  destruct (Nat.ltb_spec (length candles) 30); [lia|].
  rewrite bool_decide_eq_false_2; [done|].
  intros ->. simpl in Hlen. lia.
Qed.

Lemma analyze_market_data_completes candles st :
  (30 <= length candles)%nat →
  grand_loop candles = Some st →
  ∃ stats, compile_stats candles st = Some stats
           ∧ analyze_market_data candles = Stats stats.
Proof.
  intros Hlen Hl.
  assert (candles ≠ []) as Hne by (intros ->; simpl in Hlen; lia).
  destruct (py_index_last_is_Some candles Hne) as [lc Hlc].
  destruct (compile_stats_is_Some candles st lc Hlc) as [stats Hs].
  - eapply grand_loop_from_close; [exact Hl|].
    rewrite py_index_last in Hlc. by apply last_Some_elem_of.
  - rewrite (grand_loop_tr_length _ _ Hl). lia.
  - exists stats. split; [done|].
    by rewrite analyze_market_data_long, Hl, Hs.
Qed.

End CompileFacts2.

Lemma example_series_parseable : Forall parseable example_series.
Proof.
  apply Forall_forall. intros c Hc.
  assert (c = ["2024-01-01"; "100"; "105"; "95"; "102"; "1000"; "100000"]
          ∨ c = ["2024-01-02"; "102"; "110"; "101"; "108"; "1200"; "120000"])
    as [->| ->].
  { unfold example_series in Hc. simpl in Hc.
    repeat (apply elem_of_cons in Hc as [->|Hc]; [tauto|]).
    by apply elem_of_nil in Hc. }
  all: repeat split; vm_compute; by eexists.
Qed.


(** C3. On a non-empty list of pump values the percentile helper is
    monotone along the six ranks: the value for rank [p] is the element
    at index [floor (n * p)] of the pump values sorted in ascending order,
    that index is within bounds, and for [p1 < p2] the value for [p1] is
    at most the value for [p2]. *)
Theorem get_p_monotone (pump_values : list Q) (p1 p2 : Q) :
  pump_values ≠ [] → p1 ∈ ranks → p2 ∈ ranks → (p1 < p2)%Q →
  let pv := py_sorted id pump_values in
  let n := length pv in
  let i1 := Qfloor (inject_Z (Z.of_nat n) * p1) in
  let i2 := Qfloor (inject_Z (Z.of_nat n) * p2) in
  n = length pump_values ∧ pv ≡ₚ pump_values
  ∧ StronglySorted Qle pv
  ∧ 0 <= i1 <= i2 ∧ i2 < Z.of_nat n
  ∧ ∃ v1 v2,
      get_p pv n p1 = Some v1 ∧ pv !! Z.to_nat i1 = Some v1
      ∧ get_p pv n p2 = Some v2 ∧ pv !! Z.to_nat i2 = Some v2
      ∧ (v1 <= v2)%Q.
Proof.
  intros Hne Hp1 Hp2 Hlt pv n i1 i2.
  assert (n = length pump_values) as Hn by apply length_py_sorted.
  assert (pv ≠ []) as Hpv.
  { intros E. apply (f_equal length) in E. fold n in E. rewrite Hn in E.
    by destruct pump_values. }
  assert (0 < n)%nat as Hpos by (destruct pump_values; [done|simpl in Hn; lia]).
  destruct (ranks_unit p1 Hp1) as [H10 H11].
  destruct (ranks_unit p2 Hp2) as [H20 H21].
  pose proof (rank_index_bounds n p1 Hpos H10 H11) as Hb1.
  pose proof (rank_index_bounds n p2 Hpos H20 H21) as Hb2.
  pose proof (rank_index_mono n p1 p2 (Qlt_le_weak _ _ Hlt)) as Hm.
  pose proof (py_sorted_sorted id pump_values) as Hs. fold pv in Hs.
  split; [done|]. split; [apply py_sorted_perm|]. split; [exact Hs|].
  split; [fold i1 i2 in Hm; lia|]. split; [lia|].
  destruct (lookup_lt_is_Some_2 pv (Z.to_nat i1)) as [v1 Hv1]; [fold n; lia|].
  destruct (lookup_lt_is_Some_2 pv (Z.to_nat i2)) as [v2 Hv2]; [fold n; lia|].
  exists v1, v2. unfold n at 1 2. rewrite !get_p_lookup by done.
  repeat split; try done.
  apply (sorted_lookup_le id pv (Z.to_nat i1) (Z.to_nat i2)); try done.
  fold i1 i2 in Hm. lia.
Qed.

Lemma get_p_monotone_witness :
  ∃ v1 v2,
    get_p (py_sorted id [3 # 100; 1 # 100; 7 # 100; 5 # 100]%Q) 4 (75 # 100)
      = Some v1
    ∧ get_p (py_sorted id [3 # 100; 1 # 100; 7 # 100; 5 # 100]%Q) 4 (99 # 100)
      = Some v2
    ∧ (v1 <= v2)%Q.
Proof.
  destruct (get_p_monotone [3 # 100; 1 # 100; 7 # 100; 5 # 100]%Q
              (75 # 100) (99 # 100))
    as (_ & _ & _ & _ & _ & v1 & v2 & H1 & _ & H2 & _ & Hle).
  - done.
  - unfold ranks. repeat constructor.
  - unfold ranks. repeat constructor.
  - reflexivity.
  - exists v1, v2. auto.
Defined.

Ltac bind_some_as H x E :=
  match type of H with
  | mbind _ ?m = Some _ =>
      destruct m as [x|] eqn:E; [cbn [mbind option_bind] in H | discriminate H]
  end.

(** Membership of a literal key in a literal list of keys, decided by
    evaluation. *)
Ltac decide_keys := apply (bool_decide_unpack _); vm_compute; reflexivity.

Section Degenerate.
Context `{MathLib}.


End Degenerate.





(** ** The gatekeeper *)

Lemma has_symbol_exact ticker_symbol items :
  has_symbol ticker_symbol items = true
  ↔ ∃ item, item ∈ items ∧ inst_symbol item = Some ticker_symbol.
Proof.
  unfold has_symbol. rewrite existsb_exists. split.
  - intros (item & Hin & Hb). exists item. split.
    + by apply list_elem_of_In.
    + by apply bool_decide_eq_true in Hb.
  - intros (item & Hin & Hs). exists item. split.
    + by apply list_elem_of_In.
    + by apply bool_decide_eq_true.
Qed.

Lemma scan_pages_trace fuel ex category ticker_symbol : ∀ cursor r t,
  scan_pages fuel ex category ticker_symbol cursor = (r, t) →
  Forall (λ q : request, q.1 = category) t
  ∧ (r = Found →
     ∃ cur data, last t = Some (category, cur) ∧ ex category cur = Some data
                 ∧ has_symbol ticker_symbol (instruments data) = true).
Proof.
  induction fuel as [|fuel IH]; intros cursor r t Hs; simpl in Hs.
  - inversion Hs; subst. split; [constructor|done].
  - destruct (ex category cursor) as [data|] eqn:Hex.
    + destruct (has_symbol _ _) eqn:Hh.
      * inversion Hs; subst. split; [by repeat constructor|].
        intros _. by exists cursor, data.
      * case_bool_decide.
        -- inversion Hs; subst. split; [by repeat constructor|done].
        -- destruct (scan_pages fuel ex category ticker_symbol
                       (nextPageCursor data)) as [r' t'] eqn:Hrec.
           inversion Hs; subst.
           destruct (IH _ _ _ Hrec) as [Hall Hf].
           split; [by constructor|].
           intros Hr. destruct (Hf Hr) as (cur & d & Hl & ? & ?).
           exists cur, d. split; [|done].
           destruct t'; [done|]. by rewrite last_cons, Hl.
    + inversion Hs; subst. split; [by repeat constructor|done].
Qed.

Lemma scan_pages_listed fuel ex category ticker_symbol : ∀ cursor n,
  listed_from ex category ticker_symbol cursor n → (n < fuel)%nat →
  (scan_pages fuel ex category ticker_symbol cursor).1 = Found.
Proof.
  induction fuel as [|fuel IH]; intros cursor n Hl Hn; [lia|].
  simpl. inversion Hl as [c data Hex Hh|c data m Hex Hh Hc Hrest]; subst.
  - by rewrite Hex, Hh.
  - rewrite Hex, Hh. rewrite bool_decide_eq_false_2 by done.
    specialize (IH _ _ Hrest ltac:(lia)).
    by destruct (scan_pages fuel ex category ticker_symbol _).
Qed.

Lemma category_rank_cons_ne c0 rest c :
  c0 ≠ c → category_rank (c0 :: rest) c = S (category_rank rest c).
Proof. intros. simpl. by rewrite bool_decide_eq_false_2. Qed.

Lemma category_rank_cons_eq c0 rest : category_rank (c0 :: rest) c0 = 0%nat.
Proof. simpl. by rewrite bool_decide_eq_true_2. Qed.

Lemma search_categories_trace fuel ex ticker_symbol categories : ∀ r t,
  NoDup categories →
  search_categories fuel ex ticker_symbol categories = (r, t) →
  Forall (λ q : request, q.1 ∈ categories) t
  ∧ StronglySorted
      (λ q q' : request,
         (category_rank categories q.1 <= category_rank categories q'.1)%nat) t
  ∧ (∀ b oc, r = Some (b, oc) →
       (b = false ∧ oc = None)
       ∨ (b = true ∧ ∃ c cur data,
            oc = Some c ∧ c ∈ categories
            ∧ Forall (λ q : request,
                        (category_rank categories q.1
                         <= category_rank categories c)%nat) t
            ∧ last t = Some (c, cur) ∧ ex c cur = Some data
            ∧ has_symbol ticker_symbol (instruments data) = true)).
Proof.
  induction categories as [|c0 rest IH]; intros r t Hnd Hs; simpl in Hs.
  - inversion Hs; subst. split; [constructor|]. split; [constructor|].
    intros b oc Hr. inversion Hr; subst. by left.
  - apply NoDup_cons in Hnd as [Hc0 Hnd].
    destruct (scan_pages fuel ex c0 ticker_symbol "") as [sr t0] eqn:Hscan.
    destruct (scan_pages_trace _ _ _ _ _ _ _ Hscan) as [Hall0 Hfound].
    assert (Forall (λ q : request, q.1 ∈ c0 :: rest) t0) as Hin0.
    { eapply Forall_impl; [exact Hall0|]. intros q ->. set_solver. }
    assert (StronglySorted
              (λ q q' : request,
                 (category_rank (c0 :: rest) q.1
                  <= category_rank (c0 :: rest) q'.1)%nat) t0) as Hs0.
    { clear -Hall0. induction Hall0 as [|q l Hq Hl IHl]; constructor; [done|].
      eapply Forall_impl; [exact Hl|]. intros q' Hq'. simpl in *.
      by rewrite Hq, Hq'. }
    assert (Forall (λ q : request,
                      category_rank (c0 :: rest) q.1 = 0%nat) t0) as Hz0.
    { eapply Forall_impl; [exact Hall0|]. intros q ->.
      apply category_rank_cons_eq. }
    assert (∀ r' t', search_categories fuel ex ticker_symbol rest = (r', t') →
              r = r' → t = t0 ++ t' →
              Forall (λ q : request, q.1 ∈ c0 :: rest) t
              ∧ StronglySorted
                  (λ q q' : request,
                     (category_rank (c0 :: rest) q.1
                      <= category_rank (c0 :: rest) q'.1)%nat) t
              ∧ (∀ b oc, r = Some (b, oc) →
                   (b = false ∧ oc = None)
                   ∨ (b = true ∧ ∃ c cur data,
                        oc = Some c ∧ c ∈ c0 :: rest
                        ∧ Forall (λ q : request,
                                    (category_rank (c0 :: rest) q.1
                                     <= category_rank (c0 :: rest) c)%nat) t
                        ∧ last t = Some (c, cur) ∧ ex c cur = Some data
                        ∧ has_symbol ticker_symbol (instruments data) = true)))
      as Hnext.
    { intros r' t' Hrec -> ->.
      destruct (IH _ _ Hnd Hrec) as (Hin & Hsort & Hres).
      assert (Forall (λ q : request, q.1 ≠ c0) t') as Hne.
      { eapply Forall_impl; [exact Hin|]. intros q Hq Heq.
        simpl in Hq. by rewrite Heq in Hq. }
      split; [|split].
      - apply Forall_app. split; [done|].
        eapply Forall_impl; [exact Hin|]. intros q Hq. set_solver.
      - apply StronglySorted_app. split; [|split]; [|done|].
        + intros q q' Hq Hq'. rewrite Forall_forall in Hz0.
          rewrite (Hz0 q Hq). lia.
        + clear -Hsort Hne.
          induction Hsort as [|q l Hl IHl Hq]; [constructor|].
          apply Forall_cons in Hne as [Hqc Hne].
          constructor; [by apply IHl|].
          rewrite Forall_forall in Hq, Hne |- *. intros q' Hq'.
          pose proof (Hne q' Hq').
          rewrite !category_rank_cons_ne by done.
          specialize (Hq q' Hq'). cbv beta in Hq. lia.
      - intros b oc Hr.
        destruct (Hres b oc Hr)
          as [?|(-> & c & cur & data & Hoc & Hc & Hle & Hl & Hex & Hh)];
          [by left|right].
        split; [done|]. exists c, cur, data.
        assert (c ≠ c0) as Hcc by (by intros ->).
        repeat split; try done; [set_solver| |].
        + apply Forall_app. split.
          * eapply Forall_impl; [exact Hz0|]. intros q ->. lia.
          * rewrite Forall_forall in Hle, Hne |- *. intros q Hq.
            pose proof (Hne q Hq).
            rewrite !category_rank_cons_ne by done.
            specialize (Hle q Hq). cbv beta in Hle. lia.
        + destruct t' as [|q t'] using rev_ind; [done|].
          rewrite app_assoc, last_snoc. by rewrite last_snoc in Hl. }
    destruct (search_categories fuel ex ticker_symbol rest) as [r' t'] eqn:Hrec.
    destruct sr; inversion Hs; subst.
    + (* Found: return at once *)
      split; [done|]. split; [done|].
      intros b oc Hr. inversion Hr; subst. right. split; [done|].
      destruct (Hfound eq_refl) as (cur & data & Hl & Hex & Hh).
      exists c0, cur, data. repeat split; try done; [set_solver|].
      eapply Forall_impl; [exact Hz0|]. intros q ->. lia.
    + (* Exhausted: on to the next category *)
      by eapply Hnext.
    + (* Failed: on to the next category *)
      by eapply Hnext.
    + (* OutOfFuel *)
      split; [done|]. split; [done|]. by intros b oc Hr.
Qed.

Lemma NoDup_search_order : NoDup search_order.
Proof. apply (bool_decide_unpack _). vm_compute. reflexivity. Qed.

Lemma scan_pages_first_request fuel ex category ticker_symbol cursor :
  ∃ r t, scan_pages (S fuel) ex category ticker_symbol cursor
         = (r, (category, cursor) :: t).
Proof.
  simpl. destruct (ex category cursor) as [data|]; [|by eexists _, _].
  destruct (has_symbol _ _); [by eexists _, _|].
  case_bool_decide; [by eexists _, _|].
  destruct (scan_pages fuel ex category ticker_symbol (nextPageCursor data)).
  by eexists _, _.
Qed.

Lemma scan_pages_in_vain fuel ex category ticker_symbol : ∀ cursor n,
  ends_from ex category cursor n → (n < fuel)%nat →
  (∀ m, ¬ listed_from ex category ticker_symbol cursor m) →
  ∃ r t, scan_pages fuel ex category ticker_symbol cursor
         = (r, (category, cursor) :: t)
         ∧ (r = Exhausted ∨ r = Failed).
Proof.
  induction fuel as [|fuel IH]; intros cursor n He Hn Hnot; [lia|].
  simpl. destruct (ex category cursor) as [data|] eqn:Hex.
  - destruct (has_symbol ticker_symbol (instruments data)) eqn:Hh.
    { exfalso. apply (Hnot 0%nat). by eapply listed_here. }
    case_bool_decide as Hc.
    + exists Exhausted, []. split; [done|by left].
    + inversion He as [c Hf|c d Hd Hlast|c d m Hd Hmore Hrest]; subst.
      * by rewrite Hex in Hf.
      * rewrite Hex in Hd. inversion Hd; subst. done.
      * rewrite Hex in Hd. inversion Hd; subst d.
        destruct (IH (nextPageCursor data) m Hrest ltac:(lia))
          as (r & t & Hs & Hr).
        { intros k Hk. apply (Hnot (S k)). by eapply listed_later. }
        rewrite Hs. by exists r, ((category, nextPageCursor data) :: t).
  - exists Failed, []. split; [done|by right].
Qed.

(** The search is complete: past the categories searched in vain, the
    first category that lists the symbol is the answer. *)
Lemma search_categories_complete fuel ex ticker_symbol :
  ∀ pre c post n,
  Forall (searched_in_vain fuel ex ticker_symbol) pre →
  listed_from ex c ticker_symbol "" n → (n < fuel)%nat →
  ∃ t, search_categories fuel ex ticker_symbol (pre ++ c :: post)
       = (Some (true, Some c), t)
       ∧ ∀ c', c' ∈ pre ++ [c] → (c', "") ∈ t.
Proof.
  induction pre as [|c0 pre IH]; intros c post n Hpre Hl Hn; simpl.
  - pose proof (scan_pages_listed fuel ex c ticker_symbol "" n Hl Hn) as Hf.
    destruct (scan_pages fuel ex c ticker_symbol "") as [r t] eqn:Hs.
    simpl in Hf. subst r. exists t. split; [done|].
    intros c' Hc'. apply list_elem_of_singleton in Hc'. subst c'.
    destruct fuel as [|fuel]; [lia|].
    destruct (scan_pages_first_request fuel ex c ticker_symbol "")
      as (r' & t' & Hfirst).
    rewrite Hs in Hfirst. inversion Hfirst; subst. by left.
  - apply Forall_cons in Hpre as [[Hnot (m & Hm & He)] Hpre].
    destruct (scan_pages_in_vain fuel ex c0 ticker_symbol "" m He Hm Hnot)
      as (r & t0 & Hs & Hr).
    destruct (IH c post n Hpre Hl Hn) as (t & Hrec & Hin).
    rewrite Hs, Hrec.
    exists (((c0, "") :: t0) ++ t).
    split; [by destruct Hr as [->| ->]|].
    intros c' Hc'. apply elem_of_cons in Hc' as [->|Hc'].
    + by left.
    + apply elem_of_app. right. by apply Hin.
Qed.

(** When every category is searched in vain the answer is negative,
    after a request to each of them. *)
Lemma search_categories_in_vain fuel ex ticker_symbol : ∀ categories,
  Forall (searched_in_vain fuel ex ticker_symbol) categories →
  ∃ t, search_categories fuel ex ticker_symbol categories
       = (Some (false, None), t)
       ∧ ∀ c, c ∈ categories → (c, "") ∈ t.
Proof.
  induction categories as [|c0 rest IH]; intros Hall; simpl.
  - exists []. split; [done|]. intros c Hc. by apply elem_of_nil in Hc.
  - apply Forall_cons in Hall as [[Hnot (m & Hm & He)] Hall].
    destruct (scan_pages_in_vain fuel ex c0 ticker_symbol "" m He Hm Hnot)
      as (r & t0 & Hs & Hr).
    destruct (IH Hall) as (t & Hrec & Hin).
    rewrite Hs, Hrec.
    exists (((c0, "") :: t0) ++ t).
    split; [by destruct Hr as [->| ->]|].
    intros c Hc. apply elem_of_cons in Hc as [->|Hc].
    + by left.
    + apply elem_of_app. right. by apply Hin.
Qed.

(** C6. The requests of [validate_ticker] go through the categories in
    the order linear, inverse, spot; a positive answer names one category,
    in which the last request sent found an entry whose symbol is exactly
    the one asked for, and no request was sent to a later category.  A
    symbol listed in "linear" (and in "spot") is answered with "linear",
    once the fuel covers the pages to read.  The search goes on past a
    category that does not list the symbol: the answer is the first
    category of the order that lists it, after a request to every
    category before it, and it is negative only after a request to each
    of the three categories. *)
Theorem validate_ticker_preference (fuel : nat) (ex : exchange)
    (ticker_symbol : string) :
  (∀ r t, validate_ticker fuel ex ticker_symbol = (r, t) →
     Forall (λ q : request, q.1 ∈ search_order) t
     ∧ StronglySorted
         (λ q q' : request,
            (category_rank search_order q.1
             <= category_rank search_order q'.1)%nat) t
     ∧ (∀ b oc, r = Some (b, oc) →
          (b = false ∧ oc = None)
          ∨ (b = true ∧ ∃ c cur data,
               oc = Some c ∧ c ∈ search_order
               ∧ Forall (λ q : request,
                           (category_rank search_order q.1
                            <= category_rank search_order c)%nat) t
               ∧ last t = Some (c, cur) ∧ ex c cur = Some data
               ∧ ∃ item, item ∈ instruments data
                         ∧ inst_symbol item = Some ticker_symbol)))
  ∧ (∀ n m,
       listed_from ex "linear" ticker_symbol "" n →
       listed_from ex "spot" ticker_symbol "" m →
       (n < fuel)%nat →
       (validate_ticker fuel ex ticker_symbol).1 = Some (true, Some "linear"))
  ∧ (∀ pre c post n,
       search_order = pre ++ c :: post →
       Forall (searched_in_vain fuel ex ticker_symbol) pre →
       listed_from ex c ticker_symbol "" n → (n < fuel)%nat →
       ∃ t, validate_ticker fuel ex ticker_symbol = (Some (true, Some c), t)
            ∧ ∀ c', c' ∈ pre ++ [c] → (c', "") ∈ t)
  ∧ (Forall (searched_in_vain fuel ex ticker_symbol) search_order →
     ∃ t, validate_ticker fuel ex ticker_symbol = (Some (false, None), t)
          ∧ ("linear", "") ∈ t ∧ ("inverse", "") ∈ t ∧ ("spot", "") ∈ t)
  ∧ search_order = ["linear"; "inverse"; "spot"].
Proof.
  split; [|split; [|split; [|split; [|done]]]].
  - intros r t Hv.
    destruct (search_categories_trace _ _ _ _ _ _ NoDup_search_order Hv)
      as (Hin & Hsort & Hres).
    split; [done|]. split; [done|].
    intros b oc Hr.
    destruct (Hres b oc Hr)
      as [?|(-> & c & cur & data & Hoc & Hc & Hle & Hl & Hex & Hh)];
      [by left|right].
    split; [done|]. exists c, cur, data.
    repeat (split; [done|]). by apply has_symbol_exact.
  - intros n m Hlin _ Hn.
    pose proof (scan_pages_listed fuel ex "linear" ticker_symbol "" n Hlin Hn)
      as Hf.
    unfold validate_ticker, search_order. simpl.
    destruct (scan_pages fuel ex "linear" ticker_symbol "") as [sr t0].
    simpl in Hf. by subst.
  - intros pre c post n Hso Hpre Hl Hn. unfold validate_ticker.
    rewrite Hso. by eapply search_categories_complete.
  - intros Hall. unfold validate_ticker.
    destruct (search_categories_in_vain fuel ex ticker_symbol search_order
                Hall) as (t & Hs & Hin).
    exists t. split; [done|].
    repeat split; apply Hin; unfold search_order; set_solver.
Qed.

Lemma outage_in_vain (category : string) :
  category ≠ "spot" → searched_in_vain 5 outage_exchange "BTCUSDT" category.
Proof.
  intros Hc.
  assert (outage_exchange category "" = None) as Hex.
  { unfold outage_exchange. by rewrite bool_decide_eq_false_2. }
  split.
  - intros m Hl. inversion Hl; congruence.
  - exists 0%nat. split; [lia|]. by apply ends_failed.
Qed.

Lemma validate_ticker_preference_witness :
  (validate_ticker 5 example_exchange "BTCUSDT").1
  = Some (true, Some "linear")
  ∧ ∃ t, validate_ticker 5 outage_exchange "BTCUSDT"
         = (Some (true, Some "spot"), t)
         ∧ ("inverse", "") ∈ t.
Proof.
  split.
  - apply (proj1 (proj2 (validate_ticker_preference 5 example_exchange
                           "BTCUSDT")) 1 0)%nat.
    + eapply listed_later; [reflexivity|reflexivity|done|].
      eapply listed_here; reflexivity.
    + eapply listed_here; reflexivity.
    + lia.
  - destruct (proj1 (proj2 (proj2 (validate_ticker_preference 5
                                     outage_exchange "BTCUSDT")))
                ["linear"; "inverse"] "spot" [] 0%nat)
      as (t & Hv & Hin).
    + reflexivity.
    + repeat constructor; by apply outage_in_vain.
    + eapply listed_here; reflexivity.
    + lia.
    + exists t. split; [exact Hv|]. apply Hin. set_solver.
Defined.

(** The requests sent for the example: two pages of "linear", nothing
    after the match. *)
Lemma validate_ticker_example :
  validate_ticker 5 example_exchange "BTCUSDT"
  = (Some (true, Some "linear"), [("linear", ""); ("linear", "page2")])
  ∧ validate_ticker 5 example_exchange "btcusdt" = (Some (false, None),
      [("linear", ""); ("linear", "page2"); ("inverse", ""); ("spot", "")]).
Proof. split; vm_compute; reflexivity. Qed.

(** A failed listing call is skipped: the search goes on with the next
    category. *)
Lemma validate_ticker_outage :
  validate_ticker 5 outage_exchange "BTCUSDT"
  = (Some (true, Some "spot"), [("linear", ""); ("inverse", ""); ("spot", "")]).
Proof. vm_compute. reflexivity. Qed.

(** ** The harvester *)

Lemma is_digit_digit_char z : is_digit (digit_char z) = true.
Proof.
  unfold digit_char.
  assert (0 <= z mod 10 < 10) as Hr by (apply Z.mod_pos_bound; lia).
  assert (∃ k, (k < 10)%nat ∧ Z.to_nat (z mod 10) = k) as (k & Hk & ->)
    by (exists (Z.to_nat (z mod 10)); lia).
  do 10 (destruct k as [|k]; [vm_compute; reflexivity|]). lia.
Qed.

Lemma strftime_ymd_shape date : is_ymd (strftime_ymd date) = true.
Proof.
  destruct date as [[y m] d]. unfold is_ymd, strftime_ymd.
  rewrite list_ascii_of_string_of_list_ascii.
  cbn [forallb]. rewrite !is_digit_digit_char. reflexivity.
Qed.

Section HarvesterFacts.
Variable utcoffset : Z → Z.

Lemma clean_candle_Some c c' :
  clean_candle utcoffset c = Some c'
  ↔ ∃ ts fields date_str,
      c = ts :: fields ∧ date_str_of utcoffset ts = Some date_str
      ∧ c' = date_str :: fields.
Proof.
  unfold clean_candle. split.
  - destruct c as [|ts fields]; [done|]. intros Hc.
    destruct (date_str_of utcoffset ts) as [d|] eqn:Hd; [|done].
    inversion Hc; subst. by exists ts, fields, d.
  - intros (ts & fields & d & -> & Hd & ->). by rewrite Hd.
Qed.

Lemma timestamped_clean c :
  timestamped utcoffset c ↔ is_Some (clean_candle utcoffset c).
Proof.
  split.
  - intros (ts & fields & ms & date & -> & Hi & Hf).
    exists (strftime_ymd date :: fields). apply clean_candle_Some.
    exists ts, fields, (strftime_ymd date). repeat split.
    apply bind_Some. exists ms. split; [done|].
    apply bind_Some. by exists date.
  - intros [c' Hc]. apply clean_candle_Some in Hc
      as (ts & fields & d & -> & Hd & ->).
    apply bind_Some in Hd as (ms & Hi & Hd).
    apply bind_Some in Hd as (date & Hf & _).
    by exists ts, fields, ms, date.
Qed.

Lemma date_str_of_shape ts date_str :
  date_str_of utcoffset ts = Some date_str → is_ymd date_str = true.
Proof.
  intros Hd. apply bind_Some in Hd as (ms & _ & Hd).
  apply bind_Some in Hd as (date & _ & Hd).
  inversion Hd; subst. apply strftime_ymd_shape.
Qed.

(** The cleaning loop is the monadic map of its body. *)
Lemma clean_loop_mapM raw : ∀ cleaned,
  clean_loop utcoffset raw cleaned
  = (cleaned ++.) <$> mapM (clean_candle utcoffset) raw.
Proof.
  induction raw as [|c raw IH]; intros cleaned; simpl.
  - by rewrite app_nil_r.
  - destruct (clean_candle utcoffset c) as [c'|]; [|done]. simpl.
    rewrite IH. destruct (mapM _ raw); simpl; [|done].
    by rewrite <- app_assoc.
Qed.

Lemma fetch_market_data_mapM raw_candles :
  raw_candles ≠ [] →
  fetch_market_data utcoffset (Some raw_candles)
  = mapM (clean_candle utcoffset) (rev raw_candles).
Proof.
  intros Hne. unfold fetch_market_data.
  destruct raw_candles; [done|]. rewrite clean_loop_mapM.
  by destruct (mapM _ _).
Qed.

End HarvesterFacts.

(** C2, as amended. For a non-empty list of raw rows whose first fields
    are all time stamps that convert, the harvest has as many rows as
    were delivered, in the reverse order, each with its first field
    replaced by a date of the shape YYYY-MM-DD and its other fields
    untouched; if some row has a first field that does not convert, the
    harvest is [None]. *)
Theorem fetch_market_data_reverses (utcoffset : Z → Z)
    (raw_candles : list candle) :
  raw_candles ≠ [] →
  (Forall (timestamped utcoffset) raw_candles →
   ∃ cleaned_candles,
     fetch_market_data utcoffset (Some raw_candles) = Some cleaned_candles
     ∧ length cleaned_candles = length raw_candles
     ∧ ∀ i c, rev raw_candles !! i = Some c →
         ∃ ts fields date_str,
           c = ts :: fields
           ∧ date_str_of utcoffset ts = Some date_str
           ∧ is_ymd date_str = true
           ∧ cleaned_candles !! i = Some (date_str :: fields))
  ∧ (Exists (λ c, ¬ timestamped utcoffset c) raw_candles →
     fetch_market_data utcoffset (Some raw_candles) = None).
Proof.
  intros Hne. rewrite fetch_market_data_mapM by done. split.
  - intros Hall.
    destruct (mapM_is_Some_2 (clean_candle utcoffset) (rev raw_candles))
      as [out Hout].
    { apply Forall_rev. eapply Forall_impl; [exact Hall|].
      intros c Hc. by apply timestamped_clean. }
    exists out. split; [done|].
    apply mapM_Some in Hout.
    split; [by rewrite <- (Forall2_length _ _ _ Hout), length_rev|].
    intros i c Hi.
    destruct (Forall2_lookup_l _ _ _ _ _ Hout Hi) as (c' & Hc' & Hcl).
    apply clean_candle_Some in Hcl as (ts & fields & d & -> & Hd & ->).
    exists ts, fields, d. repeat split; try done.
    by eapply date_str_of_shape.
  - intros Hbad. apply mapM_None, Exists_exists.
    apply Exists_exists in Hbad as (c & Hin & Hc).
    exists c. split; [by apply list_elem_of_In, in_rev, list_elem_of_In in Hin|].
    apply eq_None_not_Some. intros Hs. by apply Hc, timestamped_clean.
Qed.

Lemma example_rows_timestamped : Forall (timestamped utc) example_rows.
Proof.
  repeat constructor.
  - by exists "1704153600000",
      ["42500.5"; "43000"; "42000"; "42800"; "1200"; "51000000"],
      1704153600000, (2024, 1, 2).
  - by exists "1704067200000",
      ["42000"; "42600"; "41900"; "42500.5"; "1000"; "42000000"],
      1704067200000, (2024, 1, 1).
Qed.

Lemma example_rows_nonempty : example_rows ≠ [].
Proof. discriminate. Qed.

Lemma fetch_market_data_reverses_witness :
  ∃ cleaned_candles,
    fetch_market_data utc (Some example_rows) = Some cleaned_candles
    ∧ length cleaned_candles = length example_rows.
Proof.
  destruct (proj1 (fetch_market_data_reverses utc example_rows
                     example_rows_nonempty)
              example_rows_timestamped)
    as (out & Hf & Hlen & _).
  exists out. split; [exact Hf|exact Hlen].
Defined.

(** The harvest of the example rows: oldest first, dates in place of the
    time stamps, the other fields as delivered. *)
Lemma fetch_market_data_example :
  fetch_market_data utc (Some example_rows)
  = Some
      [ ["2024-01-01"; "42000"; "42600"; "41900"; "42500.5"; "1000";
         "42000000"];
        ["2024-01-02"; "42500.5"; "43000"; "42000"; "42800"; "1200";
         "51000000"] ].
Proof. vm_compute. reflexivity. Qed.

(** A non-empty list of rows on which the harvest has no output of the
    same length: the first field of the second row is not a decimal
    integer, [int] raises and the harvest returns [None]. *)
Lemma fetch_market_data_not_total :
  bad_rows ≠ []
  ∧ fetch_market_data utc (Some bad_rows) = None
  ∧ ¬ ∃ cleaned_candles,
        fetch_market_data utc (Some bad_rows) = Some cleaned_candles
        ∧ length cleaned_candles = length bad_rows.
Proof.
  split; [done|]. split; [vm_compute; reflexivity|].
  intros (out & Hf & _). vm_compute in Hf. discriminate Hf.
Qed.

(** ** Floats *)

Lemma Qleb_le x y : Qleb x y = true ↔ (x <= y)%Q.
Proof. apply Qle_bool_iff. Qed.

Lemma Qleb_gt x y : Qleb x y = false ↔ (y < x)%Q.
Proof.
  unfold Qleb. rewrite <- not_true_iff_false, Qle_bool_iff.
  split; [apply Qnot_le_lt|apply Qlt_not_le].
Qed.

(** Case analysis on the floats of a goal, the comparisons of rationals
    being turned into propositions. *)
Ltac float_cases :=
  repeat match goal with
         | x : pyfloat |- _ => destruct x as [?| |[]|]
         end;
  simpl in *; try done;
  repeat match goal with
         | H : Qltb _ _ = true |- _ => apply Qltb_lt in H
         | H : Qltb _ _ = false |- _ => apply Qltb_ge in H
         | H : Qleb _ _ = true |- _ => apply Qleb_le in H
         | H : Qleb _ _ = false |- _ => apply Qleb_gt in H
         | |- Qltb _ _ = true => apply Qltb_lt
         | |- Qltb _ _ = false => apply Qltb_ge
         | |- Qleb _ _ = true => apply Qleb_le
         | |- Qleb _ _ = false => apply Qleb_gt
         end;
  try lra.

Lemma float_leb_not_nan x y : float_leb x y = true → x ≠ NaN ∧ y ≠ NaN.
Proof. intros. split; intros ->; float_cases. Qed.

Lemma float_ltb_not_nan x y : float_ltb x y = true → x ≠ NaN ∧ y ≠ NaN.
Proof. intros. split; intros ->; float_cases. Qed.

Lemma float_leb_refl x : x ≠ NaN → float_leb x x = true.
Proof. intros. float_cases. Qed.

Lemma float_leb_trans x y z :
  float_leb x y = true → float_leb y z = true → float_leb x z = true.
Proof. intros. float_cases. Qed.

Lemma float_ltb_leb x y : float_ltb x y = true → float_leb x y = true.
Proof. intros. float_cases. Qed.

Lemma float_ltb_ge x y :
  x ≠ NaN → y ≠ NaN → float_ltb y x = false → float_leb x y = true.
Proof. intros. float_cases. Qed.

Lemma float_ltb_irrefl x y :
  float_ltb x y = true → float_leb y x = true → False.
Proof. intros. float_cases. Qed.

Lemma float_leb_ltb_trans x y z :
  float_leb x y = true → float_ltb y z = true → float_ltb x z = true.
Proof. intros. float_cases. Qed.

(** The floats below zero: minus infinity and the negative numbers; the
    negative zero is not one of them. *)
Lemma float_negative x :
  float_ltb x (Finite 0) = true
  ↔ x = Infinity true ∨ ∃ q, x = Finite q ∧ (q < 0)%Q.
Proof.
  split.
  - intros H. destruct x as [q| |[]|]; simpl in H; try done.
    + right. exists q. split; [done|]. by apply Qltb_lt.
    + by left.
  - intros [->|(q & -> & Hq)]; [done|]. simpl. by apply Qltb_lt.
Qed.

(** ** Sorting by a float key *)

Section FloatSorting.
Context {A : Type} (key : A → pyfloat).

Lemma insert_by_float_perm x l : insert_by_float key x l ≡ₚ x :: l.
Proof.
  induction l as [|y l IH]; simpl; [done|].
  destruct (float_ltb (key y) (key x)); [|done].
  rewrite IH. apply Permutation_swap.
Qed.

Lemma list_sort_perm l : list_sort key l ≡ₚ l.
Proof.
  induction l as [|x l IH]; simpl; [done|].
  by rewrite insert_by_float_perm, IH.
Qed.

Lemma length_list_sort l : length (list_sort key l) = length l.
Proof. apply Permutation_length, list_sort_perm. Qed.

Lemma insert_by_float_sorted x l :
  key x ≠ NaN → Forall (λ y, key y ≠ NaN) l →
  StronglySorted (rate_le key) l →
  StronglySorted (rate_le key) (insert_by_float key x l).
Proof.
  intros Hx Hn Hs. induction Hs as [|y l Hs IH Hy]; simpl.
  - repeat constructor.
  - apply Forall_cons in Hn as [Hyn Hn].
    destruct (float_ltb (key y) (key x)) eqn:E.
    + apply StronglySorted_cons. split; [|by apply IH].
      rewrite insert_by_float_perm. constructor; [|done].
      by apply float_ltb_leb.
    + assert (float_leb (key x) (key y) = true) as Hxy
        by (by apply float_ltb_ge).
      apply StronglySorted_cons. split.
      * constructor; [done|].
        eapply Forall_impl; [exact Hy|]. intros z Hz.
        unfold rate_le in *. by eapply float_leb_trans.
      * by apply StronglySorted_cons.
Qed.

Lemma list_sort_sorted l :
  Forall (λ y, key y ≠ NaN) l → StronglySorted (rate_le key) (list_sort key l).
Proof.
  induction 1 as [|x l Hx Hl IH]; simpl; [constructor|].
  apply insert_by_float_sorted; [done| |done].
  by rewrite list_sort_perm.
Qed.

(** The sort is stable: the elements whose key equals a given float
    keep their order. *)
Lemma filter_insert_by_float (k : pyfloat) (x : A) (l : list A) :
  filter (λ y, float_eqb (key y) k = true) (insert_by_float key x l)
  = filter (λ y, float_eqb (key y) k = true) (x :: l).
Proof.
  induction l as [|y l IH]; [done|]. simpl.
  destruct (float_ltb (key y) (key x)) eqn:E; [|done].
  rewrite filter_cons, IH, !filter_cons.
  destruct (decide (float_eqb (key y) k = true)) as [Hy|Hy]; [|done].
  destruct (decide (float_eqb (key x) k = true)) as [Hx|Hx]; [|done].
  exfalso. unfold float_eqb in Hx, Hy.
  apply andb_true_iff in Hx as [Hx1 Hx2], Hy as [Hy1 Hy2].
  apply (float_ltb_irrefl _ _ E). by eapply float_leb_trans.
Qed.

Lemma filter_list_sort (k : pyfloat) (l : list A) :
  filter (λ y, float_eqb (key y) k = true) (list_sort key l)
  = filter (λ y, float_eqb (key y) k = true) l.
Proof.
  induction l as [|x l IH]; [done|]. simpl.
  by rewrite filter_insert_by_float, !filter_cons, IH.
Qed.

Lemma insert_by_float_front (x : A) (l : list A) :
  Forall (λ y, float_leb (key x) (key y) = true) l →
  insert_by_float key x l = x :: l.
Proof.
  intros Hl. destruct l as [|y l]; [done|]. simpl.
  apply Forall_cons in Hl as [Hy _].
  destruct (float_ltb (key y) (key x)) eqn:E; [|done].
  exfalso. by apply (float_ltb_irrefl _ _ E).
Qed.

(** Filtering commutes with the sort. *)
Lemma filter_insert_float_sorted (P : A → Prop) `{!∀ x, Decision (P x)}
    (x : A) (l : list A) :
  key x ≠ NaN → Forall (λ y, key y ≠ NaN) l →
  StronglySorted (rate_le key) l →
  filter P (insert_by_float key x l)
  = if decide (P x) then insert_by_float key x (filter P l) else filter P l.
Proof.
  intros Hx Hn Hs. induction Hs as [|y l Hs IH Hy]; simpl.
  - rewrite filter_cons. by destruct (decide (P x)).
  - apply Forall_cons in Hn as [Hyn Hn].
    destruct (float_ltb (key y) (key x)) eqn:E.
    + rewrite !filter_cons, IH by done.
      destruct (decide (P y)), (decide (P x)); simpl; by rewrite ?E.
    + rewrite (filter_cons _ x). destruct (decide (P x)); [|done].
      assert (float_leb (key x) (key y) = true) as Hxy
        by (by apply float_ltb_ge).
      rewrite insert_by_float_front; [done|].
      apply Forall_forall. intros z Hz.
      apply list_elem_of_filter in Hz as [_ Hz].
      apply elem_of_cons in Hz as [->|Hz]; [done|].
      rewrite Forall_forall in Hy. specialize (Hy z Hz).
      unfold rate_le in Hy. by eapply float_leb_trans.
Qed.

Lemma filter_list_sort_comm (P : A → Prop) `{!∀ x, Decision (P x)}
    (l : list A) :
  Forall (λ y, key y ≠ NaN) l →
  filter P (list_sort key l) = list_sort key (filter P l).
Proof.
  induction 1 as [|x l Hx Hl IH]; [done|]. simpl.
  rewrite filter_insert_float_sorted;
    [|done|by rewrite list_sort_perm|by apply list_sort_sorted].
  rewrite filter_cons, IH. by destruct (decide (P x)).
Qed.

Lemma filter_none (P : A → Prop) `{!∀ x, Decision (P x)} (l : list A) :
  Forall (λ z, ¬ P z) l → filter P l = [].
Proof.
  induction 1 as [|z l Hz Hl IH]; [done|].
  rewrite filter_cons. by destruct (decide (P z)).
Qed.

(** In a sorted list the elements whose key is at most a bound form a
    prefix. *)
Lemma filter_le_prefix (bound : pyfloat) (l : list A) :
  StronglySorted (rate_le key) l →
  filter (λ y, float_leb (key y) bound = true) l
  = take (length (filter (λ y, float_leb (key y) bound = true) l)) l.
Proof.
  induction 1 as [|y l Hs IH Hy]; [done|].
  rewrite filter_cons.
  destruct (decide (float_leb (key y) bound = true)) as [Hb|Hb].
  - simpl. by rewrite <- IH.
  - assert (filter (λ y, float_leb (key y) bound = true) l = []) as ->;
      [|done].
    apply filter_none. eapply Forall_impl; [exact Hy|].
    intros z Hz Hzb. apply Hb. by eapply float_leb_trans.
Qed.

End FloatSorting.

(** ** The funding scanner *)

Lemma string_app_assoc (a b c : string) : (a +:+ b) +:+ c = a +:+ (b +:+ c).
Proof.
  induction a as [|x a IH]; [done|].
  change ((String x a +:+ b) +:+ c) with (String x ((a +:+ b) +:+ c)).
  by rewrite IH.
Qed.

Lemma string_app_nil_r (a : string) : a +:+ "" = a.
Proof.
  induction a as [|x a IH]; [done|].
  change (String x a +:+ "") with (String x (a +:+ "")). by rewrite IH.
Qed.

Lemma fold_left_render {A} (line : A → string) (l : list A) : ∀ report,
  fold_left (λ report x, report +:+ line x) l report
  = report +:+ render line l.
Proof.
  induction l as [|x l IH]; intros report; simpl.
  - by rewrite string_app_nil_r.
  - by rewrite IH, string_app_assoc.
Qed.

Lemma py_float_empty : py_float "" = None.
Proof. reflexivity. Qed.

Lemma filter_step_kept keep acc t :
  filter_step keep acc t = acc ++ from_option (λ e, [e]) [] (kept_of keep t).
Proof.
  unfold filter_step, kept_of, rate_of.
  destruct (fundingRate t) as [s|]; simpl.
  - case_bool_decide as Hs.
    + subst s. rewrite py_float_empty. simpl. by rewrite app_nil_r.
    + destruct (py_float s) as [fr|]; simpl; [|by rewrite app_nil_r].
      destruct (keep fr); simpl; [done|by rewrite app_nil_r].
  - by rewrite app_nil_r.
Qed.

Lemma fold_left_filter_step keep tickers : ∀ acc,
  fold_left (filter_step keep) tickers acc = acc ++ quotes_where keep tickers.
Proof.
  induction tickers as [|t tickers IH]; intros acc; simpl.
  - by rewrite app_nil_r.
  - rewrite IH, filter_step_kept. fold (kept_of keep t).
    destruct (kept_of keep t); simpl; [by rewrite <- app_assoc|].
    by rewrite app_nil_r.
Qed.

Lemma elem_of_quotes_where keep tickers sym fr :
  (sym, fr) ∈ quotes_where keep tickers
  ↔ ∃ t s, t ∈ tickers ∧ symbol t = sym ∧ fundingRate t = Some s
           ∧ py_float s = Some fr ∧ keep fr = true.
Proof.
  unfold quotes_where. rewrite list_elem_of_omap. split.
  - intros (t & Hin & Hk). apply bind_Some in Hk as (fr' & Hr & Hk).
    unfold rate_of in Hr. apply bind_Some in Hr as (s & Hs & Hp).
    destruct (keep fr') eqn:Hkeep; [|done]. inversion Hk; subst.
    by exists t, s.
  - intros (t & s & Hin & <- & Hs & Hp & Hk). exists t. split; [done|].
    apply bind_Some. exists fr. split.
    + unfold rate_of. apply bind_Some. by exists s.
    + by rewrite Hk.
Qed.

(** A test that rejects [nan] selects no [nan]. *)
Lemma quotes_where_not_nan keep tickers :
  keep NaN = false → Forall (λ e, e.2 ≠ NaN) (quotes_where keep tickers).
Proof.
  intros Hk. apply Forall_forall. intros [sym fr] Hin.
  apply elem_of_quotes_where in Hin as (t & s & _ & _ & _ & _ & Hkeep).
  simpl. intros ->. by rewrite Hk in Hkeep.
Qed.

Lemma negative_not_nan tickers :
  Forall (λ e, e.2 ≠ NaN)
         (quotes_where (λ fr, float_ltb fr (Finite 0)) tickers).
Proof. by apply quotes_where_not_nan. Qed.

Lemma extreme_not_nan threshold tickers :
  Forall (λ e, e.2 ≠ NaN)
         (quotes_where (λ fr, float_leb fr threshold) tickers).
Proof. by apply quotes_where_not_nan. Qed.

(** A quote whose rate is missing or rejected by [float] leaves no
    trace in the selection. *)
Lemma quotes_where_skip keep l1 bad l2 :
  rate_of bad = None →
  quotes_where keep (l1 ++ bad :: l2) = quotes_where keep (l1 ++ l2).
Proof.
  intros Hb. unfold quotes_where. rewrite !omap_app. simpl.
  by rewrite Hb.
Qed.

Lemma get_funding_data_snapshot tickers :
  get_funding_data (snapshot tickers) = tickers.
Proof. done. Qed.

Lemma get_top_funding_rates_selection tickers limit :
  tickers ≠ [] →
  get_top_funding_rates (snapshot tickers) limit
  = match py_slice_to limit
            (list_sort snd
               (quotes_where (λ fr, float_ltb fr (Finite 0)) tickers)) with
    | [] => no_negative_message
    | _ => top_header
           +:+ render (λ ie, top_line ie.1 ie.2)
                 (enumerate 1
                    (py_slice_to limit
                       (list_sort snd
                          (quotes_where (λ fr, float_ltb fr (Finite 0))
                                        tickers))))
    end.
Proof.
  intros Hne. unfold get_top_funding_rates.
  rewrite get_funding_data_snapshot. destruct tickers as [|t tickers]; [done|].
  rewrite fold_left_filter_step, app_nil_l.
  destruct (py_slice_to limit _); [done|].
  apply fold_left_render.
Qed.

Lemma check_extreme_funding_selection tickers threshold :
  check_extreme_funding (snapshot tickers) threshold
  = match quotes_where (λ fr, float_leb fr threshold) tickers with
    | [] => None
    | _ => Some (alert_header
                 +:+ render alert_line
                       (list_sort snd
                          (quotes_where (λ fr, float_leb fr threshold)
                                        tickers)))
    end.
Proof.
  unfold check_extreme_funding.
  rewrite get_funding_data_snapshot. destruct tickers as [|t tickers]; [done|].
  rewrite fold_left_filter_step, app_nil_l.
  destruct (quotes_where _ _); [done|].
  by rewrite fold_left_render.
Qed.

Lemma py_slice_to_take {A} (k : Z) (l : list A) :
  0 <= k → py_slice_to k l = take (Z.to_nat k) l.
Proof. intros. unfold py_slice_to. by destruct (Z.ltb_spec k 0); [lia|]. Qed.

(** C7, as amended. On a non-empty snapshot [get_top_funding_rates]
    keeps exactly the quotes whose rate field is present and is read by
    [float] as a float below zero (a negative number or minus infinity),
    sorts them by ascending rate, takes the first [limit] of them (for a
    non-negative [limit]) and renders these, or answers with the "no
    negative funding" message when nothing is left; on the empty snapshot
    the answer is the fetch error.  On the example snapshot the report
    lists XXXUSDT, then BTCUSDT, and not ETHUSDT; on the snapshot with
    unusual rates it is, character by character, the report of the
    program. *)
Theorem get_top_funding_rates_ranking (tickers : list ticker) (limit : Z) :
  (tickers ≠ [] →
   let kept := quotes_where (λ fr, float_ltb fr (Finite 0)) tickers in
   let ranked := list_sort snd kept in
   let top := py_slice_to limit ranked in
   (∀ sym fr, (sym, fr) ∈ kept
      ↔ ∃ t s, t ∈ tickers ∧ symbol t = sym ∧ fundingRate t = Some s
               ∧ py_float s = Some fr
               ∧ (fr = Infinity true ∨ ∃ q, fr = Finite q ∧ (q < 0)%Q))
   ∧ ranked ≡ₚ kept
   ∧ StronglySorted (rate_le snd) ranked
   ∧ (0 <= limit → top = take (Z.to_nat limit) ranked)
   ∧ get_top_funding_rates (snapshot tickers) limit
     = match top with
       | [] => no_negative_message
       | _ => top_header
              +:+ render (λ ie, top_line ie.1 ie.2) (enumerate 1 top)
       end
   ∧ (kept = [] →
      get_top_funding_rates (snapshot tickers) limit = no_negative_message))
  ∧ get_top_funding_rates (snapshot []) limit = fetch_error_message
  ∧ get_top_funding_rates (snapshot example_snapshot) 10
    = top_report_of_example
  ∧ get_top_funding_rates (snapshot odd_snapshot) 10 = top_report_of_odd.
Proof.
  split; [|split; [done|split; vm_compute; reflexivity]].
  intros Hne kept ranked top.
  split.
  { intros sym fr. unfold kept. rewrite elem_of_quotes_where.
    by setoid_rewrite float_negative. }
  split; [apply list_sort_perm|].
  split; [apply list_sort_sorted, negative_not_nan|].
  split; [apply py_slice_to_take|].
  split; [by apply get_top_funding_rates_selection|].
  intros Hk. rewrite get_top_funding_rates_selection by done.
  fold kept. rewrite Hk. simpl.
  unfold py_slice_to. by destruct (limit <? 0); rewrite take_nil.
Qed.

Lemma example_snapshot_nonempty : example_snapshot ≠ [].
Proof. discriminate. Qed.

Lemma get_top_funding_rates_ranking_witness :
  StronglySorted (rate_le snd)
    (list_sort snd
       (quotes_where (λ fr, float_ltb fr (Finite 0)) example_snapshot))
  ∧ py_slice_to 10
      (list_sort snd
         (quotes_where (λ fr, float_ltb fr (Finite 0)) example_snapshot))
    = take 10
        (list_sort snd
           (quotes_where (λ fr, float_ltb fr (Finite 0)) example_snapshot)).
Proof.
  destruct (proj1 (get_top_funding_rates_ranking example_snapshot 10)
              example_snapshot_nonempty)
    as (_ & _ & Hs & Ht & _).
  split; [exact Hs|]. apply Ht. lia.
Defined.

(** On the empty snapshot the filtered set is empty, yet the answer is
    the fetch error and not the "no negative funding" message. *)
Lemma get_top_funding_rates_empty_snapshot :
  quotes_where (λ fr, float_ltb fr (Finite 0)) [] = []
  ∧ get_top_funding_rates (snapshot []) 10 = fetch_error_message
  ∧ get_top_funding_rates (snapshot []) 10 ≠ no_negative_message.
Proof. split; [done|]. split; [done|]. vm_compute. discriminate. Qed.

(** C8. [check_extreme_funding] keeps exactly the quotes whose rate
    field is present and is read by [float] as a float at most the
    threshold, sorts them by ascending rate and renders every one of
    them, or returns [None] when there is none.  On the example snapshot
    with the threshold -0.015 the alert lists XXXUSDT, then BTCUSDT, and
    not ETHUSDT; on the snapshot with unusual rates the alert is,
    character by character, the one of the program. *)
Theorem check_extreme_funding_alert (tickers : list ticker)
    (threshold : pyfloat) :
  let kept := quotes_where (λ fr, float_leb fr threshold) tickers in
  let ranked := list_sort snd kept in
  (∀ sym fr, (sym, fr) ∈ kept
     ↔ ∃ t s, t ∈ tickers ∧ symbol t = sym ∧ fundingRate t = Some s
              ∧ py_float s = Some fr ∧ float_leb fr threshold = true)
  ∧ ranked ≡ₚ kept
  ∧ length ranked = length kept
  ∧ StronglySorted (rate_le snd) ranked
  ∧ check_extreme_funding (snapshot tickers) threshold
    = match kept with
      | [] => None
      | _ => Some (alert_header +:+ render alert_line ranked)
      end
  ∧ py_float "-0.015" = Some default_threshold
  ∧ check_extreme_funding (snapshot example_snapshot) default_threshold
    = Some alert_of_example
  ∧ check_extreme_funding (snapshot odd_snapshot) default_threshold
    = Some alert_of_odd
  ∧ check_extreme_funding (snapshot odd_snapshot) (Finite 0)
    = Some alert_of_odd_at_zero
  ∧ check_extreme_funding (snapshot odd_snapshot) NaN = None.
Proof.
  intros kept ranked.
  split.
  { intros sym fr. unfold kept. by rewrite elem_of_quotes_where. }
  split; [apply list_sort_perm|].
  split; [apply length_list_sort|].
  split; [apply list_sort_sorted, extreme_not_nan|].
  split; [apply check_extreme_funding_selection|].
  repeat split; vm_compute; reflexivity.
Qed.

(** C10. [check_extreme_funding] returns [None] whenever the fetch
    gives no ticker (a raised exception, a body without [retCode] or with
    a non-zero one, an empty list) and also on a non-empty snapshot in
    which no rate is at most the threshold: the two cases give the same
    value.  [get_top_funding_rates] answers a fetch without tickers with
    an error message of its own. *)
Theorem check_extreme_funding_none_is_ambiguous (threshold : pyfloat) :
  (∀ reply, get_funding_data reply = [] →
            check_extreme_funding reply threshold = None)
  ∧ get_funding_data RequestRaises = []
  ∧ (∀ l, get_funding_data (Body None l) = [])
  ∧ (∀ code l, code ≠ 0 → get_funding_data (Body (Some code) l) = [])
  ∧ get_funding_data (snapshot []) = []
  ∧ (∀ tickers,
       tickers ≠ [] →
       quotes_where (λ fr, float_leb fr threshold) tickers = [] →
       check_extreme_funding (snapshot tickers) threshold = None)
  ∧ (∀ reply limit, get_funding_data reply = [] →
       get_top_funding_rates reply limit = fetch_error_message)
  ∧ fetch_error_message ≠ no_negative_message
  ∧ check_extreme_funding RequestRaises (Finite (-1)) = None
  ∧ check_extreme_funding (snapshot example_snapshot) (Finite (-1)) = None.
Proof.
  split.
  { intros reply Hr. unfold check_extreme_funding. by rewrite Hr. }
  split; [done|]. split; [done|].
  split.
  { intros code l Hc. simpl. by rewrite bool_decide_eq_true_2. }
  split; [done|].
  split.
  { intros tickers _ Hk. rewrite check_extreme_funding_selection.
    by rewrite Hk. }
  split.
  { intros reply limit Hr. unfold get_top_funding_rates. by rewrite Hr. }
  split; [vm_compute; discriminate|].
  split; vm_compute; reflexivity.
Qed.

Lemma check_extreme_funding_none_is_ambiguous_witness :
  check_extreme_funding (Body (Some 10001) (Some example_snapshot))
    default_threshold = None
  ∧ check_extreme_funding (snapshot example_snapshot) (Finite (-1)) = None
  ∧ get_top_funding_rates (Body (Some 10001) (Some example_snapshot)) 10
    = fetch_error_message.
Proof.
  pose proof (check_extreme_funding_none_is_ambiguous default_threshold)
    as (H1 & _ & _ & H4 & _ & _ & H7 & _).
  pose proof (check_extreme_funding_none_is_ambiguous (Finite (-1)))
    as (_ & _ & _ & _ & _ & H6 & _).
  split; [|split].
  - apply H1, H4. lia.
  - apply H6; [discriminate|]. vm_compute. reflexivity.
  - apply H7, H4. lia.
Defined.

(** What [float] rejects is what it raises on: a rate that reads as a
    number in an unusual notation, as an infinity or as [nan] is not a
    malformed one. *)
Lemma py_float_accepts :
  py_float "n/a" = None ∧ py_float "" = None ∧ py_float " " = None
  ∧ py_float "1__0" = None ∧ py_float "0x10" = None
  ∧ py_float "-1_0" = Some (Finite (-10))
  ∧ py_float " -.5e1 " = Some (Finite (-5))
  ∧ py_float "-inf" = Some (Infinity true)
  ∧ py_float "-Infinity" = Some (Infinity true)
  ∧ py_float "nan" = Some NaN
  ∧ py_float "-0.0" = Some NegZero
  ∧ py_float "1e999" = Some (Infinity false)
  ∧ py_float "٣" = Some (Finite 3).
Proof. repeat split; vm_compute; reflexivity. Qed.

(** C5, as amended. In both funding operations a quote whose rate is
    missing or is rejected by [float] is skipped on its own: the
    selection, the alert and (when other quotes remain) the ranking are
    those of the snapshot without it.  In the harvester a row whose time
    stamp does not convert is not skipped: the whole harvest is [None]. *)
Theorem malformed_record_handling (utcoffset : Z → Z) (threshold : pyfloat)
    (limit : Z) (l1 l2 : list ticker) (bad : ticker)
    (r1 r2 : list candle) (bad_row : candle) :
  (rate_of bad = None →
   (∀ keep, quotes_where keep (l1 ++ bad :: l2) = quotes_where keep (l1 ++ l2))
   ∧ check_extreme_funding (snapshot (l1 ++ bad :: l2)) threshold
     = check_extreme_funding (snapshot (l1 ++ l2)) threshold
   ∧ (l1 ++ l2 ≠ [] →
      get_top_funding_rates (snapshot (l1 ++ bad :: l2)) limit
      = get_top_funding_rates (snapshot (l1 ++ l2)) limit)
   ∧ (l1 ++ l2 = [] →
      get_top_funding_rates (snapshot (l1 ++ bad :: l2)) limit
      = no_negative_message))
  ∧ (clean_candle utcoffset bad_row = None →
     fetch_market_data utcoffset (Some (r1 ++ bad_row :: r2)) = None).
Proof.
  split.
  - intros Hbad.
    assert (∀ keep, quotes_where keep (l1 ++ bad :: l2)
                    = quotes_where keep (l1 ++ l2)) as Hq
      by (intros keep; by apply quotes_where_skip).
    assert (l1 ++ bad :: l2 ≠ []) as Hne by (by destruct l1).
    split; [done|]. split; [|split].
    + by rewrite !check_extreme_funding_selection, Hq.
    + intros Hrest. by rewrite !get_top_funding_rates_selection, Hq.
    + intros Hnil. rewrite get_top_funding_rates_selection, Hq, Hnil by done.
      simpl. unfold py_slice_to. by destruct (limit <? 0); rewrite take_nil.
  - intros Hbad.
    rewrite fetch_market_data_mapM by (by destruct r1).
    apply mapM_None, Exists_exists. exists bad_row. split; [|done].
    apply list_elem_of_In, in_rev. rewrite rev_involutive.
    apply list_elem_of_In. set_solver.
Qed.

Lemma malformed_record_handling_witness :
  check_extreme_funding (snapshot snapshot_with_gaps) default_threshold
  = check_extreme_funding
      (snapshot
         [ {| symbol := "BTCUSDT"; fundingRate := Some "-0.02" |};
           {| symbol := "NEWUSDT"; fundingRate := None |};
           {| symbol := "XXXUSDT"; fundingRate := Some "-0.05" |} ])
      default_threshold
  ∧ fetch_market_data utc (Some rows_with_gap) = None.
Proof.
  split.
  - apply (proj1 (malformed_record_handling utc default_threshold 10
                    [ {| symbol := "BTCUSDT"; fundingRate := Some "-0.02" |} ]
                    [ {| symbol := "NEWUSDT"; fundingRate := None |};
                      {| symbol := "XXXUSDT"; fundingRate := Some "-0.05" |} ]
                    {| symbol := "BADUSDT"; fundingRate := Some "n/a" |}
                    [] [] [])).
    vm_compute. reflexivity.
  - apply (proj2 (malformed_record_handling utc (Finite 0) 10 [] []
                    {| symbol := "BADUSDT"; fundingRate := Some "n/a" |}
                    [ ["1704240000000"; "42800"; "43100"; "42700"; "43000";
                       "900"; "38000000"] ]
                    [ ["1704067200000"; "42000"; "42600"; "41900"; "42500.5";
                       "1000"; "42000000"] ]
                    ["n/a"; "42500.5"; "43000"; "42000"; "42800"; "1200";
                     "51000000"])).
    vm_compute. reflexivity.
Defined.

(** In the harvester the row with the malformed field is not dropped on
    its own: the harvest of the three rows is [None], while the two
    remaining rows alone are harvested. *)
Lemma fetch_market_data_aborts_on_malformed_row :
  clean_candle utc ["n/a"; "42500.5"; "43000"; "42000"; "42800"; "1200";
                    "51000000"] = None
  ∧ fetch_market_data utc (Some rows_with_gap) = None
  ∧ fetch_market_data utc
      (Some
         [ ["1704240000000"; "42800"; "43100"; "42700"; "43000"; "900";
            "38000000"];
           ["1704067200000"; "42000"; "42600"; "41900"; "42500.5"; "1000";
            "42000000"] ])
    = Some
        [ ["2024-01-01"; "42000"; "42600"; "41900"; "42500.5"; "1000";
           "42000000"];
          ["2024-01-03"; "42800"; "43100"; "42700"; "43000"; "900";
           "38000000"] ].
Proof. repeat split; vm_compute; reflexivity. Qed.

(** ** More on the gatekeeper *)

Lemma listed_from_inj ex category ticker_symbol cursor n m :
  listed_from ex category ticker_symbol cursor n →
  listed_from ex category ticker_symbol cursor m → n = m.
Proof.
  intros Hn. revert m.
  induction Hn as [cursor data Hex Hh|cursor data n Hex Hh Hc Hn IH];
    intros m Hm; inversion Hm as [c d Hex' Hh'|c d k Hex' Hh' Hc' Hk]; subst;
    rewrite Hex in Hex'; inversion Hex'; subst.
  - done.
  - congruence.
  - congruence.
  - f_equal. by apply IH.
Qed.

Lemma scan_pages_found_listed fuel ex category ticker_symbol : ∀ cursor t,
  scan_pages fuel ex category ticker_symbol cursor = (Found, t) →
  ∃ n, (n < fuel)%nat ∧ length t = S n
       ∧ listed_from ex category ticker_symbol cursor n.
Proof.
  induction fuel as [|fuel IH]; intros cursor t Hs; simpl in Hs; [done|].
  destruct (ex category cursor) as [data|] eqn:Hex; [|done].
  destruct (has_symbol _ _) eqn:Hh.
  - inversion Hs; subst. exists 0%nat. repeat split; [lia|].
    by eapply listed_here.
  - case_bool_decide as Hc; [done|].
    destruct (scan_pages fuel ex category ticker_symbol (nextPageCursor data))
      as [r' t'] eqn:Hrec.
    inversion Hs; subst.
    destruct (IH _ _ Hrec) as (n & Hn & Hlen & Hl).
    exists (S n). repeat split; [lia|simpl; lia|].
    by eapply listed_later.
Qed.

Lemma scan_pages_not_listed fuel ex category ticker_symbol : ∀ cursor r t,
  scan_pages fuel ex category ticker_symbol cursor = (r, t) →
  r = Exhausted ∨ r = Failed →
  ∀ n, ¬ listed_from ex category ticker_symbol cursor n.
Proof.
  induction fuel as [|fuel IH]; intros cursor r t Hs Hr n Hl; simpl in Hs.
  - inversion Hs; subst. by destruct Hr.
  - inversion Hl as [c data Hex Hh|c data m Hex Hh Hc Hrest]; subst;
      rewrite Hex, Hh in Hs.
    + inversion Hs; subst. by destruct Hr.
    + rewrite bool_decide_eq_false_2 in Hs by done.
      destruct (scan_pages fuel ex category ticker_symbol (nextPageCursor data))
        as [r' t'] eqn:Hrec.
      inversion Hs; subst. by eapply IH.
Qed.


Lemma search_categories_sound fuel ex ticker_symbol categories : ∀ b oc t,
  search_categories fuel ex ticker_symbol categories = (Some (b, oc), t) →
  match oc with
  | None =>
      b = false
      ∧ ∀ c n, c ∈ categories → ¬ listed_from ex c ticker_symbol "" n
  | Some c =>
      b = true
      ∧ ∃ pre post n,
          categories = pre ++ c :: post
          ∧ (n < fuel)%nat ∧ listed_from ex c ticker_symbol "" n
          ∧ ∀ c' m, c' ∈ pre → ¬ listed_from ex c' ticker_symbol "" m
  end.
Proof.
  induction categories as [|c0 rest IH]; intros b oc t Hs; simpl in Hs.
  - inversion Hs; subst. split; [done|]. intros c n Hc. by apply elem_of_nil in Hc.
  - destruct (scan_pages fuel ex c0 ticker_symbol "") as [sr t0] eqn:Hscan.
    destruct (search_categories fuel ex ticker_symbol rest) as [r' t'] eqn:Hrec.
    assert (sr = Exhausted ∨ sr = Failed →
            r' = Some (b, oc) →
            match oc with
            | None =>
                b = false
                ∧ ∀ c n, c ∈ c0 :: rest → ¬ listed_from ex c ticker_symbol "" n
            | Some c =>
                b = true
                ∧ ∃ pre post n,
                    c0 :: rest = pre ++ c :: post
                    ∧ (n < fuel)%nat ∧ listed_from ex c ticker_symbol "" n
                    ∧ ∀ c' m, c' ∈ pre → ¬ listed_from ex c' ticker_symbol "" m
            end) as Hnext.
    { intros Hsr ->. specialize (IH _ _ _ eq_refl).
      pose proof (scan_pages_not_listed _ _ _ _ _ _ _ Hscan Hsr) as Hno.
      destruct oc as [c|].
      - destruct IH as (-> & pre & post & n & -> & Hn & Hl & Hpre).
        split; [done|]. exists (c0 :: pre), post, n.
        repeat split; try done.
        intros c' m Hc'. apply elem_of_cons in Hc' as [->|Hc']; [apply Hno|].
        by apply Hpre.
      - destruct IH as [-> Hall]. split; [done|].
        intros c n Hc. apply elem_of_cons in Hc as [->|Hc]; [apply Hno|].
        by apply Hall. }
    destruct sr; inversion Hs; subst.
    + split; [done|].
      destruct (scan_pages_found_listed _ _ _ _ _ _ Hscan) as (n & Hn & _ & Hl).
      exists [], rest, n. repeat split; try done.
      intros c' m Hc'. by apply elem_of_nil in Hc'.
    + apply Hnext; auto.
    + apply Hnext; auto.
Qed.

(** X1. "Not found" is sound: when [validate_ticker] returns
    [(False, None)], no category of the search order lists the symbol on
    a page that the pagination reaches. *)
Theorem validate_ticker_not_found (fuel : nat) (ex : exchange)
    (ticker_symbol : string) (t : list request) :
  validate_ticker fuel ex ticker_symbol = (Some (false, None), t) →
  ∀ c n, c ∈ search_order → ¬ listed_from ex c ticker_symbol "" n.
Proof.
  intros Hv. by destruct (search_categories_sound _ _ _ _ _ _ _ Hv).
Qed.

Lemma validate_ticker_not_found_witness :
  validate_ticker 5 example_exchange "btcusdt"
  = (Some (false, None),
     [("linear", ""); ("linear", "page2"); ("inverse", ""); ("spot", "")])
  ∧ ¬ listed_from example_exchange "spot" "btcusdt" "" 1.
Proof.
  split; [vm_compute; reflexivity|].
  apply (validate_ticker_not_found 5 example_exchange "btcusdt"
           [("linear", ""); ("linear", "page2"); ("inverse", ""); ("spot", "")]).
  - vm_compute. reflexivity.
  - unfold search_order. repeat constructor.
Defined.

(** X2. A positive answer names the first category of the search order
    that lists the symbol: the symbol is reachable in the category
    returned, and in no category before it. *)
Theorem validate_ticker_found_first (fuel : nat) (ex : exchange)
    (ticker_symbol c : string) (b : bool) (t : list request) :
  validate_ticker fuel ex ticker_symbol = (Some (b, Some c), t) →
  b = true
  ∧ ∃ pre post n,
      search_order = pre ++ c :: post
      ∧ (n < fuel)%nat ∧ listed_from ex c ticker_symbol "" n
      ∧ ∀ c' m, c' ∈ pre → ¬ listed_from ex c' ticker_symbol "" m.
Proof.
  intros Hv. exact (search_categories_sound _ _ _ _ _ _ _ Hv).
Qed.

Lemma validate_ticker_found_first_witness :
  ∃ pre post n,
    search_order = pre ++ "spot" :: post
    ∧ listed_from outage_exchange "spot" "BTCUSDT" "" n
    ∧ ∀ c' m, c' ∈ pre → ¬ listed_from outage_exchange c' "BTCUSDT" "" m.
Proof.
  destruct (validate_ticker_found_first 5 outage_exchange "BTCUSDT" "spot" true
              [("linear", ""); ("inverse", ""); ("spot", "")])
    as (_ & pre & post & n & Hs & _ & Hl & Hpre).
  - vm_compute. reflexivity.
  - by exists pre, post, n.
Defined.





(** ** More on the harvester and on its composition with the brain *)

(** X4. Whatever the harvest returns is a usable series: it is never
    empty, it has one row per delivered row, in the reverse order, and
    every row starts with a date of the shape YYYY-MM-DD followed by the
    fields that were delivered after the time stamp. *)
Theorem fetch_market_data_output (utcoffset : Z → Z)
    (response : option (list candle)) (cleaned_candles : list candle) :
  fetch_market_data utcoffset response = Some cleaned_candles →
  cleaned_candles ≠ []
  ∧ ∃ raw_candles,
      response = Some raw_candles
      ∧ length cleaned_candles = length raw_candles
      ∧ Forall2 (λ c c', ∃ ts fields date_str,
                   c = ts :: fields ∧ c' = date_str :: fields
                   ∧ date_str_of utcoffset ts = Some date_str
                   ∧ is_ymd date_str = true)
                (rev raw_candles) cleaned_candles.
Proof.
  intros Hf. destruct response as [raw|]; [|done].
  assert (raw ≠ []) as Hne by (by destruct raw).
  rewrite fetch_market_data_mapM in Hf by done.
  apply mapM_Some in Hf.
  pose proof (Forall2_length _ _ _ Hf) as Hlen. rewrite length_rev in Hlen.
  split.
  { intros ->. destruct raw; [done|]. simpl in Hlen. lia. }
  exists raw. split; [done|]. split; [done|].
  eapply Forall2_impl; [exact Hf|].
  intros c c' Hc. apply clean_candle_Some in Hc as (ts & fields & d & -> & Hd & ->).
  exists ts, fields, d. repeat split; try done. by eapply date_str_of_shape.
Qed.

Lemma fetch_market_data_output_witness :
  ∃ cleaned_candles,
    fetch_market_data utc (Some example_rows) = Some cleaned_candles
    ∧ cleaned_candles ≠ [].
Proof.
  eexists. split; [exact fetch_market_data_example|].
  exact (proj1 (fetch_market_data_output utc (Some example_rows) _
                  fetch_market_data_example)).
Defined.






(** ** More on the brain *)

Section BrainMore.
Context `{MathLib}.

Lemma loop_body_not_parseable candles i c st :
  ¬ parseable c → loop_body candles i c st = None.
Proof.
  intros Hc. unfold loop_body.
  destruct (c !! 0%nat) as [d|] eqn:E0; [|done].
  destruct (float_field c 1) as [o|] eqn:E1; [|done].
  destruct (float_field c 2) as [h|] eqn:E2; [|done].
  destruct (float_field c 3) as [l|] eqn:E3; [|done].
  destruct (float_field c 4) as [cl|] eqn:E4; [|done].
  exfalso. apply Hc. unfold parseable.
  rewrite E0, E1, E2, E3, E4. by repeat split.
Qed.

Lemma grand_loop_from_not_parseable candles rest : ∀ i st,
  Exists (λ c, ¬ parseable c) rest →
  grand_loop_from candles i rest st = None.
Proof.
  induction rest as [|c rest IH]; intros i st Hex; [by inversion Hex|].
  simpl. destruct (loop_body candles i c st) as [st'|] eqn:Hb; [|done].
  cbn [mbind option_bind].
  apply Exists_cons in Hex as [Hc|Hex]; [|by apply IH].
  by rewrite loop_body_not_parseable in Hb.
Qed.

Lemma float_field_take c k :
  (k < 5)%nat → float_field (take 5 c) k = float_field c k.
Proof.
  intros. unfold float_field, candle in *. by rewrite lookup_take_lt.
Qed.

Lemma loop_body_take candles i c st :
  loop_body (take 5 <$> candles) i (take 5 c) st = loop_body candles i c st.
Proof.
  unfold loop_body.
  rewrite !float_field_take by lia. unfold candle in *.
  rewrite lookup_take_lt by lia.
  rewrite list_lookup_fmap.
  destruct (candles !! (i - 1)%nat) as [prev|]; simpl; [|done].
  by rewrite float_field_take by lia.
Qed.

Lemma grand_loop_from_take candles rest : ∀ i st,
  grand_loop_from (take 5 <$> candles) i (take 5 <$> rest) st
  = grand_loop_from candles i rest st.
Proof.
  induction rest as [|c rest IH]; intros i st; [done|].
  simpl. rewrite loop_body_take.
  destruct (loop_body candles i c st); simpl; [apply IH|done].
Qed.

Lemma atr_section_take candles trs s :
  atr_section (take 5 <$> candles) trs s = atr_section candles trs s.
Proof.
  unfold atr_section. rewrite !py_index_last, fmap_last.
  unfold candle in *.
  destruct (last candles) as [lc|]; [|reflexivity].
  cbn [fmap option_fmap option_map mbind option_bind].
  by rewrite float_field_take by lia.
Qed.

End BrainMore.

Lemma rejected_not_parseable (c : candle) : rejected c → ¬ parseable c.
Proof.
  intros [H0|(k & Hk & Hr)] (P0 & P1 & P2 & P3 & P4).
  - rewrite H0 in P0. by destruct P0.
  - assert (float_field c k = None) as Hf.
    { unfold float_field. apply bind_None in Hr as [Hr|(s & Hs & Hr)].
      - by rewrite Hr.
      - rewrite Hs. simpl. by rewrite Hr. }
    assert (k = 1 ∨ k = 2 ∨ k = 3 ∨ k = 4)%nat as Hcases by lia.
    destruct Hcases as [-> | [-> | [-> | ->]]];
      match goal with P : is_Some (float_field c _) |- _ =>
        rewrite Hf in P; by destruct P end.
Qed.

Lemma rejected_not_readable (c : candle) : rejected c → readable c = false.
Proof.
  intros [H0|(k & Hk & Hr)]; unfold readable.
  - rewrite H0. by rewrite bool_decide_eq_false_2 by (by intros [? ?]).
  - apply andb_false_iff. right.
    assert (float_accepts c k = false) as Hf.
    { unfold float_accepts. apply bind_None in Hr as [Hr|(s & Hs & Hr)].
      - by rewrite Hr.
      - rewrite Hs, Hr. by rewrite bool_decide_eq_false_2 by (by intros [? ?]). }
    assert (k = 1 ∨ k = 2 ∨ k = 3 ∨ k = 4)%nat as Hcases by lia.
    simpl. destruct Hcases as [-> | [-> | [-> | ->]]]; rewrite Hf;
      by rewrite ?andb_false_r.
Qed.

(** X6. In a series of at least thirty candles a single candle without
    a date field, or with a price field that is missing or that [float]
    rejects, makes the analysis raise: there is neither a dictionary nor
    the "not enough data" answer.  (A price that [float] reads as [inf]
    or [nan] is not rejected.) *)
Theorem analyze_market_data_raises `{MathLib} (candles : list candle) :
  (30 <= length candles)%nat →
  Exists rejected candles →
  analyze_market_data candles = Raises.
Proof.
  intros Hlen Hex. rewrite analyze_market_data_long by done.
  unfold grand_loop. rewrite grand_loop_from_not_parseable.
  - assert (forallb readable candles = false) as ->; [|done].
    apply not_true_iff_false. intros Hall.
    rewrite forallb_forall in Hall.
    apply Exists_exists in Hex as (c & Hin & Hr).
    apply rejected_not_readable in Hr.
    rewrite Hall in Hr; [done|]. by apply list_elem_of_In.
  - eapply Exists_impl; [exact Hex|]. apply rejected_not_parseable.
Qed.

Lemma analyze_market_data_raises_witness :
  analyze_market_data (H := rational_math) broken_series = Raises.
Proof.
  apply (analyze_market_data_raises (H := rational_math)).
  - vm_compute. lia.
  - unfold broken_series. apply Exists_app. right. apply Exists_cons_hd.
    right. exists 4%nat. split; [lia|]. vm_compute. reflexivity.
Defined.

Lemma readable_take (c : candle) : readable (take 5 c) = readable c.
Proof.
  unfold readable, float_accepts, candle in *. simpl.
  by rewrite !lookup_take_lt by lia.
Qed.

Lemma forallb_readable_take (candles : list candle) :
  forallb readable (take 5 <$> candles) = forallb readable candles.
Proof.
  induction candles as [|c candles IH]; [done|].
  rewrite fmap_cons. cbn [forallb]. by rewrite readable_take, IH.
Qed.

(** X7. The analysis reads the first five fields of a candle and
    nothing else: volume, turnover and any further field have no
    influence on the result. *)
Theorem analyze_market_data_reads_five_fields `{MathLib}
    (candles : list candle) :
  analyze_market_data (take 5 <$> candles) = analyze_market_data candles.
Proof.
  unfold analyze_market_data, grand_loop, compile_stats.
  rewrite length_fmap, grand_loop_from_take.
  replace (bool_decide (take 5 <$> candles = []))
    with (bool_decide (candles = []))
    by (by destruct candles).
  destruct (_ || _); [done|].
  destruct (grand_loop_from candles 0 candles initial_containers)
    as [st|]; [|by rewrite forallb_readable_take].
  destruct (volatility_section (log_returns st) ∅) as [s1|]; [|done].
  cbn [mbind option_bind].
  destruct (extreme_section (py_max_by fst) _ _ _ _ _ s1) as [s2|]; [|done].
  cbn [mbind option_bind].
  destruct (extreme_section (py_min_by fst) _ _ _ _ _ s2) as [s3|]; [|done].
  cbn [mbind option_bind].
  by rewrite atr_section_take.
Qed.

Section BrainInvariants.
Context `{MathLib}.

(** One iteration of the grand loop, container by container. *)
Lemma loop_body_shape candles i c st st' :
  loop_body candles i c st = Some st' →
  ∃ date_str o h l cl,
    c !! 0%nat = Some date_str
    ∧ float_field c 1 = Some o ∧ float_field c 2 = Some h
    ∧ float_field c 3 = Some l ∧ float_field c 4 = Some cl
    ∧ pump_data st'
      = pump_data st
        ++ (if Qltb 0 o then [(((h - o) / o)%Q, date_str)] else [])
    ∧ dump_data st'
      = dump_data st
        ++ (if Qltb 0 o then [(((l - o) / o)%Q, date_str)] else [])
    ∧ (i = 0%nat →
       tr_list st' = tr_list st ∧ log_returns st' = log_returns st)
    ∧ ((0 < i)%nat →
       ∃ prev pc,
         candles !! (i - 1)%nat = Some prev ∧ float_field prev 4 = Some pc
         ∧ tr_list st'
           = tr_list st ++ [py_max3 (h - l) (Qabs (h - pc)) (Qabs (l - pc))]
         ∧ log_returns st'
           = log_returns st
             ++ (if Qltb 0 pc && Qltb 0 cl
                 then [math_log (cl / pc)%Q] else [])).
Proof.
  unfold loop_body. intros Hb.
  destruct (c !! 0%nat) as [d|] eqn:E0; [|done].
  destruct (float_field c 1) as [o|] eqn:E1; [|done].
  destruct (float_field c 2) as [h|] eqn:E2; [|done].
  destruct (float_field c 3) as [l|] eqn:E3; [|done].
  destruct (float_field c 4) as [cl|] eqn:E4; [|done].
  cbn [mbind option_bind] in Hb.
  exists d, o, h, l, cl. do 5 (split; [done|]).
  destruct (Nat.ltb_spec 0 i) as [Hi|Hi].
  - destruct (candles !! (i - 1)%nat) as [prev|] eqn:Ep; [|done].
    cbn [mbind option_bind] in Hb.
    destruct (float_field prev 4) as [pc|] eqn:Epc; [|done].
    cbn [mbind option_bind] in Hb. inversion Hb; subst; clear Hb.
    destruct (Qltb 0 o); simpl.
    + repeat split; try done; [lia|lia|].
      intros _. exists prev, pc. repeat split; try done.
      destruct (Qltb 0 pc && Qltb 0 cl); simpl; by rewrite ?app_nil_r.
    + rewrite !app_nil_r. repeat split; try done; [lia|lia|].
      intros _. exists prev, pc. repeat split; try done.
      destruct (Qltb 0 pc && Qltb 0 cl); simpl; by rewrite ?app_nil_r.
  - inversion Hb; subst; clear Hb.
    destruct (Qltb 0 o); simpl; rewrite ?app_nil_r;
      repeat split; try done; lia.
Qed.

Lemma intraday_of_shape k c date_str o x :
  c !! 0%nat = Some date_str → float_field c 1 = Some o →
  float_field c k = Some x →
  from_option (λ e, [e]) [] (intraday k c)
  = if Qltb 0 o then [(((x - o) / o)%Q, date_str)] else [].
Proof.
  intros H0 H1 Hk. unfold intraday. rewrite H0, H1, Hk. simpl.
  by destruct (Qltb 0 o).
Qed.

Lemma grand_loop_from_intraday candles rest : ∀ i st st',
  grand_loop_from candles i rest st = Some st' →
  pump_data st' = pump_data st ++ omap (intraday 2) rest
  ∧ dump_data st' = dump_data st ++ omap (intraday 3) rest.
Proof.
  induction rest as [|c rest IH]; intros i st st' Hl; simpl in Hl.
  - inversion Hl; subst. by rewrite !app_nil_r.
  - destruct (loop_body candles i c st) as [st1|] eqn:Hb; [|done].
    cbn [mbind option_bind] in Hl.
    destruct (IH _ _ _ Hl) as [Hp Hd].
    destruct (loop_body_shape _ _ _ _ _ Hb)
      as (d & o & h & l & cl & H0 & H1 & H2 & H3 & _ & Hp1 & Hd1 & _).
    rewrite Hp, Hd, Hp1, Hd1, <- !app_assoc.
    rewrite <- (intraday_of_shape 2 c d o h), <- (intraday_of_shape 3 c d o l)
      by done.
    simpl. by destruct (intraday 2 c), (intraday 3 c).
Qed.

Lemma py_max3_ge_middle a b c : (b <= py_max3 a b c)%Q.
Proof.
  unfold py_max3.
  assert (b <= (if Qltb a b then b else a))%Q as Hm.
  { destruct (Qltb a b) eqn:E; [apply Qle_refl|by apply Qltb_ge]. }
  destruct (Qltb _ c) eqn:E; [|done].
  apply Qltb_lt in E. eapply Qle_trans; [exact Hm|by apply Qlt_le_weak].
Qed.

Lemma grand_loop_from_tr_nonneg candles rest : ∀ i st st',
  grand_loop_from candles i rest st = Some st' →
  Forall (λ x, (0 <= x)%Q) (tr_list st) →
  Forall (λ x, (0 <= x)%Q) (tr_list st').
Proof.
  induction rest as [|c rest IH]; intros i st st' Hl Hst; simpl in Hl.
  - by inversion Hl; subst.
  - destruct (loop_body candles i c st) as [st1|] eqn:Hb; [|done].
    cbn [mbind option_bind] in Hl. eapply IH; [exact Hl|].
    destruct (loop_body_shape _ _ _ _ _ Hb)
      as (d & o & h & l & cl & _ & _ & _ & _ & _ & _ & _ & Hz & Hp).
    destruct (Nat.eq_dec i 0%nat) as [->|Hi].
    + destruct Hz as [-> _]; done.
    + destruct Hp as (prev & pc & _ & _ & -> & _); [lia|].
      apply Forall_app. split; [done|]. constructor; [|constructor].
      eapply Qle_trans; [apply (Qabs_nonneg (h - pc))|apply py_max3_ge_middle].
Qed.

Lemma Qsum_from_nonneg l : ∀ acc,
  (0 <= acc)%Q → Forall (λ x, (0 <= x)%Q) l →
  (0 <= fold_left (λ acc x, Qred (acc + x)) l acc)%Q.
Proof.
  induction l as [|x l IH]; intros acc Ha Hl; [done|]. simpl.
  apply Forall_cons in Hl as [Hx Hl]. apply IH; [|done].
  rewrite Qred_correct.
  apply (Qplus_le_compat 0 acc 0 x); done.
Qed.

Lemma Qsum_nonneg l : Forall (λ x, (0 <= x)%Q) l → (0 <= Qsum l)%Q.
Proof. intros. by apply Qsum_from_nonneg. Qed.

Lemma statistics_mean_nonneg l m :
  statistics_mean l = Some m → Forall (λ x, (0 <= x)%Q) l → (0 <= m)%Q.
Proof.
  intros Hm Hl. destruct l as [|x l]; [done|]. inversion Hm; subst.
  apply Qmult_le_0_compat; [by apply Qsum_nonneg|].
  apply Qinv_le_0_compat.
  change 0%Q with (inject_Z 0). rewrite <- Zle_Qle. lia.
Qed.

Lemma grand_loop_from_dates candles rest : ∀ i st st',
  grand_loop_from candles i rest st = Some st' →
  map snd (pump_data st) = map snd (dump_data st) →
  map snd (pump_data st') = map snd (dump_data st').
Proof.
  induction rest as [|c rest IH]; intros i st st' Hl Hst; simpl in Hl.
  - by inversion Hl; subst.
  - destruct (loop_body candles i c st) as [st1|] eqn:Hb; [|done].
    cbn [mbind option_bind] in Hl. eapply IH; [exact Hl|].
    destruct (loop_body_shape _ _ _ _ _ Hb)
      as (d & o & h & l & cl & _ & _ & _ & _ & _ & -> & -> & _).
    rewrite !map_app, Hst. by destruct (Qltb 0 o).
Qed.

End BrainInvariants.

(** X8. When the grand loop runs to its end, the pump list and the dump
    list hold, in the order of the series, one entry for each candle
    with a positive open: the move from the open to the high (to the
    low) divided by the open, with the date of that candle.  The two
    lists carry the same dates. *)
Theorem grand_loop_intraday `{MathLib} (candles : list candle)
    (st : containers) :
  grand_loop candles = Some st →
  pump_data st = omap (intraday 2) candles
  ∧ dump_data st = omap (intraday 3) candles
  ∧ map snd (pump_data st) = map snd (dump_data st).
Proof.
  intros Hl.
  destruct (grand_loop_from_intraday _ _ _ _ _ Hl) as [Hp Hd].
  split; [done|]. split; [done|].
  by eapply grand_loop_from_dates.
Qed.

Lemma grand_loop_intraday_witness :
  ∃ st, grand_loop (H := rational_math) example_series = Some st
        ∧ pump_data st = omap (intraday 2) example_series.
Proof.
  destruct (grand_loop_is_Some (H := rational_math) example_series
              example_series_parseable) as [st Hst].
  exists st. split; [exact Hst|].
  exact (proj1 (grand_loop_intraday (H := rational_math) example_series st Hst)).
Defined.

Section StatsValues.
Context `{MathLib}.

(** A dictionary is returned only past the length check, after a
    complete loop and a complete compilation. *)
Lemma analyze_market_data_Stats candles stats :
  analyze_market_data candles = Stats stats →
  (30 <= length candles)%nat
  ∧ ∃ st, grand_loop candles = Some st
          ∧ compile_stats candles st = Some stats.
Proof.
  unfold analyze_market_data. intros Ha.
  destruct (Nat.ltb_spec (length candles) 30) as [Hlt|Hge].
  { by rewrite orb_true_r in Ha. }
  split; [done|].
  destruct (bool_decide (candles = [])); [done|]. simpl in Ha.
  destruct (grand_loop candles) as [st|];
    [|by destruct (forallb readable candles)].
  exists st. split; [done|].
  destruct (compile_stats candles st); [|done]. by inversion Ha.
Qed.

Lemma compile_stats_atr candles st stats :
  compile_stats candles st = Some stats →
  (28 <= length (tr_list st))%nat →
  ∃ atr_14 atr_28 current_close,
    statistics_mean (py_slice_last 14 (tr_list st)) = Some atr_14
    ∧ statistics_mean (py_slice_last 28 (tr_list st)) = Some atr_28
    ∧ (last candles ≫= λ c, float_field c 4) = Some current_close
    ∧ stats !! "atr_14" = Some (VNum atr_14)
    ∧ stats !! "atr_28" = Some (VNum atr_28)
    ∧ stats !! "atr_relative"
      = Some (VNum (if Qltb 0 current_close
                    then (atr_28 / current_close)%Q else 0%Q)).
Proof.
  unfold compile_stats. intros Hc Htr.
  bind_some_as Hc s1 E1. bind_some_as Hc s2 E2. bind_some_as Hc s3 E3.
  bind_some_as Hc s4 E4.
  apply percentile_section_writes in Hc as [_ F5].
  pose proof E4 as E4'. unfold atr_section in E4'.
  bind_some_as E4' lc Elc. bind_some_as E4' cc Ecc. clear E4'.
  destruct (atr_section_full candles (tr_list st) s3 lc cc Elc Ecc Htr)
    as (a14 & a28 & H14 & H28 & Ha).
  rewrite Ha in E4. inversion E4; subst; clear E4.
  exists a14, a28, cc. split; [done|]. split; [done|].
  split; [by rewrite <- py_index_last, Elc|].
  rewrite !F5 by decide_keys. repeat split; by simplify_map_eq.
Qed.

Lemma extreme_section_values pick kv kd ka ks data s s' :
  extreme_section pick kv kd ka ks data s = Some s' →
  data ≠ [] →
  kv ≠ kd → kv ≠ ka → kv ≠ ks → kd ≠ ka → kd ≠ ks → ka ≠ ks →
  ∃ best avg,
    pick data = Some best
    ∧ statistics_mean (map fst data) = Some avg
    ∧ s' !! kv = Some (VNum best.1) ∧ s' !! kd = Some (VStr best.2)
    ∧ s' !! ka = Some (VNum avg).
Proof.
  unfold extreme_section. intros He Hne ??????.
  destruct data as [|x data]; [done|].
  bind_some_as He best Eb. bind_some_as He avg Ea. bind_some_as He std Es.
  inversion He; subst. exists best, avg. repeat split; by simplify_map_eq.
Qed.

Lemma compile_stats_extremes candles st stats :
  compile_stats candles st = Some stats →
  (pump_data st ≠ [] →
   ∃ best avg,
     py_max_by fst (pump_data st) = Some best
     ∧ statistics_mean (map fst (pump_data st)) = Some avg
     ∧ stats !! "max_pump_val" = Some (VNum best.1)
     ∧ stats !! "max_pump_date" = Some (VStr best.2)
     ∧ stats !! "avg_pump" = Some (VNum avg))
  ∧ (dump_data st ≠ [] →
     ∃ best avg,
       py_min_by fst (dump_data st) = Some best
       ∧ statistics_mean (map fst (dump_data st)) = Some avg
       ∧ stats !! "max_dump_val" = Some (VNum best.1)
       ∧ stats !! "max_dump_date" = Some (VStr best.2)
       ∧ stats !! "avg_dump" = Some (VNum avg)).
Proof.
  unfold compile_stats. intros Hc.
  bind_some_as Hc s1 E1. bind_some_as Hc s2 E2. bind_some_as Hc s3 E3.
  bind_some_as Hc s4 E4.
  apply percentile_section_writes in Hc as [_ F5].
  apply atr_section_writes in E4 as [_ F4].
  pose proof (extreme_section_writes _ _ _ _ _ _ _ _ E3) as [_ F3].
  split.
  - intros Hne.
    destruct (extreme_section_values _ _ _ _ _ _ _ _ E2 Hne)
      as (best & avg & Hb & Ha & Hv & Hd & Hg); try done.
    exists best, avg. split; [done|]. split; [done|].
    rewrite !F5, !F4, !F3 by decide_keys. done.
  - intros Hne.
    destruct (extreme_section_values _ _ _ _ _ _ _ _ E3 Hne)
      as (best & avg & Hb & Ha & Hv & Hd & Hg); try done.
    exists best, avg. split; [done|]. split; [done|].
    rewrite !F5, !F4 by decide_keys. done.
Qed.

Lemma compile_stats_percentiles candles st stats :
  compile_stats candles st = Some stats →
  pump_data st ≠ [] →
  let pv := py_sorted id (map fst (pump_data st)) in
  Forall2 (λ k p, ∃ v, get_p pv (length pv) p = Some v
                       ∧ stats !! k = Some (VNum v))
          percentile_keys ranks.
Proof.
  intros Hc Hne pv. unfold compile_stats in Hc.
  bind_some_as Hc s1 E1. bind_some_as Hc s2 E2. bind_some_as Hc s3 E3.
  bind_some_as Hc s4 E4.
  unfold percentile_section in Hc.
  destruct (pump_data st) as [|x pumps] eqn:Hp; [done|].
  fold pv in Hc.
  bind_some_as Hc p75 E75. bind_some_as Hc p80 E80. bind_some_as Hc p85 E85.
  bind_some_as Hc p90 E90. bind_some_as Hc p95 E95. bind_some_as Hc p99 E99.
  inversion Hc; subst; clear Hc.
  unfold percentile_keys, ranks.
  repeat (constructor; [eexists; split; [eassumption|by simplify_map_eq]|]).
  constructor.
Qed.

End StatsValues.

Section Extremes.
Context {A : Type} (key : A → Q).

Lemma fold_left_max_by l : ∀ best,
  let x := fold_left (λ best y, if Qltb (key best) (key y) then y else best)
             l best in
  x ∈ best :: l ∧ (key best <= key x)%Q
  ∧ ∀ y, y ∈ l → (key y <= key x)%Q.
Proof.
  induction l as [|z l IH]; intros best; simpl.
  - split; [set_solver|]. split; [apply Qle_refl|]. intros y Hy.
    by apply elem_of_nil in Hy.
  - destruct (IH (if Qltb (key best) (key z) then z else best))
      as (Hin & Hle & Hall).
    destruct (Qltb (key best) (key z)) eqn:E.
    + apply Qltb_lt in E. split; [set_solver|]. split.
      * eapply Qle_trans; [by apply Qlt_le_weak|done].
      * intros y Hy. apply elem_of_cons in Hy as [->|Hy]; [done|by apply Hall].
    + apply Qltb_ge in E. split; [set_solver|]. split; [done|].
      intros y Hy. apply elem_of_cons in Hy as [->|Hy]; [|by apply Hall].
      by eapply Qle_trans.
Qed.

Lemma fold_left_min_by l : ∀ best,
  let x := fold_left (λ best y, if Qltb (key y) (key best) then y else best)
             l best in
  x ∈ best :: l ∧ (key x <= key best)%Q
  ∧ ∀ y, y ∈ l → (key x <= key y)%Q.
Proof.
  induction l as [|z l IH]; intros best; simpl.
  - split; [set_solver|]. split; [apply Qle_refl|]. intros y Hy.
    by apply elem_of_nil in Hy.
  - destruct (IH (if Qltb (key z) (key best) then z else best))
      as (Hin & Hle & Hall).
    destruct (Qltb (key z) (key best)) eqn:E.
    + apply Qltb_lt in E. split; [set_solver|]. split.
      * eapply Qle_trans; [done|by apply Qlt_le_weak].
      * intros y Hy. apply elem_of_cons in Hy as [->|Hy]; [done|by apply Hall].
    + apply Qltb_ge in E. split; [set_solver|]. split; [done|].
      intros y Hy. apply elem_of_cons in Hy as [->|Hy]; [|by apply Hall].
      by eapply Qle_trans.
Qed.

Lemma py_max_by_spec l x :
  py_max_by key l = Some x → x ∈ l ∧ ∀ y, y ∈ l → (key y <= key x)%Q.
Proof.
  destruct l as [|b l]; [done|]. intros Hx. inversion Hx; subst; clear Hx.
  destruct (fold_left_max_by l b) as (Hin & Hle & Hall).
  split; [done|]. intros y Hy.
  apply elem_of_cons in Hy as [->|Hy]; [done|by apply Hall].
Qed.

Lemma py_min_by_spec l x :
  py_min_by key l = Some x → x ∈ l ∧ ∀ y, y ∈ l → (key x <= key y)%Q.
Proof.
  destruct l as [|b l]; [done|]. intros Hx. inversion Hx; subst; clear Hx.
  destruct (fold_left_min_by l b) as (Hin & Hle & Hall).
  split; [done|]. intros y Hy.
  apply elem_of_cons in Hy as [->|Hy]; [done|by apply Hall].
Qed.

End Extremes.

Lemma get_p_sorted_le (values : list Q) (p p' v v' : Q) :
  values ≠ [] →
  (0 <= p)%Q → (p <= p')%Q → (p' < 1)%Q →
  get_p (py_sorted id values) (length (py_sorted id values)) p = Some v →
  get_p (py_sorted id values) (length (py_sorted id values)) p' = Some v' →
  (v <= v')%Q.
Proof.
  intros Hne H0 Hle H1 Hv Hv'.
  set (pv := py_sorted id values) in *.
  assert (pv ≠ []) as Hpv.
  { intros E. apply (f_equal length) in E. unfold pv in E.
    rewrite length_py_sorted in E. by destruct values. }
  assert (0 <= p')%Q as H0' by (by eapply Qle_trans).
  assert (p < 1)%Q as H1' by (by eapply Qle_lt_trans).
  rewrite get_p_lookup in Hv, Hv' by done.
  assert (0 < length pv)%nat as Hn by (destruct pv; [done|simpl; lia]).
  pose proof (rank_index_bounds (length pv) p Hn H0 H1') as Hb.
  pose proof (rank_index_mono (length pv) p p' Hle) as Hm.
  apply (sorted_lookup_le id pv _ _ v v' (py_sorted_sorted id values) Hv Hv').
  lia.
Qed.

Lemma get_p_elem_of (values : list Q) (p v : Q) :
  values ≠ [] → (0 <= p)%Q → (p < 1)%Q →
  get_p (py_sorted id values) (length (py_sorted id values)) p = Some v →
  v ∈ values.
Proof.
  intros Hne H0 H1 Hv.
  assert (py_sorted id values ≠ []) as Hpv.
  { intros E. apply (f_equal length) in E.
    rewrite length_py_sorted in E. by destruct values. }
  rewrite get_p_lookup in Hv by done.
  apply list_elem_of_lookup_2 in Hv.
  by rewrite (py_sorted_perm id values) in Hv.
Qed.

(** The running total of [Qsum] is the sum. *)
Lemma Qsum_from_sum l : ∀ acc,
  (fold_left (λ acc x, Qred (acc + x)) l acc == acc + foldr Qplus 0 l)%Q.
Proof.
  induction l as [|x l IH]; intros acc; simpl.
  - ring.
  - rewrite IH, Qred_correct. ring.
Qed.

Lemma Qsum_sum l : (Qsum l == foldr Qplus 0 l)%Q.
Proof. unfold Qsum. rewrite Qsum_from_sum. ring. Qed.

Lemma py_max3_greatest a b c : greatest_of (py_max3 a b c) a b c.
Proof.
  unfold py_max3, greatest_of.
  destruct (Qltb a b) eqn:E1.
  - apply Qltb_lt in E1. destruct (Qltb b c) eqn:E2.
    + apply Qltb_lt in E2. split; [auto|]. repeat split; lra.
    + apply Qltb_ge in E2. split; [auto|]. repeat split; lra.
  - apply Qltb_ge in E1. destruct (Qltb a c) eqn:E2.
    + apply Qltb_lt in E2. split; [auto|]. repeat split; lra.
    + apply Qltb_ge in E2. split; [auto|]. repeat split; lra.
Qed.

Section TrueRanges.
Context `{MathLib}.

(** The true range of the candle at index [i > 0] is stored at index
    [i - 1] of the list. *)
Lemma grand_loop_from_tr_lookup candles rest : ∀ i st st',
  grand_loop_from candles i rest st = Some st' →
  length (tr_list st) = pred i →
  (∀ j x, tr_list st !! j = Some x → tr_list st' !! j = Some x)
  ∧ ∀ k c, rest !! k = Some c → (0 < i + k)%nat →
      ∃ prev h l pc,
        candles !! (i + k - 1)%nat = Some prev
        ∧ float_field c 2 = Some h ∧ float_field c 3 = Some l
        ∧ float_field prev 4 = Some pc
        ∧ tr_list st' !! (i + k - 1)%nat
          = Some (py_max3 (h - l) (Qabs (h - pc)) (Qabs (l - pc))).
Proof.
  induction rest as [|c rest IH]; intros i st st' Hl Hlen; simpl in Hl.
  - inversion Hl; subst. split; [done|]. by intros k c Hk.
  - destruct (loop_body candles i c st) as [st1|] eqn:Hb; [|done].
    cbn [mbind option_bind] in Hl.
    destruct (loop_body_shape _ _ _ _ _ Hb)
      as (d & o & h & l & cl & _ & _ & Hh & Hlo & _ & _ & _ & Hz & Hp).
    assert (length (tr_list st1) = pred (S i)) as Hlen1.
    { simpl. destruct (Nat.eq_dec i 0%nat) as [->|Hi].
      - destruct Hz as [-> _]; done.
      - destruct Hp as (prev & pc & _ & _ & -> & _); [lia|].
        rewrite length_app. simpl. lia. }
    destruct (IH _ _ _ Hl Hlen1) as [Hkeep Hrest].
    split.
    + intros j x Hj. apply Hkeep.
      destruct (Nat.eq_dec i 0%nat) as [->|Hi].
      * destruct Hz as [-> _]; done.
      * destruct Hp as (prev & pc & _ & _ & -> & _); [lia|].
        by apply lookup_app_l_Some.
    + intros k c' Hk Hpos. destruct k as [|k]; simpl in Hk.
      * inversion Hk; subst c'. rewrite Nat.add_0_r in *.
        destruct Hp as (prev & pc & Hprev & Hpc & Htr & _); [lia|].
        exists prev, h, l, pc. repeat (split; [done|]).
        apply Hkeep. rewrite Htr.
        replace (i - 1)%nat with (length (tr_list st) + 0)%nat by lia.
        by rewrite lookup_app_r, Nat.add_comm, Nat.add_sub by lia.
      * replace (i + S k)%nat with (S i + k)%nat by lia.
        apply Hrest; [done|lia].
Qed.

End TrueRanges.

(** C9. When the grand loop runs to its end on a series of [n >= 30]
    candles the list of true ranges has [n - 1 >= 29] elements: the
    element at index [i - 1] is the true range of the candle at index
    [i > 0], that is the greatest of high minus low, the distance of the
    high and the distance of the low from the close before.  So both
    tests of the ATR section succeed, the branches that store [0] are not
    taken, and [atr_14] and [atr_28] are the arithmetic means of the last
    14 and the last 28 true ranges: the sum of the last 14 (28) elements
    of the list divided by 14 (28). *)
Theorem atr_windows_have_full_support `{MathLib}
    (candles : list candle) (st : containers) :
  (30 <= length candles)%nat →
  grand_loop candles = Some st →
  let trs := tr_list st in
  length trs = (length candles - 1)%nat
  ∧ (29 <= length trs)%nat
  ∧ (∀ i c prev,
       (0 < i)%nat → candles !! i = Some c →
       candles !! (i - 1)%nat = Some prev →
       ∃ h l pc tr,
         float_field c 2 = Some h ∧ float_field c 3 = Some l
         ∧ float_field prev 4 = Some pc
         ∧ trs !! (i - 1)%nat = Some tr
         ∧ greatest_of tr (h - l) (Qabs (h - pc)) (Qabs (l - pc)))
  ∧ (14 <=? length trs)%nat = true ∧ (28 <=? length trs)%nat = true
  ∧ length (py_slice_last 14 trs) = 14%nat
  ∧ length (py_slice_last 28 trs) = 28%nat
  ∧ ∃ stats atr_14 atr_28 front14 last14 front28 last28,
      analyze_market_data candles = Stats stats
      ∧ stats !! "atr_14" = Some (VNum atr_14)
      ∧ stats !! "atr_28" = Some (VNum atr_28)
      ∧ atr_14 = (Qsum (py_slice_last 14 trs) / 14)%Q
      ∧ atr_28 = (Qsum (py_slice_last 28 trs) / 28)%Q
      ∧ trs = front14 ++ last14 ∧ length last14 = 14%nat
      ∧ trs = front28 ++ last28 ∧ length last28 = 28%nat
      ∧ (atr_14 == foldr Qplus 0 last14 / 14)%Q
      ∧ (atr_28 == foldr Qplus 0 last28 / 28)%Q.
Proof.
  intros Hlen Hst trs.
  pose proof (grand_loop_tr_length _ _ Hst) as Htr. fold trs in Htr.
  assert (29 <= length trs)%nat as H29 by lia.
  pose proof (length_py_slice_last 14 trs ltac:(lia)) as L14.
  pose proof (length_py_slice_last 28 trs ltac:(lia)) as L28.
  split; [done|]. split; [done|].
  split.
  { intros i c prev Hi Hc Hprev.
    destruct (grand_loop_from_tr_lookup candles candles 0 _ _ Hst eq_refl)
      as [_ Hlook].
    destruct (Hlook i c Hc ltac:(lia)) as (prev' & h & l & pc & Hp & Hh & Hl
                                           & Hpc & Ht).
    simpl in Hp, Ht. rewrite Hprev in Hp. inversion Hp; subst prev'.
    exists h, l, pc, (py_max3 (h - l) (Qabs (h - pc)) (Qabs (l - pc))).
    repeat (split; [done|]). apply py_max3_greatest. }
  split; [apply Nat.leb_le; lia|]. split; [apply Nat.leb_le; lia|].
  split; [done|]. split; [done|].
  destruct (analyze_market_data_completes candles st Hlen Hst)
    as (stats & Hc & Ha).
  exists stats, (Qsum (py_slice_last 14 trs) / 14)%Q,
    (Qsum (py_slice_last 28 trs) / 28)%Q,
    (take (length trs - 14) trs), (drop (length trs - 14) trs),
    (take (length trs - 28) trs), (drop (length trs - 28) trs).
  split; [done|].
  assert (stats !! "atr_14" = Some (VNum (Qsum (py_slice_last 14 trs) / 14))
          ∧ stats !! "atr_28"
            = Some (VNum (Qsum (py_slice_last 28 trs) / 28))) as [H14 H28].
  { unfold compile_stats in Hc.
    bind_some_as Hc s1 E1. bind_some_as Hc s2 E2. bind_some_as Hc s3 E3.
    bind_some_as Hc s4 E4.
    apply percentile_section_writes in Hc as [_ F5].
    rewrite !F5 by decide_keys.
    unfold atr_section in E4. fold trs in E4.
    bind_some_as E4 lc Elc. bind_some_as E4 cc Ecc.
    destruct (Nat.leb_spec 14 (length trs)); [|lia].
    destruct (Nat.leb_spec 28 (length trs)); [|lia].
    assert (∀ k l, length l = k → (0 < k)%nat →
              statistics_mean l = Some (Qsum l / inject_Z (Z.of_nat k))%Q)
      as Hm.
    { intros k l <- Hk. destruct l; [simpl in Hk; lia|done]. }
    rewrite (Hm 14%nat _ L14) in E4 by lia. cbn [mbind option_bind] in E4.
    rewrite (Hm 28%nat _ L28) in E4 by lia. cbn [mbind option_bind] in E4.
    inversion E4; subst. split; by simplify_map_eq. }
  split; [done|]. split; [done|]. split; [done|]. split; [done|].
  split; [by rewrite take_drop|]. split; [rewrite length_drop; lia|].
  split; [by rewrite take_drop|]. split; [rewrite length_drop; lia|].
  split.
  - unfold py_slice_last. by rewrite Qsum_sum.
  - unfold py_slice_last. by rewrite Qsum_sum.
Qed.

Lemma atr_windows_have_full_support_witness :
  ∃ st stats,
    grand_loop (H := rational_math) example_series = Some st
    ∧ length (tr_list st) = 29%nat
    ∧ analyze_market_data (H := rational_math) example_series = Stats stats
    ∧ stats !! "atr_14"
      = Some (VNum (Qsum (py_slice_last 14 (tr_list st)) / 14)).
Proof.
  destruct (grand_loop_is_Some (H := rational_math) example_series
              example_series_parseable) as [st Hst].
  destruct (atr_windows_have_full_support (H := rational_math)
              example_series st)
    as (Hlen & _ & _ & _ & _ & _ & _ & stats & a14 & a28 & f14 & l14 & f28
        & l28 & Ha & H14 & _ & E14 & _).
  - vm_compute. lia.
  - exact Hst.
  - exists st, stats. subst a14. repeat split; try done.
Defined.

(** X9. The average true ranges of a result are never negative, and
    neither is the ATR relative to the close, whatever the prices are
    (a low above the high or negative prices included). *)
Theorem atr_nonnegative `{MathLib} (candles : list candle)
    (stats : gmap string pyval) :
  analyze_market_data candles = Stats stats →
  ∃ atr_14 atr_28 atr_relative,
    stats !! "atr_14" = Some (VNum atr_14)
    ∧ stats !! "atr_28" = Some (VNum atr_28)
    ∧ stats !! "atr_relative" = Some (VNum atr_relative)
    ∧ (0 <= atr_14)%Q ∧ (0 <= atr_28)%Q ∧ (0 <= atr_relative)%Q.
Proof.
  intros Ha.
  destruct (analyze_market_data_Stats _ _ Ha) as (Hlen & st & Hst & Hc).
  pose proof (grand_loop_tr_length _ _ Hst) as Htr.
  destruct (compile_stats_atr _ _ _ Hc ltac:(lia))
    as (a14 & a28 & cc & H14 & H28 & _ & L14 & L28 & Lr).
  assert (Forall (λ x, (0 <= x)%Q) (tr_list st)) as Hnn.
  { eapply grand_loop_from_tr_nonneg; [exact Hst|constructor]. }
  assert (0 <= a14)%Q as P14.
  { eapply statistics_mean_nonneg; [exact H14|]. by apply Forall_drop. }
  assert (0 <= a28)%Q as P28.
  { eapply statistics_mean_nonneg; [exact H28|]. by apply Forall_drop. }
  eexists a14, a28, _. do 3 (split; [done|]). do 2 (split; [done|]).
  destruct (Qltb 0 cc) eqn:E; [|done].
  apply Qltb_lt in E. apply Qmult_le_0_compat; [done|].
  apply Qinv_le_0_compat. by apply Qlt_le_weak.
Qed.

Lemma example_series_analysis :
  ∃ stats, analyze_market_data (H := rational_math) example_series = Stats stats.
Proof.
  destruct (grand_loop_is_Some (H := rational_math) example_series
              example_series_parseable) as [st Hst].
  destruct (analyze_market_data_completes (H := rational_math)
              example_series st ltac:(vm_compute; lia) Hst)
    as (stats & _ & Ha).
  by exists stats.
Qed.

Lemma atr_nonnegative_witness :
  ∃ stats atr_14,
    analyze_market_data (H := rational_math) example_series = Stats stats
    ∧ stats !! "atr_14" = Some (VNum atr_14) ∧ (0 <= atr_14)%Q.
Proof.
  destruct example_series_analysis as [stats Ha].
  destruct (atr_nonnegative (H := rational_math) example_series stats Ha)
    as (a14 & _ & _ & L14 & _ & _ & P14 & _).
  exists stats, a14. split; [exact Ha|]. split; [exact L14|exact P14].
Defined.

(** X10. The biggest pump of a result is a pump of the series, stored
    with its own date, and no pump exceeds it; the worst dump is a dump
    of the series, stored with its own date, and no dump is below it. *)
Theorem intraday_extremes `{MathLib} (candles : list candle)
    (stats : gmap string pyval) :
  analyze_market_data candles = Stats stats →
  ∃ st,
    grand_loop candles = Some st
    ∧ (pump_data st ≠ [] →
       ∃ v d, stats !! "max_pump_val" = Some (VNum v)
              ∧ stats !! "max_pump_date" = Some (VStr d)
              ∧ (v, d) ∈ pump_data st
              ∧ ∀ e, e ∈ pump_data st → (e.1 <= v)%Q)
    ∧ (dump_data st ≠ [] →
       ∃ v d, stats !! "max_dump_val" = Some (VNum v)
              ∧ stats !! "max_dump_date" = Some (VStr d)
              ∧ (v, d) ∈ dump_data st
              ∧ ∀ e, e ∈ dump_data st → (v <= e.1)%Q).
Proof.
  intros Ha.
  destruct (analyze_market_data_Stats _ _ Ha) as (_ & st & Hst & Hc).
  destruct (compile_stats_extremes _ _ _ Hc) as [Hp Hd].
  exists st. split; [done|]. split.
  - intros Hne. destruct (Hp Hne) as ([v d] & avg & Hb & _ & Lv & Ld & _).
    destruct (py_max_by_spec fst _ _ Hb) as [Hin Hmax].
    by exists v, d.
  - intros Hne. destruct (Hd Hne) as ([v d] & avg & Hb & _ & Lv & Ld & _).
    destruct (py_min_by_spec fst _ _ Hb) as [Hin Hmin].
    by exists v, d.
Qed.

Lemma intraday_extremes_witness :
  ∃ stats st,
    analyze_market_data (H := rational_math) example_series = Stats stats
    ∧ grand_loop (H := rational_math) example_series = Some st.
Proof.
  destruct example_series_analysis as [stats Ha].
  destruct (intraday_extremes (H := rational_math) example_series stats Ha)
    as (st & Hst & _).
  exists stats, st. split; [exact Ha|exact Hst].
Defined.

(** X11. With at least one pump, the six percentile levels of a result
    are pumps of the series, they do not decrease from the 75th to the
    99th rank, and none exceeds the biggest pump. *)
Theorem percentile_levels `{MathLib} (candles : list candle)
    (stats : gmap string pyval) :
  analyze_market_data candles = Stats stats →
  ∃ st,
    grand_loop candles = Some st
    ∧ (pump_data st ≠ [] →
       ∃ p75 p80 p85 p90 p95 p99 top,
         stats !! "p75_pump" = Some (VNum p75)
         ∧ stats !! "p80_pump" = Some (VNum p80)
         ∧ stats !! "p85_pump" = Some (VNum p85)
         ∧ stats !! "p90_pump" = Some (VNum p90)
         ∧ stats !! "p95_pump" = Some (VNum p95)
         ∧ stats !! "p99_pump" = Some (VNum p99)
         ∧ stats !! "max_pump_val" = Some (VNum top)
         ∧ (p75 <= p80)%Q ∧ (p80 <= p85)%Q ∧ (p85 <= p90)%Q
         ∧ (p90 <= p95)%Q ∧ (p95 <= p99)%Q ∧ (p99 <= top)%Q
         ∧ Forall (λ v, v ∈ map fst (pump_data st))
                  [p75; p80; p85; p90; p95; p99]).
Proof.
  intros Ha.
  destruct (analyze_market_data_Stats _ _ Ha) as (_ & st & Hst & Hc).
  exists st. split; [done|]. intros Hne.
  destruct (proj1 (compile_stats_extremes _ _ _ Hc) Hne)
    as ([top d] & avg & Hb & _ & Lv & _ & _).
  destruct (py_max_by_spec fst _ _ Hb) as [_ Hmax].
  pose proof (compile_stats_percentiles _ _ _ Hc Hne) as Hps.
  assert (map fst (pump_data st) ≠ []) as Hvals by (by destruct (pump_data st)).
  unfold percentile_keys, ranks in Hps.
  apply Forall2_cons_1 in Hps as [(p75 & G75 & L75) Hps].
  apply Forall2_cons_1 in Hps as [(p80 & G80 & L80) Hps].
  apply Forall2_cons_1 in Hps as [(p85 & G85 & L85) Hps].
  apply Forall2_cons_1 in Hps as [(p90 & G90 & L90) Hps].
  apply Forall2_cons_1 in Hps as [(p95 & G95 & L95) Hps].
  apply Forall2_cons_1 in Hps as [(p99 & G99 & L99) _].
  pose proof (get_p_elem_of _ (75 # 100) _ Hvals ltac:(done) ltac:(done) G75)
    as I75.
  pose proof (get_p_elem_of _ (80 # 100) _ Hvals ltac:(done) ltac:(done) G80)
    as I80.
  pose proof (get_p_elem_of _ (85 # 100) _ Hvals ltac:(done) ltac:(done) G85)
    as I85.
  pose proof (get_p_elem_of _ (90 # 100) _ Hvals ltac:(done) ltac:(done) G90)
    as I90.
  pose proof (get_p_elem_of _ (95 # 100) _ Hvals ltac:(done) ltac:(done) G95)
    as I95.
  pose proof (get_p_elem_of _ (99 # 100) _ Hvals ltac:(done) ltac:(done) G99)
    as I99.
  exists p75, p80, p85, p90, p95, p99, top.
  do 7 (split; [done|]).
  split; [by apply (get_p_sorted_le _ (75 # 100) (80 # 100) _ _ Hvals
                      ltac:(done) ltac:(done) ltac:(done) G75 G80)|].
  split; [by apply (get_p_sorted_le _ (80 # 100) (85 # 100) _ _ Hvals
                      ltac:(done) ltac:(done) ltac:(done) G80 G85)|].
  split; [by apply (get_p_sorted_le _ (85 # 100) (90 # 100) _ _ Hvals
                      ltac:(done) ltac:(done) ltac:(done) G85 G90)|].
  split; [by apply (get_p_sorted_le _ (90 # 100) (95 # 100) _ _ Hvals
                      ltac:(done) ltac:(done) ltac:(done) G90 G95)|].
  split; [by apply (get_p_sorted_le _ (95 # 100) (99 # 100) _ _ Hvals
                      ltac:(done) ltac:(done) ltac:(done) G95 G99)|].
  split.
  - apply list_elem_of_fmap in I99 as (e & -> & He). by apply (Hmax e).
  - by repeat constructor.
Qed.

Lemma percentile_levels_witness :
  ∃ stats st,
    analyze_market_data (H := rational_math) example_series = Stats stats
    ∧ grand_loop (H := rational_math) example_series = Some st.
Proof.
  destruct example_series_analysis as [stats Ha].
  destruct (percentile_levels (H := rational_math) example_series stats Ha)
    as (st & Hst & _).
  exists stats, st. split; [exact Ha|exact Hst].
Defined.

(** ** More on the funding scanner *)

(** X12. Tickers are delivered only by a reply whose body carries
    [retCode] 0 and a list: a raised exception, a missing or non-zero
    [retCode] and a missing list all give the empty snapshot. *)
Theorem get_funding_data_delivers (reply : tickers_reply)
    (tickers : list ticker) :
  get_funding_data reply = tickers → tickers ≠ [] →
  reply = Body (Some 0) (Some tickers).
Proof.
  intros Hg Hne. destruct reply as [|[code|] [l|]]; simpl in Hg;
    try (by subst).
  - case_bool_decide as Hc; [by subst|].
    simpl in Hg. subst. repeat f_equal; lia.
  - case_bool_decide; by subst.
Qed.

Lemma get_funding_data_delivers_witness :
  snapshot example_snapshot = Body (Some 0) (Some example_snapshot).
Proof.
  apply (get_funding_data_delivers (snapshot example_snapshot)).
  - reflexivity.
  - discriminate.
Defined.

Lemma enumerate_zip {A} (l : list A) : ∀ start,
  enumerate start l = zip (seqZ start (Z.of_nat (length l))) l.
Proof.
  induction l as [|x l IH]; intros start; [done|].
  simpl length. rewrite seqZ_cons by lia. simpl. f_equal.
  rewrite IH. do 2 f_equal. lia.
Qed.

(** X13. For a non-negative [limit] the ranking shows the
    [min limit k] most negative of the [k] quotes with a rate below
    zero, numbered 1, 2, ... in the order of the ranking. *)
Theorem get_top_funding_rates_count (tickers : list ticker) (limit : Z) :
  0 <= limit →
  let kept := quotes_where (λ fr, float_ltb fr (Finite 0)) tickers in
  let top := py_slice_to limit (list_sort snd kept) in
  length top = (Z.to_nat limit `min` length kept)%nat
  ∧ enumerate 1 top = zip (seqZ 1 (Z.of_nat (length top))) top
  ∧ (tickers ≠ [] → top ≠ [] →
     get_top_funding_rates (snapshot tickers) limit
     = top_header
       +:+ render (λ ie, top_line ie.1 ie.2)
             (zip (seqZ 1 (Z.of_nat (length top))) top)).
Proof.
  intros Hl kept top.
  split; [|split].
  - unfold top. rewrite py_slice_to_take by done.
    by rewrite length_take, length_list_sort.
  - apply enumerate_zip.
  - intros Hne Htop. rewrite get_top_funding_rates_selection by done.
    fold kept. fold top. rewrite <- enumerate_zip. by destruct top.
Qed.

Lemma get_top_funding_rates_count_witness :
  length (py_slice_to 1
            (list_sort snd
               (quotes_where (λ fr, float_ltb fr (Finite 0))
                             example_snapshot)))
  = (Z.to_nat 1
       `min` length (quotes_where (λ fr, float_ltb fr (Finite 0))
                                  example_snapshot))%nat.
Proof.
  apply (get_top_funding_rates_count example_snapshot 1). lia.
Defined.

(** The two limits of the example snapshot, as the program prints them:
    the ranking cut to its first entry, and the whole of it. *)
Lemma get_top_funding_rates_limits :
  get_top_funding_rates (snapshot example_snapshot) 1
  = top_header
    +:+ "1. [XXXUSDT](https://www.bybit.com/trade/usdt/XXXUSDT): -5.00%"
    +:+ newline
  ∧ get_top_funding_rates (snapshot odd_snapshot) 2
    = top_header
      +:+ "1. [BBBUSDT](https://www.bybit.com/trade/usdt/BBBUSDT): -inf%"
      +:+ newline
      +:+ "2. [CCCUSDT](https://www.bybit.com/trade/usdt/CCCUSDT): -1000.00%"
      +:+ newline.
Proof. split; vm_compute; reflexivity. Qed.

(** X14. Ties keep the order of the snapshot: among the selected quotes
    of either operation, those with the same rate appear in the sorted
    list in the order in which the snapshot delivered them. *)
Theorem ties_keep_snapshot_order (keep : pyfloat → bool)
    (tickers : list ticker) (rate : pyfloat) :
  filter (λ e : string * pyfloat, float_eqb e.2 rate = true)
         (list_sort snd (quotes_where keep tickers))
  = filter (λ e : string * pyfloat, float_eqb e.2 rate = true)
           (quotes_where keep tickers).
Proof. apply filter_list_sort. Qed.

(** The ranking of a snapshot with a tie: BBBUSDT first, then AAAUSDT
    and CCCUSDT in the order of the snapshot. *)
Lemma tied_snapshot_ranking :
  map fst (list_sort snd
             (quotes_where (λ fr, float_ltb fr (Finite 0)) tied_snapshot))
  = ["BBBUSDT"; "AAAUSDT"; "CCCUSDT"].
Proof. vm_compute. reflexivity. Qed.

Lemma quotes_where_threshold (tickers : list ticker) (threshold : pyfloat) :
  float_ltb threshold (Finite 0) = true →
  quotes_where (λ fr, float_leb fr threshold) tickers
  = filter (λ e : string * pyfloat, float_leb e.2 threshold = true)
           (quotes_where (λ fr, float_ltb fr (Finite 0)) tickers).
Proof.
  intros Hth. induction tickers as [|t tickers IH]; [done|].
  unfold quotes_where in *.
  change (t :: tickers) with ([t] ++ tickers).
  rewrite !omap_app, filter_app, <- IH. f_equal. simpl.
  destruct (rate_of t) as [fr|]; simpl; [|done].
  destruct (float_leb fr threshold) eqn:E.
  - rewrite (float_leb_ltb_trans _ _ _ E Hth).
    rewrite filter_cons. simpl. rewrite E.
    by destruct (decide (true = true)).
  - destruct (float_ltb fr (Finite 0)); [|done].
    rewrite filter_cons. simpl. rewrite E.
    by destruct (decide (false = true)).
Qed.

Lemma sorted_extreme_prefix (tickers : list ticker) (threshold : pyfloat) :
  float_ltb threshold (Finite 0) = true →
  list_sort snd (quotes_where (λ fr, float_leb fr threshold) tickers)
  = take (length (quotes_where (λ fr, float_leb fr threshold) tickers))
         (list_sort snd
            (quotes_where (λ fr, float_ltb fr (Finite 0)) tickers)).
Proof.
  intros Hth. rewrite quotes_where_threshold by done.
  set (kept := quotes_where (λ fr, float_ltb fr (Finite 0)) tickers).
  assert (Forall (λ e : string * pyfloat, e.2 ≠ NaN) kept) as Hn
    by apply negative_not_nan.
  rewrite <- (filter_list_sort_comm snd) by done.
  rewrite (filter_le_prefix snd threshold (list_sort snd kept))
    by (by apply list_sort_sorted).
  f_equal. by rewrite (filter_list_sort_comm snd), length_list_sort.
Qed.

(** X15. With a threshold below zero the alert is the top of the
    ranking: [get_top_funding_rates] renders the first [limit] entries
    of the sorted list of the rates below zero, and
    [check_extreme_funding] renders the first entries of the same list,
    as many as there are rates at most the threshold, or returns [None]
    when there is none. *)
Theorem alert_is_top_of_ranking (tickers : list ticker)
    (threshold : pyfloat) (limit : Z) :
  float_ltb threshold (Finite 0) = true →
  tickers ≠ [] →
  let ranking :=
    list_sort snd (quotes_where (λ fr, float_ltb fr (Finite 0)) tickers) in
  let extreme := quotes_where (λ fr, float_leb fr threshold) tickers in
  (length extreme <= length ranking)%nat
  ∧ list_sort snd extreme = take (length extreme) ranking
  ∧ get_top_funding_rates (snapshot tickers) limit
    = match py_slice_to limit ranking with
      | [] => no_negative_message
      | top => top_header
               +:+ render (λ ie, top_line ie.1 ie.2) (enumerate 1 top)
      end
  ∧ check_extreme_funding (snapshot tickers) threshold
    = match take (length extreme) ranking with
      | [] => None
      | listed => Some (alert_header +:+ render alert_line listed)
      end.
Proof.
  intros Hth Hne ranking extreme.
  pose proof (sorted_extreme_prefix tickers threshold Hth) as Hp.
  fold extreme in Hp. fold ranking in Hp.
  split; [|split; [done|split]].
  - pose proof (f_equal length Hp) as Hl.
    rewrite length_list_sort, length_take in Hl. lia.
  - rewrite get_top_funding_rates_selection by done. fold ranking.
    by destruct (py_slice_to limit ranking).
  - rewrite check_extreme_funding_selection. fold extreme.
    rewrite <- Hp. destruct extreme as [|e extreme'] eqn:He; [done|].
    pose proof (length_list_sort snd (e :: extreme')) as Hl.
    by destruct (list_sort snd (e :: extreme')).
Qed.

Lemma alert_is_top_of_ranking_witness :
  check_extreme_funding (snapshot odd_snapshot) default_threshold
  = match take 2 (list_sort snd
                    (quotes_where (λ fr, float_ltb fr (Finite 0))
                                  odd_snapshot)) with
    | [] => None
    | listed => Some (alert_header +:+ render alert_line listed)
    end.
Proof.
  apply (alert_is_top_of_ranking odd_snapshot default_threshold 10).
  - reflexivity.
  - discriminate.
Defined.

(** ** The caller ([bot.py]) *)

Lemma list_ascii_of_string_app (a b : string) :
  list_ascii_of_string (a +:+ b)
  = list_ascii_of_string a ++ list_ascii_of_string b.
Proof.
  induction a as [|x a IH]; [done|].
  change (String x a +:+ b) with (String x (a +:+ b)). simpl. by rewrite IH.
Qed.

Lemma endswith_app (a suffix : string) : endswith (a +:+ suffix) suffix = true.
Proof.
  unfold endswith. apply bool_decide_eq_true.
  rewrite list_ascii_of_string_app. by apply suffix_app_r.
Qed.

(** X16. The symbol looked up always ends with "USDT"; a text that
    already ends with it is looked up as it is, so the currency is never
    appended twice. *)
Theorem target_symbol_suffix (user_text : string) :
  endswith (target_symbol user_text) "USDT" = true
  ∧ target_symbol (target_symbol user_text) = target_symbol user_text
  ∧ (endswith user_text "USDT" = true → target_symbol user_text = user_text)
  ∧ (endswith user_text "USDT" = false →
     target_symbol user_text = user_text +:+ "USDT").
Proof.
  assert (endswith (target_symbol user_text) "USDT" = true) as He.
  { unfold target_symbol. destruct (endswith user_text "USDT") eqn:E; [done|].
    apply endswith_app. }
  split; [done|]. split.
  - unfold target_symbol at 1. by rewrite He.
  - unfold target_symbol. split; by intros ->.
Qed.

Lemma get_jobs_by_name_app name l1 l2 :
  get_jobs_by_name name (l1 ++ l2)
  = get_jobs_by_name name l1 ++ get_jobs_by_name name l2.
Proof. apply filter_app. Qed.

Lemma start_scanning_job_invariant accepts env jobs jobs' chat_id :
  (∀ c : Z, (length (get_jobs_by_name (pretty c) jobs) <= 1)%nat) →
  start_scanning_job accepts env (Some jobs) chat_id = Some jobs' →
  ∀ c : Z, (length (get_jobs_by_name (pretty c) jobs') <= 1)%nat.
Proof.
  intros Hinv Hs c. simpl in Hs.
  destruct (get_jobs_by_name (pretty chat_id) jobs) as [|j js] eqn:Hj;
    [|by inversion Hs; subst].
  destruct (scan_interval env) as [interval|]; [|by inversion Hs; subst].
  destruct (accepts interval); [|by inversion Hs; subst].
  inversion Hs; subst; clear Hs.
  rewrite get_jobs_by_name_app, length_app.
  unfold get_jobs_by_name at 2. rewrite filter_cons, filter_nil. simpl.
  destruct (decide (pretty chat_id = pretty c)) as [Heq|Hne]; simpl.
  - rewrite <- Heq, Hj. simpl. lia.
  - specialize (Hinv c). lia.
Qed.

Lemma start_scanning_job_extends accepts env jobs jobs' chat_id :
  start_scanning_job accepts env (Some jobs) chat_id = Some jobs' →
  (∃ new, jobs' = jobs ++ new)
  ∧ (interval_ok accepts env →
     get_jobs_by_name (pretty chat_id) jobs' ≠ []).
Proof.
  intros Hs. simpl in Hs.
  destruct (get_jobs_by_name (pretty chat_id) jobs) as [|j js] eqn:Hj.
  - destruct (scan_interval env) as [interval|] eqn:Hi.
    + destruct (accepts interval) eqn:Ha.
      * inversion Hs; subst; clear Hs. split; [by eexists|]. intros _.
        rewrite get_jobs_by_name_app.
        unfold get_jobs_by_name at 2. rewrite filter_cons. simpl.
        destruct (decide (pretty chat_id = pretty chat_id)); [|done].
        by destruct (get_jobs_by_name _ jobs).
      * inversion Hs; subst. split; [exists []; by rewrite app_nil_r|].
        intros (i & Hi' & Ha'). congruence.
    + inversion Hs; subst. split; [exists []; by rewrite app_nil_r|].
      intros (i & Hi' & Ha'). congruence.
  - inversion Hs; subst. split; [exists []; by rewrite app_nil_r|].
    intros _. by rewrite Hj.
Qed.

Lemma start_scanning_jobs_Some accepts env chats : ∀ q jobs,
  fold_left (start_scanning_job accepts env) chats q = Some jobs →
  ∃ jobs0, q = Some jobs0.
Proof.
  induction chats as [|c chats IH]; intros q jobs Hf; simpl in Hf.
  - by exists jobs.
  - destruct (IH _ _ Hf) as [jobs1 H1]. destruct q as [jobs0|]; [|done].
    by exists jobs0.
Qed.

(** X17. Scanning jobs are not duplicated: from a job queue with at
    most one job per chat (the empty queue for instance), any sequence
    of calls of [start_scanning_job] leaves at most one job per chat,
    and, when the scan interval of the environment is one that
    [run_repeating] takes, exactly one job for every chat of the
    sequence. *)
Theorem one_scanning_job_per_chat (accepts : Z → bool) (env : option string)
    (chats : list Z) (jobs0 jobs : list job) :
  (∀ c : Z, (length (get_jobs_by_name (pretty c) jobs0) <= 1)%nat) →
  fold_left (start_scanning_job accepts env) chats (Some jobs0) = Some jobs →
  (∀ c : Z, (length (get_jobs_by_name (pretty c) jobs) <= 1)%nat)
  ∧ (interval_ok accepts env →
     ∀ c : Z, c ∈ chats →
       length (get_jobs_by_name (pretty c) jobs) = 1%nat).
Proof.
  revert jobs0. induction chats as [|c0 chats IH]; intros jobs0 Hinv Hf.
  - simpl in Hf. inversion Hf; subst. split; [done|].
    intros _ c Hc. by apply elem_of_nil in Hc.
  - simpl in Hf.
    destruct (start_scanning_jobs_Some _ _ _ _ _ Hf) as [jobs1 H1].
    rewrite H1 in Hf.
    pose proof (start_scanning_job_invariant _ _ _ _ _ Hinv H1) as Hinv1.
    destruct (IH _ Hinv1 Hf) as [Hle Hone].
    split; [done|]. intros Hi c Hc.
    apply elem_of_cons in Hc as [->|Hc]; [|by apply Hone].
    destruct (start_scanning_job_extends _ _ _ _ _ H1) as [_ Hne].
    specialize (Hne Hi). specialize (Hle c0).
    assert (∃ more, jobs = jobs1 ++ more) as [more ->].
    { clear -Hf. revert jobs1 Hf.
      induction chats as [|c chats IHc]; intros jobs1 Hf; simpl in Hf.
      - inversion Hf; subst. exists []. by rewrite app_nil_r.
      - destruct (start_scanning_jobs_Some _ _ _ _ _ Hf) as [jobs2 H2].
        rewrite H2 in Hf.
        destruct (start_scanning_job_extends _ _ _ _ _ H2) as [[new ->] _].
        destruct (IHc _ Hf) as [more ->].
        exists (new ++ more). by rewrite app_assoc. }
    rewrite get_jobs_by_name_app, length_app in Hle |- *.
    destruct (get_jobs_by_name (pretty c0) jobs1); [done|]. simpl in *. lia.
Qed.

Lemma one_scanning_job_per_chat_witness :
  ∃ jobs,
    fold_left (start_scanning_job (Z.ltb 0) None) [5; 7; 5] (Some [])
    = Some jobs
    ∧ length (get_jobs_by_name (pretty 5) jobs) = 1%nat.
Proof.
  eexists. split; [vm_compute; reflexivity|].
  apply (proj2 (one_scanning_job_per_chat (Z.ltb 0) None [5; 7; 5] [] _
                  (λ c, Nat.le_0_l 1) eq_refl)).
  - exists 1200. split; reflexivity.
  - repeat constructor.
Defined.

Lemma numeric_at_frame ks s s' k :
  writes ks s s' → k ∉ ks → numeric_at s k → numeric_at s' k.
Proof. intros [_ F] Hk [q Hq]. exists q. by rewrite F. Qed.

Lemma text_at_frame ks s s' k :
  writes ks s s' → k ∉ ks → text_at s k → text_at s' k.
Proof. intros [_ F] Hk [q Hq]. exists q. by rewrite F. Qed.

Ltac typed_inserts :=
  repeat constructor; eexists; by simplify_map_eq.

Section Typed.
Context `{MathLib}.

Lemma volatility_section_typed lrs s s' :
  volatility_section lrs s = Some s' →
  Forall (numeric_at s')
    ["vol_day"; "vol_week"; "max_daily_surge"; "max_daily_crash"].
Proof.
  unfold volatility_section. intros Hv.
  bind_some_as Hv s1 E1. bind_some_as Hv mx E2. bind_some_as Hv mn E3.
  inversion Hv; subst; clear Hv.
  destruct (1 <? length lrs)%nat.
  - bind_some_as E1 sd Es. inversion E1; subst. typed_inserts.
  - inversion E1; subst. typed_inserts.
Qed.

Lemma extreme_section_typed pick kv kd ka ks data s s' :
  extreme_section pick kv kd ka ks data s = Some s' →
  kv ≠ kd → kv ≠ ka → kv ≠ ks → kd ≠ ka → kd ≠ ks → ka ≠ ks →
  numeric_at s' kv ∧ text_at s' kd ∧ numeric_at s' ka ∧ numeric_at s' ks.
Proof.
  unfold extreme_section. intros He ??????.
  destruct data as [|x data].
  - inversion He; subst. repeat split; eexists; by simplify_map_eq.
  - bind_some_as He best Eb. bind_some_as He avg Ea. bind_some_as He std Es.
    inversion He; subst. repeat split; eexists; by simplify_map_eq.
Qed.

Lemma atr_section_typed candles trs s s' :
  atr_section candles trs s = Some s' →
  Forall (numeric_at s') ["atr_14"; "atr_28"; "atr_relative"].
Proof.
  unfold atr_section. intros Ha.
  bind_some_as Ha lc Elc. bind_some_as Ha cc Ecc. bind_some_as Ha s1 E1.
  assert (numeric_at s1 "atr_14") as [a14 H14].
  { destruct (14 <=? length trs)%nat.
    - bind_some_as E1 m Em. inversion E1; subst. eexists. by simplify_map_eq.
    - inversion E1; subst. eexists. by simplify_map_eq. }
  destruct (28 <=? length trs)%nat.
  - bind_some_as Ha m Em. inversion Ha; subst. typed_inserts.
  - inversion Ha; subst. typed_inserts.
Qed.

Lemma percentile_section_typed pumps s s' :
  percentile_section pumps s = Some s' →
  Forall (numeric_at s') percentile_keys.
Proof.
  unfold percentile_section. intros Hp. destruct pumps as [|x pumps].
  - inversion Hp; subst. simpl. unfold percentile_keys. typed_inserts.
  - bind_some_as Hp p75 E75. bind_some_as Hp p80 E80.
    bind_some_as Hp p85 E85. bind_some_as Hp p90 E90.
    bind_some_as Hp p95 E95. bind_some_as Hp p99 E99.
    inversion Hp; subst. unfold percentile_keys. typed_inserts.
Qed.

(** Every key of a compiled dictionary holds a value of the type that
    the report formats. *)
Lemma compile_stats_typed candles st stats :
  compile_stats candles st = Some stats →
  Forall (numeric_at stats)
    ["vol_day"; "vol_week"; "max_daily_surge"; "max_daily_crash";
     "max_pump_val"; "avg_pump"; "std_pump";
     "max_dump_val"; "avg_dump"; "std_dump";
     "atr_14"; "atr_28"; "atr_relative";
     "p75_pump"; "p80_pump"; "p85_pump"; "p90_pump"; "p95_pump"; "p99_pump"]
  ∧ Forall (text_at stats) ["max_pump_date"; "max_dump_date"].
Proof.
  unfold compile_stats. intros Hc.
  bind_some_as Hc s1 E1. bind_some_as Hc s2 E2. bind_some_as Hc s3 E3.
  bind_some_as Hc s4 E4.
  pose proof (volatility_section_typed _ _ _ E1) as T1.
  destruct (extreme_section_typed _ _ _ _ _ _ _ _ E2) as (P1 & P2 & P3 & P4);
    try done.
  destruct (extreme_section_typed _ _ _ _ _ _ _ _ E3) as (D1 & D2 & D3 & D4);
    try done.
  pose proof (atr_section_typed _ _ _ _ E4) as T4.
  pose proof (percentile_section_typed _ _ _ Hc) as T5.
  pose proof (extreme_section_writes _ _ _ _ _ _ _ _ E2) as W2.
  pose proof (extreme_section_writes _ _ _ _ _ _ _ _ E3) as W3.
  pose proof (atr_section_writes _ _ _ _ E4) as W4.
  pose proof (percentile_section_writes _ _ _ Hc) as W5.
  unfold percentile_keys in T5.
  apply Forall_cons in T1 as [V1 T1]. apply Forall_cons in T1 as [V2 T1].
  apply Forall_cons in T1 as [V3 T1]. apply Forall_cons in T1 as [V4 _].
  apply Forall_cons in T4 as [A1 T4]. apply Forall_cons in T4 as [A2 T4].
  apply Forall_cons in T4 as [A3 _].
  apply Forall_cons in T5 as [Q1 T5]. apply Forall_cons in T5 as [Q2 T5].
  apply Forall_cons in T5 as [Q3 T5]. apply Forall_cons in T5 as [Q4 T5].
  apply Forall_cons in T5 as [Q5 T5]. apply Forall_cons in T5 as [Q6 _].
  assert (∀ k, k ∉ ["max_pump_val"; "max_pump_date"; "avg_pump"; "std_pump"] →
               k ∉ ["max_dump_val"; "max_dump_date"; "avg_dump"; "std_dump"] →
               k ∉ ["atr_14"; "atr_28"; "atr_relative"] →
               k ∉ percentile_keys →
               numeric_at s1 k → numeric_at stats k) as F1.
  { intros k ? ? ? ? Hk.
    eapply numeric_at_frame; [exact W5|done|].
    eapply numeric_at_frame; [exact W4|done|].
    eapply numeric_at_frame; [exact W3|done|].
    by eapply numeric_at_frame; [exact W2|done|]. }
  assert (∀ k, k ∉ ["max_dump_val"; "max_dump_date"; "avg_dump"; "std_dump"] →
               k ∉ ["atr_14"; "atr_28"; "atr_relative"] →
               k ∉ percentile_keys →
               numeric_at s2 k → numeric_at stats k) as F2.
  { intros k ? ? ? Hk.
    eapply numeric_at_frame; [exact W5|done|].
    eapply numeric_at_frame; [exact W4|done|].
    by eapply numeric_at_frame; [exact W3|done|]. }
  assert (∀ k, k ∉ ["atr_14"; "atr_28"; "atr_relative"] →
               k ∉ percentile_keys →
               numeric_at s3 k → numeric_at stats k) as F3.
  { intros k ? ? Hk.
    eapply numeric_at_frame; [exact W5|done|].
    by eapply numeric_at_frame; [exact W4|done|]. }
  assert (∀ k, k ∉ percentile_keys →
               numeric_at s4 k → numeric_at stats k) as F4.
  { intros k ? Hk. by eapply numeric_at_frame; [exact W5|done|]. }
  split.
  - repeat (apply Forall_cons; split); [..|constructor].
    1-4: apply F1; [decide_keys..|done].
    1-3: apply F2; [decide_keys..|done].
    1-3: apply F3; [decide_keys..|done].
    1-3: apply F4; [decide_keys..|done].
    all: done.
  - repeat (apply Forall_cons; split); [..|constructor].
    + eapply text_at_frame; [exact W5|decide_keys|].
      eapply text_at_frame; [exact W4|decide_keys|].
      by eapply text_at_frame; [exact W3|decide_keys|].
    + eapply text_at_frame; [exact W5|decide_keys|].
      by eapply text_at_frame; [exact W4|decide_keys|].
Qed.

End Typed.

Lemma render_piece_is_Some py_str_float target n stats p :
  piece_ready stats p →
  is_Some (render_piece py_str_float target n stats p).
Proof.
  destruct p as [s| |k|k|k| |]; simpl; try (intros _; by eexists).
  - intros [q ->]. by eexists.
  - intros [q ->]. by eexists.
  - intros [[q|x] ->]; by eexists.
Qed.

(** X18. The report of the bot is rendered for every dictionary that the
    analysis returns: the dictionary is not empty, every key that the
    report reads is there, and it holds a number where the report
    formats a number. *)
Theorem report_renders `{MathLib} (py_str_float : Q → string)
    (target : string) (candles : list candle) (stats : gmap string pyval) :
  analyze_market_data candles = Stats stats →
  stats ≠ ∅
  ∧ ∃ report,
      render_report py_str_float target (length candles) stats = Some report
      ∧ report_of py_str_float target (length candles)
          (analyze_market_data candles) = Some report.
Proof.
  intros Ha.
  destruct (analyze_market_data_Stats _ _ Ha) as (_ & st & _ & Hc).
  destruct (compile_stats_typed _ _ _ Hc) as [Hnum Htxt].
  rewrite Forall_forall in Hnum. rewrite Forall_forall in Htxt.
  assert (stats ≠ ∅) as Hne.
  { intros ->. destruct (Hnum "vol_day") as [q Hq]; [decide_keys|].
    by rewrite lookup_empty in Hq. }
  split; [done|].
  destruct (mapM_is_Some_2
              (render_piece py_str_float target (length candles) stats)
              report_template) as [texts Ht].
  { eapply Forall_impl; [|intros p Hp; apply render_piece_is_Some; exact Hp].
    unfold report_template.
    repeat (constructor;
            [first [ exact I
                   | apply Hnum; decide_keys
                   | destruct (Htxt "max_pump_date") as [x Hx];
                     [decide_keys|by (simpl; rewrite Hx)]
                   | destruct (Htxt "max_dump_date") as [x Hx];
                     [decide_keys|by (simpl; rewrite Hx)] ]|]).
    constructor. }
  exists (foldr String.append "" texts).
  assert (render_report py_str_float target (length candles) stats
          = Some (foldr String.append "" texts)) as Hr.
  { unfold render_report. by rewrite Ht. }
  split; [done|].
  rewrite Ha. unfold report_of. by rewrite bool_decide_eq_false_2.
Qed.

Lemma report_renders_witness :
  ∃ stats report,
    analyze_market_data (H := rational_math) example_series = Stats stats
    ∧ render_report (λ _, "") "BTCUSDT" (length example_series) stats
      = Some report.
Proof.
  destruct example_series_analysis as [stats Ha].
  destruct (report_renders (H := rational_math) (λ _, "") "BTCUSDT"
              example_series stats Ha) as (_ & report & Hr & _).
  exists stats, report. split; [exact Ha|exact Hr].
Defined.

Section NoReturns.
Context `{MathLib}.



End NoReturns.




